(** * FFMPEG_OPENAL: the decode/resample pump of Main.cpp

    A shallow embedding of [format_av_error], [FFMPEG_decode],
    [ReadCallback]/[SeekCallback] and [read_audio_into_buffer].

    libavformat, libavcodec, libswresample and libavutil are external
    collaborators: they are an interface ([Libav]) of oracles over an
    abstract world, which the program threads through its calls.  Every
    call to the interface is recorded in a trace, so that statements about
    "what the pump did" are statements about that trace. *)

From Stdlib Require Import String.
From Stdlib Require Import Strings.Byte.
From Stdlib Require Import ZArith List Lia Bool.
Import ListNotations.
Local Open Scope Z_scope.

(** ** Constants of the C headers *)

(** errno's EAGAIN and libavutil's AVERROR(e) = -e. *)
Definition EAGAIN : Z := 11.
Definition AVERROR (e : Z) : Z := - e.

(** MKTAG(a,b,c,d) = a | b << 8 | c << 16 | d << 24, and
    AVERROR_EOF = FFERRTAG('E','O','F',' ') = -MKTAG('E','O','F',' '). *)
Definition MKTAG (a b c d : Z) : Z :=
  Z.lor a (Z.lor (Z.shiftl b 8) (Z.lor (Z.shiftl c 16) (Z.shiftl d 24))).
Definition AVERROR_EOF : Z := - MKTAG 69 79 70 32.

Definition AVMEDIA_TYPE_AUDIO : Z := 1.

(** libavformat's AVSEEK_SIZE, the origin that asks for the size. *)
Definition AVSEEK_SIZE : Z := 65536.
Definition nullptr : Z := 0.

(** #define RESAMPLE_TO_MONO: one output channel;
    TARGET_RESAMPLING_FORMAT = AV_SAMPLE_FMT_S16: two bytes per sample. *)
Definition target_channels : Z := 1.
Definition target_sample_width : Z := 2.

(** Conversions between C integer types, wrap-around written out. *)
Definition to_int (x : Z) : Z := (x + 2 ^ 31) mod 2 ^ 32 - 2 ^ 31.
Definition to_long (x : Z) : Z := (x + 2 ^ 63) mod 2 ^ 64 - 2 ^ 63.
Definition to_size_t (x : Z) : Z := x mod 2 ^ 64.

(** ** Data *)

Record AVPacket : Type := mkPacket {
  stream_index : Z;
  pkt_data : Z
}.

Record AVFrame : Type := mkFrame {
  nb_samples : Z;
  extended_data : Z
}.

Record AVCodecParameters : Type := mkParams {
  codec_type : Z;
  codec_id : Z;
  sample_rate : Z;
  channel_layout : Z;
  format : Z
}.

(** [codecpar] is a pointer in C; [None] is the null pointer. *)
Record AVStream : Type := mkStream {
  codecpar : option AVCodecParameters
}.

(** struct SoundData (the fields are prefixed: [buffer] is also the name of
    the pump's local vector). *)
Record SoundData : Type := mkSound {
  sd_buffer : list byte;
  sd_sample_rate : Z;
  sd_channels : Z
}.

(** What the two overloads of [format_av_error] print on stderr. *)
Inductive diag : Type :=
| DiagCode (ret : Z)
| DiagMsg (error_msg : string).

(** The library calls of [read_audio_into_buffer], setup and teardown. *)
Inductive setup_call : Type :=
| c_fopen | c_av_malloc | c_avio_alloc_context | c_avformat_alloc_context
| c_avformat_open_input | c_avformat_find_stream_info
| c_avcodec_find_decoder | c_avcodec_alloc_context3
| c_avcodec_parameters_to_context | c_avcodec_open2
| c_swr_alloc_set_opts | c_swr_init
| c_avio_context_free | c_fclose | c_swr_close
| c_avformat_close_input | c_avcodec_free_context | c_avformat_free_context.

(** One entry per call that leaves the program.  [EvFree] stands for
    av_free/av_freep of a scratch buffer: Main.cpp contains no such call,
    the constructor is here so that a release discipline can be stated. *)
Inductive event : Type :=
| EvReadFrame (ret : Z) (pkt : AVPacket)
| EvSendPacket (pkt : AVPacket) (ret : Z)
| EvReceiveFrame (ret : Z) (frm : AVFrame)
| EvSamplesAlloc (nb_channels nb : Z) (ret ptr linesize : Z)
| EvConvert (out_count in_count ret : Z)
| EvAppend (bytes : list byte)
| EvFree (ptr : Z)
| EvSetup (c : setup_call) (ret : Z)
| EvStderr (d : diag).

(** ** The library interface

    Out-parameters are returned next to the return code; an oracle that
    is handed the old value may leave it unchanged. *)
Class Libav (World : Type) : Type := {
  av_packet_alloc : World -> AVPacket * World;
  av_frame_alloc : World -> Z * AVFrame * World;
  av_read_frame : World -> AVPacket -> Z * AVPacket * World;
  avcodec_send_packet : World -> AVPacket -> Z * World;
  avcodec_receive_frame : World -> AVFrame -> Z * AVFrame * World;
  (** [av_samples_alloc w pBufferData line_size nb_channels nb_samples
      sample_fmt align] returns the code and the new [pBufferData] and
      [line_size]. *)
  av_samples_alloc : World -> Z -> Z -> Z -> Z -> Z -> Z -> Z * Z * Z * World;
  (** [swr_convert w out out_count frame in_count]. *)
  swr_convert : World -> Z -> Z -> AVFrame -> Z -> Z * World;
  (** The byte stored at an address. *)
  load : World -> Z -> byte;
  fopen : World -> string -> Z * World;
  av_malloc : World -> Z -> Z * World;
  avio_alloc_context : World -> Z -> Z -> Z -> Z * World;
  avformat_alloc_context : World -> Z * World;
  (** [avformat_open_input w pFormatContext pb]: code and new pointer. *)
  avformat_open_input : World -> Z -> Z -> Z * Z * World;
  avformat_find_stream_info : World -> Z -> Z * World;
  (** pFormatContext->streams[0 .. nb_streams). *)
  streams : World -> Z -> list AVStream;
  avcodec_find_decoder : World -> Z -> Z * World;
  avcodec_alloc_context3 : World -> Z -> Z * World;
  avcodec_parameters_to_context : World -> Z -> AVCodecParameters -> Z * World;
  avcodec_open2 : World -> Z -> Z -> Z * World;
  (** [swr_alloc_set_opts w out_layout out_fmt out_rate in_layout in_fmt in_rate]. *)
  swr_alloc_set_opts : World -> Z -> Z -> Z -> Z -> Z -> Z -> Z * World;
  swr_init : World -> Z -> Z * World;
  (** Teardown calls return nothing; those that take the address of a
      pointer variable give back what they left in it. *)
  teardown : World -> setup_call -> Z -> Z * World
}.

(** AV_CH_LAYOUT_MONO and AV_SAMPLE_FMT_S16 as libavutil numbers them. *)
Definition AV_CH_LAYOUT_MONO : Z := 4.
Definition AV_SAMPLE_FMT_S16 : Z := 1.
Definition TARGET_RESAMPLING_FORMAT : Z := AV_SAMPLE_FMT_S16.

(** ** The byte source adapter (lines 129-148)

    [FILE] is libc's; the adapter only needs feof, fread and fseek. *)
Section ByteSource.

Variable FILE : Type.
Variable feof : FILE -> Z.
Variable fread : FILE -> Z -> Z * list byte * FILE.
Variable fseek : FILE -> Z -> Z -> Z * FILE.

Definition ReadCallback (file : FILE) (data_size : Z) : Z * list byte * FILE :=
  if negb (feof file =? 0) then (AVERROR_EOF, [], file)
  else
    let '(n, bytes, file') := fread file data_size in
    (to_int n, bytes, file').

Definition SeekCallback (file : FILE) (offset : Z) (origin : Z) : Z * FILE :=
  if origin =? 65536 (* 0x10000 *) then (-1, file)
  else fseek file (to_long offset) origin.

End ByteSource.

(** ** Machine state and the result monad *)
Section Pump.

Context {World : Type} {L : Libav World}.

(** The world, the trace, and the locals of [FFMPEG_decode]. *)
Record State : Type := mkState {
  world : World;
  trace : list event;
  error_result : Z;
  pBufferData : Z;
  line_size : Z;
  last_nb_samples : Z;
  is_eof : bool;
  buffer : list byte;
  packet : AVPacket;
  frame : Z;
  frame_obj : AVFrame
}.

Definition set_world (w : World) (s : State) : State :=
  mkState w (trace s) (error_result s) (pBufferData s) (line_size s)
    (last_nb_samples s) (is_eof s) (buffer s) (packet s) (frame s) (frame_obj s).
Definition emit (e : event) (s : State) : State :=
  mkState (world s) (trace s ++ [e]) (error_result s) (pBufferData s) (line_size s)
    (last_nb_samples s) (is_eof s) (buffer s) (packet s) (frame s) (frame_obj s).
Definition set_error_result (r : Z) (s : State) : State :=
  mkState (world s) (trace s) r (pBufferData s) (line_size s)
    (last_nb_samples s) (is_eof s) (buffer s) (packet s) (frame s) (frame_obj s).
Definition set_scratch (p ls : Z) (s : State) : State :=
  mkState (world s) (trace s) (error_result s) p ls
    (last_nb_samples s) (is_eof s) (buffer s) (packet s) (frame s) (frame_obj s).
Definition set_last_nb_samples (n : Z) (s : State) : State :=
  mkState (world s) (trace s) (error_result s) (pBufferData s) (line_size s)
    n (is_eof s) (buffer s) (packet s) (frame s) (frame_obj s).
Definition set_is_eof (b : bool) (s : State) : State :=
  mkState (world s) (trace s) (error_result s) (pBufferData s) (line_size s)
    (last_nb_samples s) b (buffer s) (packet s) (frame s) (frame_obj s).
Definition set_buffer (b : list byte) (s : State) : State :=
  mkState (world s) (trace s) (error_result s) (pBufferData s) (line_size s)
    (last_nb_samples s) (is_eof s) b (packet s) (frame s) (frame_obj s).
Definition set_packet (p : AVPacket) (s : State) : State :=
  mkState (world s) (trace s) (error_result s) (pBufferData s) (line_size s)
    (last_nb_samples s) (is_eof s) (buffer s) p (frame s) (frame_obj s).
Definition set_frame (p : Z) (f : AVFrame) (s : State) : State :=
  mkState (world s) (trace s) (error_result s) (pBufferData s) (line_size s)
    (last_nb_samples s) (is_eof s) (buffer s) (packet s) p f.

(** [Ok]: the computation went on; [Exit c]: exit(c) was called;
    [Crash]: a null pointer was dereferenced; [Fuel]: a loop was cut. *)
Inductive result (A : Type) : Type :=
| Ok (a : A) (s : State)
| Exit (code : Z) (s : State)
| Crash (s : State)
| Fuel (s : State).
Arguments Ok {A} a s.
Arguments Exit {A} code s.
Arguments Crash {A} s.
Arguments Fuel {A} s.

Definition M (A : Type) : Type := State -> result A.

Definition pure {A} (a : A) : M A := fun s => Ok a s.
Definition bind {A B} (m : M A) (k : A -> M B) : M B :=
  fun s => match m s with
           | Ok a s' => k a s'
           | Exit c s' => Exit c s'
           | Crash s' => Crash s'
           | Fuel s' => Fuel s'
           end.
Definition gets {A} (f : State -> A) : M A := fun s => Ok (f s) s.
Definition modify (f : State -> State) : M unit := fun s => Ok tt (f s).
Definition exit {A} (code : Z) : M A := fun s => Exit code s.
Definition crash {A} : M A := fun s => Crash s.
Definition out_of_fuel {A} : M A := fun s => Fuel s.

Notation "x <- m ;; k" := (bind m (fun x => k))
  (at level 61, m at next level, right associativity).
Notation "m ;; k" := (bind m (fun _ => k))
  (at level 61, right associativity).

(** The state a result stops in. *)
Definition final {A} (r : result A) : State :=
  match r with Ok _ s | Exit _ s | Crash s | Fuel s => s end.

(** ** format_av_error (lines 28-47) *)

Definition unhandable (ret : Z) : bool :=
  (ret <? 0) && negb (ret =? AVERROR EAGAIN) && negb (ret =? AVERROR_EOF).

Definition format_av_error (ret : Z) : M unit :=
  if unhandable ret
  then modify (emit (EvStderr (DiagCode ret))) ;; exit ret
  else pure tt.

Definition format_av_error_ptr (pointer : Z) (error_msg : string) : M unit :=
  if pointer =? nullptr
  then modify (emit (EvStderr (DiagMsg error_msg))) ;; exit (-1)
  else pure tt.

(** ** FFMPEG_decode (lines 49-127) *)

Definition do_av_read_frame : M unit := fun s =>
  let '(r, p, w) := av_read_frame (world s) (packet s) in
  Ok tt (emit (EvReadFrame r p) (set_error_result r (set_packet p (set_world w s)))).

Definition do_avcodec_send_packet : M unit := fun s =>
  let '(r, w) := avcodec_send_packet (world s) (packet s) in
  Ok tt (emit (EvSendPacket (packet s) r) (set_error_result r (set_world w s))).

Definition do_avcodec_receive_frame : M unit := fun s =>
  let '(r, f, w) := avcodec_receive_frame (world s) (frame_obj s) in
  Ok tt (emit (EvReceiveFrame r f) (set_error_result r (set_frame (frame s) f (set_world w s)))).

(** frame->nb_samples: [frame] comes unchecked from av_frame_alloc. *)
Definition frame_nb_samples : M Z := fun s =>
  if frame s =? nullptr then Crash s else Ok (nb_samples (frame_obj s)) s.

Definition do_av_samples_alloc (nb : Z) : M unit := fun s =>
  let '(r, p, ls, w) :=
    av_samples_alloc (world s) (pBufferData s) (line_size s) target_channels nb
      TARGET_RESAMPLING_FORMAT 0 in
  Ok tt (emit (EvSamplesAlloc target_channels nb r p ls)
           (set_error_result r (set_scratch p ls (set_world w s)))).

Definition do_swr_convert (nb : Z) : M unit := fun s =>
  let '(r, w) := swr_convert (world s) (pBufferData s) nb (frame_obj s) nb in
  Ok tt (emit (EvConvert nb nb r) (set_error_result r (set_world w s))).

(** The bytes in [p, p + n). *)
Definition read_range (w : World) (p : Z) (n : nat) : list byte :=
  map (fun i => load w (p + Z.of_nat i)) (seq 0 n).

(** buffer.insert(buffer.cend(), pBufferData, pBufferData + static_cast<size_t>(line_size)) *)
Definition buffer_insert_cend : M unit := fun s =>
  let bytes := read_range (world s) (pBufferData s) (Z.to_nat (to_size_t (line_size s))) in
  Ok tt (emit (EvAppend bytes) (set_buffer (buffer s ++ bytes) s)).

(** The do-while of lines 71-92.  The block under the [if] yields [true]
    when it leaves the loop through [break]. *)
Fixpoint retry_loop (fuel : nat) : M unit :=
  match fuel with
  | O => out_of_fuel
  | S fuel' =>
      e <- gets error_result ;;
      brk <- (if e =? AVERROR EAGAIN then
                do_av_read_frame ;;
                e <- gets error_result ;;
                format_av_error e ;;
                if e =? AVERROR_EOF then
                  modify (set_is_eof true) ;; pure true
                else
                  do_avcodec_send_packet ;;
                  e <- gets error_result ;;
                  format_av_error e ;;
                  pure false
              else pure false) ;;
      if (brk : bool) then pure tt
      else
        do_avcodec_receive_frame ;;
        e <- gets error_result ;;
        if e =? AVERROR EAGAIN then retry_loop fuel' else pure tt
  end.

(** Lines 97-123: what one turn of the while loop does once a frame is
    there.  Yields [true] when it leaves the loop through [break]. *)
Definition resample_frame : M bool :=
  nb <- frame_nb_samples ;;
  last <- gets last_nb_samples ;;
  (if negb (nb =? last) then
     do_av_samples_alloc nb ;;
     modify (set_last_nb_samples nb)
   else pure tt) ;;
  e <- gets error_result ;;
  format_av_error e ;;
  do_swr_convert nb ;;
  e <- gets error_result ;;
  format_av_error e ;;
  if (e =? AVERROR EAGAIN) || (e =? AVERROR_EOF) then pure true
  else
    (if e <? 0 then format_av_error e else pure tt) ;;
    buffer_insert_cend ;;
    pure false.

(** The while loop of lines 69-124.  [fuel] bounds the turns of this loop
    and of each run of the do-while. *)
Fixpoint pump_loop (fuel : nat) : M unit :=
  match fuel with
  | O => out_of_fuel
  | S fuel' =>
      e <- gets error_result ;;
      eof <- gets is_eof ;;
      if (0 <=? e) && negb eof then
        retry_loop fuel ;;
        eof <- gets is_eof ;;
        if (eof : bool) then pure tt
        else
          brk <- resample_frame ;;
          if (brk : bool) then pure tt else pump_loop fuel'
      else pure tt
  end.

Definition init_locals (s : State) : State :=
  set_buffer [] (set_is_eof false (set_last_nb_samples 0
    (set_scratch nullptr 0 (set_error_result 0 s)))).

Definition do_av_packet_alloc : M unit := fun s =>
  let '(p, w) := av_packet_alloc (world s) in
  Ok tt (set_packet p (set_world w s)).

Definition do_av_frame_alloc : M unit := fun s =>
  let '(ptr, f, w) := av_frame_alloc (world s) in
  Ok tt (set_frame ptr f (set_world w s)).

Definition FFMPEG_decode (fuel : nat) : M (list byte) :=
  modify init_locals ;;
  do_av_packet_alloc ;;
  do_av_frame_alloc ;;
  do_av_read_frame ;;
  e <- gets error_result ;;
  format_av_error e ;;
  do_avcodec_send_packet ;;
  e <- gets error_result ;;
  format_av_error e ;;
  modify (set_error_result 0) ;;
  pump_loop fuel ;;
  gets buffer.

(** ** read_audio_into_buffer (lines 150-253, with FROM_MEMORY and
    RESAMPLE_TO_MONO defined)

    av_log_set_level only sets libav's verbosity and is left out; the two
    stores into *pFormatContext (pb and the custom-I/O flag) are handed to
    avformat_open_input together with the context. *)

Definition call (c : setup_call) (f : World -> Z * World) : M Z := fun s =>
  let '(r, w) := f (world s) in
  Ok r (emit (EvSetup c r) (set_world w s)).

Definition call_teardown (c : setup_call) (ptr : Z) : M Z := fun s =>
  let '(ptr', w) := teardown (world s) c ptr in
  Ok ptr' (emit (EvSetup c 0) (set_world w s)).

Definition do_avformat_open_input (pFormatContext pb : Z) : M (Z * Z) := fun s =>
  let '(r, ctx, w) := avformat_open_input (world s) pFormatContext pb in
  Ok (r, ctx) (emit (EvSetup c_avformat_open_input r) (set_world w s)).

(** The for loop of lines 187-196 over streams[i ..), [i] an unsigned
    counter assigned to the int [video_stream_idx]. *)
Fixpoint find_audio_stream (strs : list AVStream) (i : Z) (video_stream_idx : Z) : M Z :=
  match strs with
  | [] => pure video_stream_idx
  | pStream :: rest =>
      match codecpar pStream with
      | None => crash
      | Some par =>
          if codec_type par =? AVMEDIA_TYPE_AUDIO then pure (to_int i)
          else find_audio_stream rest (i + 1) video_stream_idx
      end
  end.

Definition read_audio_into_buffer (fuel : nat) (filename : string) : M SoundData :=
  file <- call c_fopen (fun w => fopen w filename) ;;
  data_ptr <- call c_av_malloc (fun w => av_malloc w 4096) ;;
  pInputContext <-
    call c_avio_alloc_context (fun w => avio_alloc_context w data_ptr 4096 file) ;;
  format_av_error_ptr pInputContext "Cannot allocate FFMPEG I/O context!" ;;
  pFormatContext <- call c_avformat_alloc_context avformat_alloc_context ;;
  if pFormatContext =? nullptr then crash
  else
    opened <- do_avformat_open_input pFormatContext pInputContext ;;
    let '(error_result, pFormatContext) := opened in
    format_av_error error_result ;;
    error_result <-
      call c_avformat_find_stream_info (fun w => avformat_find_stream_info w pFormatContext) ;;
    format_av_error error_result ;;
    if pFormatContext =? nullptr then crash
    else
      strs <- gets (fun s => streams (world s) pFormatContext) ;;
      video_stream_idx <- find_audio_stream strs 0 (-1) ;;
      (if video_stream_idx =? -1
       then format_av_error_ptr nullptr "FFMPEG could not find any audio stream!"
       else pure tt) ;;
      match nth_error strs (Z.to_nat video_stream_idx) with
      | None => crash
      | Some pStream =>
          match codecpar pStream with
          | None =>
              format_av_error_ptr nullptr "FFMPEG could not find audio stream!" ;; crash
          | Some pCodecParams =>
              pCodec <-
                call c_avcodec_find_decoder
                  (fun w => avcodec_find_decoder w (codec_id pCodecParams)) ;;
              format_av_error_ptr pCodec "FFMPEG could not find target audio codec!" ;;
              pCodecContext <-
                call c_avcodec_alloc_context3 (fun w => avcodec_alloc_context3 w pCodec) ;;
              format_av_error_ptr pCodecContext "FFMPEG could not alloc target audio codec!" ;;
              call c_avcodec_parameters_to_context
                (fun w => avcodec_parameters_to_context w pCodecContext pCodecParams) ;;
              error_result <-
                call c_avcodec_open2 (fun w => avcodec_open2 w pCodecContext pCodec) ;;
              format_av_error error_result ;;
              pResampler <-
                call c_swr_alloc_set_opts
                  (fun w => swr_alloc_set_opts w AV_CH_LAYOUT_MONO AV_SAMPLE_FMT_S16
                              (sample_rate pCodecParams) (channel_layout pCodecParams)
                              (format pCodecParams) (sample_rate pCodecParams)) ;;
              call c_swr_init (fun w => swr_init w pResampler) ;;
              format_av_error_ptr pResampler
                "Something went wrong with FFMPEG allocating audio resample context!" ;;
              decoded <- FFMPEG_decode fuel ;;
              call_teardown c_avio_context_free pInputContext ;;
              call_teardown c_fclose file ;;
              call_teardown c_swr_close pResampler ;;
              pFormatContext <- call_teardown c_avformat_close_input pFormatContext ;;
              call_teardown c_avcodec_free_context pCodecContext ;;
              call_teardown c_avformat_free_context pFormatContext ;;
              pure (mkSound decoded (sample_rate pCodecParams) target_channels)
          end
      end.

(** The state [main] starts [read_audio_into_buffer] in. *)
Definition boot (w : World) : State :=
  mkState w [] 0 nullptr 0 0 false [] (mkPacket 0 0) nullptr (mkFrame 0 0).

End Pump.

Arguments State World : clear implicits.
Arguments result World A : clear implicits.
Arguments M World A : clear implicits.
Arguments Ok {World A} a s.
Arguments Exit {World A} code s.
Arguments Crash {World A} s.
Arguments Fuel {World A} s.

(** ** A reference world

    A container is a list of packets; each packet carries in [pkt_data]
    the sample count of the one frame it decodes to.  The decoder queues
    what it is sent, the allocator hands out line sizes of two bytes per
    sample and channel, the resampler converts what it is given (or, when
    [d_short] is set, reports that it produced nothing). *)
Module Demo.

Record world : Type := mk {
  d_streams : list AVStream;
  d_packets : list AVPacket;
  d_queue : list Z;
  d_swr_init : Z;
  d_short : bool;
  d_next : Z
}.

Definition with_packets (ps : list AVPacket) (w : world) : world :=
  mk (d_streams w) ps (d_queue w) (d_swr_init w) (d_short w) (d_next w).
Definition with_queue (q : list Z) (w : world) : world :=
  mk (d_streams w) (d_packets w) q (d_swr_init w) (d_short w) (d_next w).
Definition fresh (w : world) : Z * world :=
  (d_next w,
   mk (d_streams w) (d_packets w) (d_queue w) (d_swr_init w) (d_short w) (d_next w + 4096)).

Definition audio : AVStream := mkStream (Some (mkParams AVMEDIA_TYPE_AUDIO 86021 48000 3 8)).
Definition video : AVStream := mkStream (Some (mkParams 0 27 0 0 0)).

(** The decoder: a frame per packet sent, need-more-input otherwise. *)
Definition receive (w : world) (frm : AVFrame) : Z * AVFrame * world :=
  match d_queue w with
  | [] => (AVERROR EAGAIN, mkFrame 0 0, w)
  | n :: rest => (0, mkFrame (n mod 4096) 1, with_queue rest w)
  end.

(** A decoder that never has a frame. *)
Definition starved_receive (w : world) (frm : AVFrame) : Z * AVFrame * world :=
  (AVERROR EAGAIN, mkFrame 0 0, w).

Definition listed (w : world) (ctx : Z) : list AVStream := d_streams w.

(** A container whose streams are all video. *)
Definition video_only (w : world) (ctx : Z) : list AVStream :=
  map (fun _ => video) (d_streams w).

Definition lib_gen (rcv : world -> AVFrame -> Z * AVFrame * world)
    (strs : world -> Z -> list AVStream) : Libav world := {|
  av_packet_alloc := fun w => (mkPacket 0 0, w);
  av_frame_alloc := fun w => let '(p, w') := fresh w in (p, mkFrame 0 0, w');
  av_read_frame := fun w pkt =>
    match d_packets w with
    | [] => (AVERROR_EOF, mkPacket 0 0, w)
    | p :: rest => (0, p, with_packets rest w)
    end;
  avcodec_send_packet := fun w pkt =>
    (0, with_queue (d_queue w ++ [pkt_data pkt mod 4096]) w);
  avcodec_receive_frame := rcv;
  av_samples_alloc := fun w ptr ls ch nb fmt align =>
    let '(p, w') := fresh w in (2 * ch * nb, p, 2 * ch * nb, w');
  swr_convert := fun w out out_count frm in_count =>
    (if d_short w then 0 else Z.max 0 (Z.min out_count in_count), w);
  load := fun w addr => x2a;
  fopen := fun w name => fresh w;
  av_malloc := fun w size => fresh w;
  avio_alloc_context := fun w buf size file => fresh w;
  avformat_alloc_context := fresh;
  avformat_open_input := fun w ctx pb => (0, ctx, w);
  avformat_find_stream_info := fun w ctx => (0, w);
  streams := strs;
  avcodec_find_decoder := fun w id => fresh w;
  avcodec_alloc_context3 := fun w codec => fresh w;
  avcodec_parameters_to_context := fun w ctx par => (0, w);
  avcodec_open2 := fun w ctx codec => (0, w);
  swr_alloc_set_opts := fun w ol of_ or_ il if_ ir => fresh w;
  swr_init := fun w ctx => (d_swr_init w, w);
  teardown := fun w c ptr => (nullptr, w)
|}.

#[global] Instance lib : Libav world := lib_gen receive listed.
Definition starved : Libav world := lib_gen starved_receive listed.
Definition mute : Libav world := lib_gen receive video_only.

(** Three packets of one audio stream: frames of 3, 3 and 2 samples. *)
Definition song : world :=
  mk [audio] [mkPacket 0 3; mkPacket 0 3; mkPacket 0 2] [] 0 false 4096.

(** The same with a resampler that reports no output. *)
Definition song_short : world :=
  mk [audio] [mkPacket 0 3; mkPacket 0 3; mkPacket 0 2] [] 0 true 4096.

(** A video stream 0 and an audio stream 1, a packet of each. *)
Definition movie : world :=
  mk [video; audio] [mkPacket 0 3; mkPacket 1 2] [] 0 false 4096.

(** The song, with a resampler whose swr_init fails with AVERROR(EINVAL). *)
Definition song_bad_init : world :=
  mk [audio] [mkPacket 0 3; mkPacket 0 3; mkPacket 0 2] [] (-22) false 4096.

End Demo.

(** ** A reference byte source: stdio over a byte string, as the C
    standard describes feof, fread and fseek. *)
Module Stdio.

Record file : Type := mk {
  contents : list byte;
  position : Z;
  at_eof : bool
}.

Definition size (f : file) : Z := Z.of_nat (length (contents f)).

Definition feof (f : file) : Z := if at_eof f then 1 else 0.

Definition fread (f : file) (n : Z) : Z * list byte * file :=
  let k := Z.min (Z.max 0 n) (Z.max 0 (size f - position f)) in
  (k, firstn (Z.to_nat k) (skipn (Z.to_nat (position f)) (contents f)),
   mk (contents f) (position f + k) (k <? n)).

(** SEEK_SET = 0, SEEK_CUR = 1, SEEK_END = 2. *)
Definition fseek (f : file) (offset : Z) (origin : Z) : Z * file :=
  let base :=
    if origin =? 0 then Some 0
    else if origin =? 1 then Some (position f)
    else if origin =? 2 then Some (size f)
    else None in
  match base with
  | Some b => if b + offset <? 0 then (-1, f) else (0, mk (contents f) (b + offset) false)
  | None => (-1, f)
  end.

Definition abc : file := mk [x61; x62; x63] 1 false.

End Stdio.

(** ** Reading traces

    A monitor is a state machine fed with the events of a run in order; it
    refuses ([None]) the first event that breaks the discipline it watches. *)
Section Monitor.

Context {Q : Type}.
Variable step : Q -> event -> option Q.

Fixpoint run (q : Q) (tr : list event) : option Q :=
  match tr with
  | [] => Some q
  | e :: rest =>
      match step q e with
      | Some q' => run q' rest
      | None => None
      end
  end.

End Monitor.

(** Bytes of one sample over all output channels. *)
Definition bytes_per_sample : Z := target_sample_width * target_channels.

Definition total (l : list Z) : Z := fold_right Z.add 0 l.

(** Sample counts of the frames avcodec_receive_frame handed over. *)
Definition frames_received (tr : list event) : list Z :=
  flat_map (fun e => match e with
                     | EvReceiveFrame r f => if 0 <=? r then [nb_samples f] else []
                     | _ => []
                     end) tr.

(** The bytes of one line of [size_of nb_samples] bytes for each frame
    handed over. *)
Definition lines_received (size_of : Z -> Z) (tr : list event) : Z :=
  total (map size_of (frames_received tr)).

(** The chunks appended to the output buffer, oldest first. *)
Definition appended (tr : list event) : list (list byte) :=
  flat_map (fun e => match e with EvAppend b => [b] | _ => [] end) tr.

(** Scratch pointers obtained from successful allocations, and released. *)
Definition allocated (tr : list event) : list Z :=
  flat_map (fun e => match e with
                     | EvSamplesAlloc _ _ r p _ => if 0 <=? r then [p] else []
                     | _ => []
                     end) tr.
Definition released (tr : list event) : list Z :=
  flat_map (fun e => match e with EvFree p => [p] | _ => [] end) tr.

(** "Released exactly once per allocation". *)
Definition released_exactly_once (tr : list event) : Prop :=
  forall p, In p (allocated tr) -> count_occ Z.eq_dec (released tr) p = 1%nat.

(** *** Scratch size

    [(ls, nb)] are the line size and the sample count of the most recent
    av_samples_alloc call (0 before the first); every append must be of
    [expected ls nb] bytes, as a size_t.  The result of swr_convert is not
    looked at. *)
Definition append_step (expected : Z -> Z -> Z) (q : Z * Z) (e : event) : option (Z * Z) :=
  match e with
  | EvSamplesAlloc _ nb _ _ ls => Some (ls, nb)
  | EvAppend bytes =>
      if Nat.eqb (length bytes) (Z.to_nat (to_size_t (expected (fst q) (snd q))))
      then Some q else None
  | _ => Some q
  end.

(** *** Reallocation

    [(last, pending)]: the last sample count seen, and the sample count of
    a frame that has just left the retry loop.  With no frame pending an
    allocation is refused.  With a frame of [nb] samples pending, the next
    event must be the allocation for [nb] samples if [nb] differs from
    [last], and must not be an allocation if it does not. *)
Definition idle_step (last : Z) (e : event) : option (Z * option Z) :=
  match e with
  | EvReceiveFrame r f =>
      if r =? AVERROR EAGAIN then Some (last, None) else Some (last, Some (nb_samples f))
  | EvSamplesAlloc _ _ _ _ _ => None
  | _ => Some (last, None)
  end.

Definition realloc_step (q : Z * option Z) (e : event) : option (Z * option Z) :=
  match snd q with
  | None => idle_step (fst q) e
  | Some nb =>
      if nb =? fst q then idle_step (fst q) e
      else match e with
           | EvSamplesAlloc _ n _ _ _ => if n =? nb then Some (nb, None) else None
           | _ => None
           end
  end.

(** *** Feeding the decoder

    "Only packets of the selected stream are sent". *)
Definition only_selected_stream (selected : Z) (tr : list event) : Prop :=
  Forall (fun e => match e with
                   | EvSendPacket p _ => stream_index p = selected
                   | _ => True
                   end) tr.

Definition packet_eqb (p p' : AVPacket) : bool :=
  (stream_index p =? stream_index p') && (pkt_data p =? pkt_data p').

(** A read must be followed by a send unless it failed fatally or, past
    the first read, reported the end of the stream. *)
Definition must_send (first : bool) (r : Z) : bool :=
  negb (unhandable r) && (first || negb (r =? AVERROR_EOF)).

Definition unread_step (first : bool) (e : event) : option (bool * option (Z * AVPacket)) :=
  match e with
  | EvReadFrame r p => Some (first, Some (r, p))
  | EvSendPacket _ _ => None
  | _ => Some (first, None)
  end.

(** [(first, pending)]: whether the first read is still to come, and the
    result and packet of a read that has just returned.  A send is only
    accepted right after a read that must be followed by one, and it must
    send the very packet read. *)
Definition send_step (q : bool * option (Z * AVPacket)) (e : event)
    : option (bool * option (Z * AVPacket)) :=
  match snd q with
  | None => unread_step (fst q) e
  | Some (r, p) =>
      if must_send (fst q) r then
        match e with
        | EvSendPacket p' _ => if packet_eqb p' p then Some (false, None) else None
        | _ => None
        end
      else unread_step false e
  end.

(** *** Aborting

    The return code an event carries, for every call that returns one. *)
Definition step_result (e : event) : option Z :=
  match e with
  | EvReadFrame r _ | EvSendPacket _ r | EvReceiveFrame r _
  | EvSamplesAlloc _ _ r _ _ | EvConvert _ _ r => Some r
  | EvSetup c r =>
      match c with
      | c_avformat_open_input | c_avformat_find_stream_info
      | c_avcodec_parameters_to_context | c_avcodec_open2 | c_swr_init => Some r
      | _ => None
      end
  | _ => None
  end.

(** The same, for the calls whose code is handed to [format_av_error]
    before anything else happens. *)
Definition checked_result (e : event) : option Z :=
  match e with
  | EvReadFrame r _ | EvSendPacket _ r
  | EvSamplesAlloc _ _ r _ _ | EvConvert _ _ r => Some r
  | EvSetup c r =>
      match c with
      | c_avformat_open_input | c_avformat_find_stream_info | c_avcodec_open2 => Some r
      | _ => None
      end
  | _ => None
  end.

Inductive abort_state : Type :=
| Running
| Reporting (ret : Z)
| Aborted (code : Z).

(** After a watched call returned an unhandable code the next event must
    be its diagnostic, and after a diagnostic there is no further event. *)
Definition abort_step (watched : event -> option Z) (q : abort_state) (e : event)
    : option abort_state :=
  match q with
  | Aborted _ => None
  | Reporting r =>
      match e with
      | EvStderr (DiagCode r') => if r' =? r then Some (Aborted r) else None
      | _ => None
      end
  | Running =>
      match e with
      | EvStderr (DiagCode r) => Some (Aborted r)
      | EvStderr (DiagMsg _) => Some (Aborted (-1))
      | _ =>
          match watched e with
          | Some r => if unhandable r then Some (Reporting r) else Some Running
          | None => Some Running
          end
      end
  end.

(** "Every error a step returns aborts the pipeline at once, with that
    code": the monitor watching [watched] accepts the run and ends where
    the result says. *)
Definition aborts_at_once (watched : event -> option Z) (tr : list event)
    (exit_code : option Z) : Prop :=
  run (abort_step watched) Running tr =
  Some (match exit_code with Some c => Aborted c | None => Running end).

(** *** Reporting

    [(info, diag)]: the result of avformat_find_stream_info once it has
    been called, and the diagnostic printed by the last event, if the last
    event printed one. *)
Definition report_step (q : option Z * option diag) (e : event)
    : option (option Z * option diag) :=
  match e with
  | EvSetup c_avformat_find_stream_info r => Some (Some r, None)
  | EvStderr d => Some (fst q, Some d)
  | _ => Some (fst q, None)
  end.

Definition no_audio_message : string := "FFMPEG could not find any audio stream!".

(** ** Reasoning about runs *)
Section Logic.

Context {World : Type} {L : Libav World}.

(** The events a computation started in [s] added to the trace. *)
Definition emitted {A} (s : State World) (r : result World A) : list event :=
  skipn (length (trace s)) (trace (final r)).

(** The exit code of a result that is a call of exit. *)
Definition exit_code {A} (r : result World A) : option Z :=
  match r with Exit c _ => Some c | _ => None end.

(** How a computation can stop short. *)
Inductive stop : Type :=
| StopExit (code : Z)
| StopCrash
| StopFuel.

(** [post Q E r]: [Q] holds if [r] went on, [E] if it stopped short. *)
Definition post {A} (Q : A -> State World -> Prop) (E : stop -> State World -> Prop)
    (r : result World A) : Prop :=
  match r with
  | Ok a s => Q a s
  | Exit c s => E (StopExit c) s
  | Crash s => E StopCrash s
  | Fuel s => E StopFuel s
  end.

(** [I] holds wherever [m] stops, if it held where [m] started. *)
Definition preserved {A} (I : State World -> Prop) (m : M World A) : Prop :=
  forall s, I s -> post (fun _ => I) (fun _ => I) (m s).

(** [tracks step q0 tr0 q s]: since the trace was [tr0], the monitor has
    accepted everything and is in state [q]. *)
Definition tracks {Q} (step : Q -> event -> option Q) (q0 : Q) (tr0 : list event)
    (q : Q) (s : State World) : Prop :=
  exists d, trace s = tr0 ++ d /\ run step q0 d = Some q.

Variable tr0 : list event.

(** Scratch size: the monitor is content and expects the current line size. *)
Definition line_size_inv (expected : Z -> Z -> Z) (s : State World) : Prop :=
  exists q, tracks (append_step expected) (0, 0) tr0 q s /\
            expected (fst q) (snd q) = line_size s.

(** Whole samples: the buffer is what was appended, in order, and it and
    the line size are multiples of [bytes_per_sample]. *)
Definition whole_samples (s : State World) : Prop :=
  (bytes_per_sample | line_size s) /\
  (bytes_per_sample | Z.of_nat (length (buffer s))) /\
  exists d, trace s = tr0 ++ d /\ buffer s = concat (appended d).

(** Nothing was released. *)
Definition never_released (s : State World) : Prop :=
  exists d, trace s = tr0 ++ d /\ released d = [].

(** Line accounting: the bytes in the buffer, and the [pending] bytes of
    a frame received but not yet appended, make up one line of
    [size_of nb_samples] bytes for each frame received; the line size is
    that of the last sample count. *)
Definition balanced (size_of : Z -> Z) (pending : Z) (s : State World) : Prop :=
  exists d, trace s = tr0 ++ d /\
    Z.of_nat (length (buffer s)) + pending = lines_received size_of d /\
    line_size s = size_of (last_nb_samples s) /\
    0 <= line_size s < 2 ^ 31 /\
    0 <= last_nb_samples s.

Definition stop_balanced (size_of : Z -> Z) (c : stop) (s : State World) : Prop :=
  match c with StopFuel => balanced size_of 0 s | _ => True end.

Definition balanced_after_retry (size_of : Z -> Z) (s : State World) : Prop :=
  if is_eof s then balanced size_of 0 s
  else balanced size_of (size_of (nb_samples (frame_obj s))) s /\
       0 <= nb_samples (frame_obj s).

(** Reallocation. *)
Definition realloc_at (q : Z * option Z) (s : State World) : Prop :=
  tracks realloc_step (0, None) tr0 q s.

Definition realloc_idle (s : State World) : Prop :=
  realloc_at (last_nb_samples s, None) s.

Definition realloc_stop (c : stop) (s : State World) : Prop :=
  match c with
  | StopCrash => exists q, realloc_at q s
  | _ => realloc_idle s
  end.

Definition realloc_after_retry (s : State World) : Prop :=
  if is_eof s then realloc_idle s
  else realloc_at (last_nb_samples s, Some (nb_samples (frame_obj s))) s.

(** Feeding the decoder. *)
Definition settled (q : bool * option (Z * AVPacket)) : Prop :=
  match snd q with
  | None => True
  | Some (r, _) => must_send (fst q) r = false
  end.

Definition fed (s : State World) : Prop :=
  tracks send_step (true, None) tr0 (false, None) s.

Definition fed_done (s : State World) : Prop :=
  exists q, tracks send_step (true, None) tr0 q s /\ settled q.

Definition fed_after_retry (s : State World) : Prop :=
  if is_eof s then fed_done s else fed s.

(** Aborting. *)
Definition abort_running (s : State World) : Prop :=
  tracks (abort_step checked_result) Running tr0 Running s.

Definition abort_stop (c : stop) (s : State World) : Prop :=
  match c with
  | StopExit code =>
      tracks (abort_step checked_result) Running tr0 (Aborted code) s /\
      unhandable code = true
  | _ => abort_running s
  end.

(** Reporting: an exit prints a diagnostic last, and it is the missing-audio
    one, with exit code -1, if the stream information was found. *)
Definition reported_exit (code : Z) (q : option Z * option diag) : Prop :=
  exists d, snd q = Some d /\
    (forall r0, fst q = Some r0 -> unhandable r0 = false ->
       code = -1 /\ d = DiagMsg no_audio_message).

Definition report_searching (s : State World) : Prop :=
  exists q, tracks report_step (None, None) tr0 q s /\ fst q = None.

Definition report_stop (c : stop) (s : State World) : Prop :=
  match c with
  | StopExit code =>
      exists q, tracks report_step (None, None) tr0 q s /\ reported_exit code q
  | StopCrash => True
  | StopFuel => False
  end.

(** Fuel enough for a retry loop entered in [s]: one turn per packet left,
    and one more if the first turn does not read. *)
Definition fuel_covers (remaining : World -> nat) (fuel : nat) (s : State World) : Prop :=
  if error_result s =? AVERROR EAGAIN
  then (remaining (world s) < fuel)%nat
  else (remaining (world s) + 1 < fuel)%nat.

(** The only way to stop short is a fatal exit. *)
Definition fatal_stop (c : stop) (s : State World) : Prop :=
  exists code, c = StopExit code /\ unhandable code = true.

End Logic.

Arguments AVERROR : simpl never.
Arguments EAGAIN : simpl never.
Arguments AVERROR_EOF : simpl never.
Arguments unhandable : simpl never.
Arguments to_size_t : simpl never.

(** ** What is asked of the library

    The behaviour of libav is not part of Main.cpp; where a property of
    the pump rests on it, it is one of these contracts. *)
Section Contracts.

Context {World : Type} (L : Libav World).

(** avcodec_receive_frame hands over a frame with a sample count that fits
    an int, or asks for more input. *)
Definition decoder_yields_frames : Prop :=
  forall w f r f' w',
    avcodec_receive_frame w f = (r, f', w') ->
    r = AVERROR EAGAIN \/ (0 <= r /\ 0 <= nb_samples f' < 2 ^ 31).

(** The allocation of lines 99-106 as it is made (one channel,
    TARGET_RESAMPLING_FORMAT, align = 0) fails with an unhandable code, or
    sets the line size to [size_of nb_samples], an int that is not
    negative.  Which size that is for a sample count is the allocator's
    business: the pump computes none. *)
Definition allocator_reports (size_of : Z -> Z) : Prop :=
  forall w p ls nb r p' ls' w',
    av_samples_alloc w p ls target_channels nb TARGET_RESAMPLING_FORMAT 0
      = (r, p', ls', w') ->
    0 <= nb ->
    (0 <= r /\ ls' = size_of nb /\ 0 <= ls' < 2 ^ 31) \/ unhandable r = true.

(** av_samples_alloc leaves a line size of whole samples one of whole
    samples. *)
Definition allocator_keeps_alignment : Prop :=
  forall w p ls nb r p' ls' w',
    av_samples_alloc w p ls target_channels nb TARGET_RESAMPLING_FORMAT 0
      = (r, p', ls', w') ->
    (bytes_per_sample | ls) -> (bytes_per_sample | ls').

(** swr_convert reports a sample count or an error of its own, never the
    decoder's two signals. *)
Definition resampler_reports_counts : Prop :=
  forall w p n f m r w',
    swr_convert w p n f m = (r, w') -> r <> AVERROR EAGAIN /\ r <> AVERROR_EOF.

(** The container is finite: [remaining] bounds the reads that can still
    deliver a packet; no call of the pump raises it, and a read lowers it
    unless it reports the end of the stream or fails. *)
Definition container_drains (remaining : World -> nat) : Prop :=
  (forall w p w', av_packet_alloc w = (p, w') -> (remaining w' <= remaining w)%nat) /\
  (forall w ptr f w', av_frame_alloc w = (ptr, f, w') -> (remaining w' <= remaining w)%nat) /\
  (forall w p r p' w',
     av_read_frame w p = (r, p', w') ->
     (remaining w' <= remaining w)%nat /\
     (r = AVERROR_EOF \/ unhandable r = true \/ (remaining w' < remaining w)%nat)) /\
  (forall w p r w', avcodec_send_packet w p = (r, w') -> (remaining w' <= remaining w)%nat) /\
  (forall w f r f' w',
     avcodec_receive_frame w f = (r, f', w') -> (remaining w' <= remaining w)%nat).

(** The synthetic decoder that always reports need-more-input. *)
Definition decoder_starved : Prop :=
  forall w f r f' w', avcodec_receive_frame w f = (r, f', w') -> r = AVERROR EAGAIN.

(** No stream the container lists is an audio stream. *)
Definition no_audio_stream : Prop :=
  forall w ctx st par,
    In st (streams w ctx) -> codecpar st = Some par ->
    codec_type par <> AVMEDIA_TYPE_AUDIO.

(** The setup gets as far as the stream search: the I/O context and the
    format context are allocated, the input opens and keeps its context,
    the stream information is found, and every stream listed has codec
    parameters. *)
Definition setup_reaches_search : Prop :=
  (forall w buf size file r w', avio_alloc_context w buf size file = (r, w') -> r <> nullptr) /\
  (forall w r w', avformat_alloc_context w = (r, w') -> r <> nullptr) /\
  (forall w ctx pb r ctx' w',
     avformat_open_input w ctx pb = (r, ctx', w') -> ctx <> nullptr ->
     unhandable r = false /\ ctx' <> nullptr) /\
  (forall w ctx r w', avformat_find_stream_info w ctx = (r, w') -> unhandable r = false) /\
  (forall w ctx st, In st (streams w ctx) -> codecpar st <> None).

End Contracts.

(** ** Further parts of Main.cpp *)

(** The format tag [main] picks for alBufferData (lines 301-309):
    AL_FORMAT_MONO16 = 0x1101, AL_FORMAT_STEREO16 = 0x1103, and [format]
    stays at its initial 0 for any other channel count. *)
Definition AL_FORMAT_MONO16 : Z := 4353.
Definition AL_FORMAT_STEREO16 : Z := 4355.

Definition al_format (channels : Z) : Z :=
  if 1 <? channels then AL_FORMAT_STEREO16
  else if channels =? 1 then AL_FORMAT_MONO16
  else 0.

(** [sleep] (lines 255-268): a busy wait on the system clock.  [now] reads
    the clock, in ticks of which there are [ticks_per_ms] to the
    millisecond (the clock's period is taken to divide a millisecond);
    duration_cast to milliseconds truncates toward zero.  The readings made
    in the loop are returned next to the clock. *)
Section Sleep.

Variable Clock : Type.
Variable now : Clock -> Z * Clock.
Variable ticks_per_ms : Z.

Definition elapsed_ms (start_time current_time : Z) : Z :=
  Z.quot (current_time - start_time) ticks_per_ms.

Fixpoint sleep_loop (fuel : nat) (msecs start_time : Z) (c : Clock)
    : option (list Z * Clock) :=
  match fuel with
  | O => None
  | S fuel' =>
      let '(current_time, c') := now c in
      if msecs <? elapsed_ms start_time current_time
      then Some ([current_time], c')
      else
        match sleep_loop fuel' msecs start_time c' with
        | Some (readings, c'') => Some (current_time :: readings, c'')
        | None => None
        end
  end.

Definition sleep (fuel : nat) (msecs : Z) (c : Clock) : option (Z * list Z * Clock) :=
  let '(start_time, c') := now c in
  match sleep_loop fuel msecs start_time c' with
  | Some (readings, c'') => Some (start_time, readings, c'')
  | None => None
  end.

End Sleep.

(** ** main (lines 270-340)

    OpenAL is external, like libav: an oracle per function over the world.
    A function that writes through a pointer returns what it wrote, and is
    given what the variable held: alGenBuffers and alGenSources the one
    name, alGetSourcei the value of the parameter.  alcGetString returns
    [None] for a null pointer.  The clock is std::chrono::system_clock. *)
Class OpenAL (World : Type) : Type := {
  alcOpenDevice : World -> Z -> Z * World;
  alcCreateContext : World -> Z -> Z -> Z * World;
  alcGetString : World -> Z -> Z -> option string * World;
  alcMakeContextCurrent : World -> Z -> Z * World;
  alcGetCurrentContext : World -> Z * World;
  alcDestroyContext : World -> Z -> World;
  alcCloseDevice : World -> Z -> Z * World;
  alGenBuffers : World -> Z -> Z -> Z * World;
  alBufferData : World -> Z -> Z -> list byte -> Z -> Z -> World;
  alDeleteBuffers : World -> Z -> Z -> World;
  alGenSources : World -> Z -> Z -> Z * World;
  alSourcei : World -> Z -> Z -> Z -> World;
  alSourcePlay : World -> Z -> World;
  alGetSourcei : World -> Z -> Z -> Z -> Z * World;
  alSourceStop : World -> Z -> World;
  alDeleteSources : World -> Z -> Z -> World;
  system_clock_now : World -> Z * World;
  system_clock_ticks_per_ms : positive
}.

(** AL/al.h and AL/alc.h. *)
Definition AL_BUFFER : Z := 4105.
Definition AL_SOURCE_STATE : Z := 4112.
Definition AL_PLAYING : Z := 4114.
Definition ALC_DEVICE_SPECIFIER : Z := 4101.

Inductive al_call : Type :=
| a_alcOpenDevice | a_alcCreateContext | a_alcGetString | a_alcMakeContextCurrent
| a_alcGetCurrentContext | a_alcDestroyContext | a_alcCloseDevice
| a_alGenBuffers | a_alDeleteBuffers | a_alGenSources | a_alSourcei | a_alSourcePlay
| a_alGetSourcei | a_alSourceStop | a_alDeleteSources.

(** What main does, as seen from outside: a call of OpenAL with its integer
    arguments and what it returned or wrote (0 for a void function), the
    call of alBufferData, a line on stdout, a completed sleep with the clock
    readings it made, and the run of read_audio_into_buffer with its own
    trace. *)
Inductive al_event : Type :=
| AlCall (c : al_call) (args : list Z) (ret : Z)
| AlBufferData (buffer format : Z) (data : list byte) (size freq : Z)
| AlStdout (msg : string)
| AlSleep (msecs start_time : Z) (readings : list Z)
| AlDecode (tr : list event).

Section Main.

Context {World : Type} {L : Libav World} {AL : OpenAL World}.

Record Host : Type := mkHost {
  h_world : World;
  h_trace : list al_event
}.

(** [Went]: the computation went on, or, for main, returned; [Stopped]: it
    stopped short, as a [result] does. *)
Inductive outcome (A : Type) : Type :=
| Went (a : A) (h : Host)
| Stopped (c : stop) (h : Host).
Arguments Went {A} a h.
Arguments Stopped {A} c h.

Definition Prog (A : Type) : Type := Host -> outcome A.

Definition p_pure {A} (a : A) : Prog A := fun h => Went a h.
Definition p_bind {A B} (m : Prog A) (k : A -> Prog B) : Prog B :=
  fun h => match m h with
           | Went a h' => k a h'
           | Stopped c h' => Stopped c h'
           end.
Definition p_stop {A} (c : stop) : Prog A := fun h => Stopped c h.

Notation "x <- m ;; k" := (p_bind m (fun x => k))
  (at level 61, m at next level, right associativity).
Notation "m ;; k" := (p_bind m (fun _ => k))
  (at level 61, right associativity).

Definition al_emit (e : al_event) (w : World) (h : Host) : Host :=
  mkHost w (h_trace h ++ [e]).

Definition al_do (c : al_call) (args : list Z) (f : World -> Z * World) : Prog Z := fun h =>
  let '(r, w) := f (h_world h) in
  Went r (al_emit (AlCall c args r) w h).

Definition al_void (c : al_call) (args : list Z) (f : World -> World) : Prog unit := fun h =>
  Went tt (al_emit (AlCall c args 0) (f (h_world h)) h).

Definition cout (msg : string) : Prog unit := fun h =>
  Went tt (al_emit (AlStdout msg) (h_world h) h).

(** std::cout << alcGetString(...): inserting a null pointer is undefined.
    The event records whether a string came back (1) or not (nullptr). *)
Definition do_alcGetString (device param : Z) : Prog string := fun h =>
  let '(str, w) := alcGetString (h_world h) device param in
  let h' := al_emit (AlCall a_alcGetString [device; param]
                       (match str with Some _ => 1 | None => nullptr end)) w h in
  match str with
  | Some name => Went name h'
  | None => Stopped StopCrash h'
  end.

Definition do_alBufferData (buffer format : Z) (data : list byte) (size freq : Z)
    : Prog unit := fun h =>
  Went tt (al_emit (AlBufferData buffer format data size freq)
             (alBufferData (h_world h) buffer format data size freq) h).

Definition do_sleep (fuel : nat) (msecs : Z) : Prog unit := fun h =>
  match sleep World system_clock_now (Z.pos system_clock_ticks_per_ms) fuel msecs
          (h_world h) with
  | Some (start_time, readings, w) => Went tt (al_emit (AlSleep msecs start_time readings) w h)
  | None => Stopped StopFuel h
  end.

Definition do_read_audio_into_buffer (fuel : nat) (filename : string) : Prog SoundData :=
  fun h =>
  let r := read_audio_into_buffer fuel filename (boot (h_world h)) in
  let h' := al_emit (AlDecode (trace (final r))) (world (final r)) h in
  match r with
  | Ok sound_data _ => Went sound_data h'
  | Exit code _ => Stopped (StopExit code) h'
  | Crash _ => Stopped StopCrash h'
  | Fuel _ => Stopped StopFuel h'
  end.

(** The do-while of lines 320-324.  [fuel] bounds its turns and the
    readings of each sleep. *)
Fixpoint poll_loop (fuel : nat) (al_source state : Z) : Prog Z :=
  match fuel with
  | O => p_stop StopFuel
  | S fuel' =>
      do_sleep fuel 1000 ;;
      state <- al_do a_alGetSourcei [al_source; AL_SOURCE_STATE]
                 (fun w => alGetSourcei w al_source AL_SOURCE_STATE state) ;;
      if state =? AL_PLAYING then poll_loop fuel' al_source state else p_pure state
  end.

(** Lines 297-339: main with a device and a current context. *)
Definition play (fuel : nat) (pDevice : Z) : Prog Z :=
  sound_data <- do_read_audio_into_buffer fuel "test.ogg" ;;
  al_buffer <- al_do a_alGenBuffers [1] (fun w => alGenBuffers w 1 0) ;;
  let format := al_format (sd_channels sound_data) in
  do_alBufferData al_buffer format (sd_buffer sound_data)
    (to_int (Z.of_nat (length (sd_buffer sound_data)))) (sd_sample_rate sound_data) ;;
  al_source <- al_do a_alGenSources [1] (fun w => alGenSources w 1 0) ;;
  al_void a_alSourcei [al_source; AL_BUFFER; to_int al_buffer]
    (fun w => alSourcei w al_source AL_BUFFER (to_int al_buffer)) ;;
  al_void a_alSourcePlay [al_source] (fun w => alSourcePlay w al_source) ;;
  cout "Playing source..." ;;
  poll_loop fuel al_source 0 ;;
  cout "Done!" ;;
  al_void a_alSourceStop [al_source] (fun w => alSourceStop w al_source) ;;
  al_void a_alDeleteSources [1; al_source] (fun w => alDeleteSources w 1 al_source) ;;
  al_void a_alDeleteBuffers [1; al_buffer] (fun w => alDeleteBuffers w 1 al_buffer) ;;
  pContext <- al_do a_alcGetCurrentContext [] alcGetCurrentContext ;;
  al_do a_alcMakeContextCurrent [nullptr] (fun w => alcMakeContextCurrent w nullptr) ;;
  al_void a_alcDestroyContext [pContext] (fun w => alcDestroyContext w pContext) ;;
  al_do a_alcCloseDevice [pDevice] (fun w => alcCloseDevice w pDevice) ;;
  p_pure 0.

(** main: what it yields is its return value; the two early returns of
    lines 288 and 294 are the [else] branches. *)
Definition main (fuel : nat) : Prog Z :=
  pDevice <- al_do a_alcOpenDevice [nullptr] (fun w => alcOpenDevice w nullptr) ;;
  if negb (pDevice =? nullptr) then
    pContext <- al_do a_alcCreateContext [pDevice; nullptr]
                  (fun w => alcCreateContext w pDevice nullptr) ;;
    if negb (pContext =? nullptr) then
      name <- do_alcGetString pDevice ALC_DEVICE_SPECIFIER ;;
      cout ("OpenAL device opened: " ++ name) ;;
      al_do a_alcMakeContextCurrent [pContext] (fun w => alcMakeContextCurrent w pContext) ;;
      play fuel pDevice
    else
      cout "Cannot create OpenAL context! Exit..." ;;
      al_do a_alcCloseDevice [pDevice] (fun w => alcCloseDevice w pDevice) ;;
      p_pure 1
  else
    cout "Cannot create OpenAL device! Exit..." ;;
    p_pure 1.

(** Where a run ended, and the events a run started in [h] added. *)
Definition host_of {A} (r : outcome A) : Host :=
  match r with Went _ h | Stopped _ h => h end.

Definition heard {A} (h : Host) (r : outcome A) : list al_event :=
  skipn (length (h_trace h)) (h_trace (host_of r)).

(** [went Q E r]: [Q] holds if [r] went on, [E] if it stopped short. *)
Definition went {A} (Q : A -> Host -> Prop) (E : stop -> Host -> Prop) (r : outcome A)
    : Prop :=
  match r with
  | Went a h => Q a h
  | Stopped c h => E c h
  end.

End Main.

Arguments Host World : clear implicits.
Arguments outcome World A : clear implicits.
Arguments Prog World A : clear implicits.
Arguments Went {World A} a h.
Arguments Stopped {World A} c h.

(** The calls that give something back to OpenAL. *)
Definition is_release (c : al_call) : bool :=
  match c with
  | a_alDeleteSources | a_alDeleteBuffers | a_alcDestroyContext | a_alcCloseDevice => true
  | _ => false
  end.

Definition al_releases (tr : list al_event) : list al_call :=
  flat_map (fun e => match e with
                     | AlCall c _ _ => if is_release c then [c] else []
                     | _ => []
                     end) tr.

(** The runs of read_audio_into_buffer in a trace. *)
Definition decodes (tr : list al_event) : list (list event) :=
  flat_map (fun e => match e with AlDecode d => [d] | _ => [] end) tr.

(** The polling of lines 320-324: a sleep of 1000 ms, then a query of the
    source state; again while the answer is AL_PLAYING. *)
Inductive poll_state : Type :=
| PollSleep
| PollAsk
| PollOver.

Definition poll_step (q : poll_state) (e : al_event) : option poll_state :=
  match q, e with
  | PollSleep, AlSleep 1000 _ _ => Some PollAsk
  | PollAsk, AlCall a_alGetSourcei _ v =>
      if v =? AL_PLAYING then Some PollSleep else Some PollOver
  | _, _ => None
  end.

(** A sleep that ended more than [msecs] whole milliseconds after it began. *)
Definition slept_enough (ticks_per_ms : Z) (e : al_event) : Prop :=
  match e with
  | AlSleep msecs start_time readings =>
      exists earlier t,
        readings = earlier ++ [t] /\ (msecs + 1) * ticks_per_ms <= t - start_time
  | _ => True
  end.

(** What alBufferData is given: 16-bit mono, with the byte count as its
    size (through the cast to ALsizei); [d] is the one run of the decoder. *)
Definition mono16_of (ds : list (list event)) (e : al_event) : Prop :=
  match e with
  | AlBufferData _ format data size _ =>
      format = AL_FORMAT_MONO16 /\ size = to_int (Z.of_nat (length data)) /\
      exists d, ds = [d] /\ data = concat (appended d)
  | _ => True
  end.

Fixpoint al_run (q : poll_state) (tr : list al_event) : option poll_state :=
  match tr with
  | [] => Some q
  | e :: rest =>
      match poll_step q e with
      | Some q' => al_run q' rest
      | None => None
      end
  end.

(** ** Reading traces, continued *)

Definition is_audio (st : AVStream) : bool :=
  match codecpar st with
  | Some par => codec_type par =? AVMEDIA_TYPE_AUDIO
  | None => false
  end.

(** A stream the search reads and passes over: it has codec parameters,
    of another kind than audio. *)
Definition passed_over (st : AVStream) : Prop :=
  exists par, codecpar st = Some par /\ codec_type par <> AVMEDIA_TYPE_AUDIO.

Definition is_teardown (c : setup_call) : bool :=
  match c with
  | c_avio_context_free | c_fclose | c_swr_close
  | c_avformat_close_input | c_avcodec_free_context | c_avformat_free_context => true
  | _ => false
  end.

(** The teardown calls of a trace, oldest first. *)
Definition teardown_calls (tr : list event) : list setup_call :=
  flat_map (fun e => match e with
                     | EvSetup c _ => if is_teardown c then [c] else []
                     | _ => []
                     end) tr.

(** *** Null pointers

    The message [read_audio_into_buffer] has for a null result of a call,
    for the calls whose result it hands to [format_av_error] at once. *)
Definition null_message (c : setup_call) : option string :=
  match c with
  | c_avio_alloc_context => Some "Cannot allocate FFMPEG I/O context!"%string
  | c_avcodec_find_decoder => Some "FFMPEG could not find target audio codec!"%string
  | c_avcodec_alloc_context3 => Some "FFMPEG could not alloc target audio codec!"%string
  | _ => None
  end.

Definition resampler_message : string :=
  "Something went wrong with FFMPEG allocating audio resample context!".

Definition dead_message : string := "FFMPEG could not find audio stream!".

Inductive null_state : Type :=
| NullFree
| NullInit
| NullReport (msg : string)
| NullEnd.

(** After a watched call returned a null pointer the next event is its
    message, and the last; after swr_alloc_set_opts returned one, swr_init
    is called first.  The messages of these calls are printed at no other
    time.  The [strict] monitor does not accept the message of line 204. *)
Definition null_step (strict : bool) (q : null_state) (e : event) : option null_state :=
  match q with
  | NullEnd => None
  | NullReport msg =>
      match e with
      | EvStderr (DiagMsg m) => if String.eqb m msg then Some NullEnd else None
      | _ => None
      end
  | NullInit =>
      match e with
      | EvSetup c_swr_init _ => Some (NullReport resampler_message)
      | _ => None
      end
  | NullFree =>
      match e with
      | EvStderr (DiagCode _) => Some NullEnd
      | EvStderr (DiagMsg m) =>
          if String.eqb m no_audio_message || (negb strict && String.eqb m dead_message)
          then Some NullEnd else None
      | EvSetup c_swr_alloc_set_opts r =>
          if r =? nullptr then Some NullInit else Some NullFree
      | EvSetup c r =>
          match null_message c with
          | Some msg => if r =? nullptr then Some (NullReport msg) else Some NullFree
          | None => Some NullFree
          end
      | _ => Some NullFree
      end
  end.

(** *** A pump without a frame

    While the decoder asks for more input the pump reads, sends and
    receives; a fatal code is reported and ends the run; after a receive
    that delivers (anything but need-more-input) there is no further
    event. *)
Inductive frameless_state : Type :=
| Waiting
| Delivered
| Reported.

Definition frameless_step (q : frameless_state) (e : event) : option frameless_state :=
  match q with
  | Waiting =>
      match e with
      | EvReadFrame _ _ | EvSendPacket _ _ => Some Waiting
      | EvReceiveFrame r _ => if r =? AVERROR EAGAIN then Some Waiting else Some Delivered
      | EvStderr (DiagCode _) => Some Reported
      | _ => None
      end
  | Delivered | Reported => None
  end.

(** The releases at the end of [read_audio_into_buffer], lines 243-250. *)
Definition teardown_order : list setup_call :=
  [c_avio_context_free; c_fclose; c_swr_close;
   c_avformat_close_input; c_avcodec_free_context; c_avformat_free_context].

(** ** Reasoning about runs, continued *)
Section MoreLogic.

Context {World : Type} (L : Libav World).
Variable tr0 : list event.

(** Since the trace was [tr0] no teardown call was made. *)
Definition held (s : State World) : Prop :=
  exists d, trace s = tr0 ++ d /\ teardown_calls d = [].

(** How the pump can return: a read in the retry loop reported the end of
    the stream, or swr_convert returned one of the two signals; either is
    the last thing the pump did. *)
Definition left_by_break (s : State World) : Prop :=
  (is_eof s = true /\ exists pre p, trace s = pre ++ [EvReadFrame AVERROR_EOF p]) \/
  (exists pre n r, trace s = pre ++ [EvConvert n n r] /\
                   (r = AVERROR EAGAIN \/ r = AVERROR_EOF)).

(** Null pointers: the monitor is content, and has ended exactly in the
    runs that called exit. *)
Definition null_free (strict : bool) (s : State World) : Prop :=
  tracks (null_step strict) NullFree tr0 NullFree s.

Definition null_stop (strict : bool) (c : stop) (s : State World) : Prop :=
  match c with
  | StopExit _ => tracks (null_step strict) NullFree tr0 NullEnd s
  | _ => null_free strict s
  end.

(** Stopping short of a return: by a fatal exit, by dereferencing the
    null frame, or cut. *)
Definition ended_stop (c : stop) (s : State World) : Prop :=
  match c with
  | StopExit code => unhandable code = true
  | StopCrash => frame s = nullptr
  | StopFuel => True
  end.

(** The same, but never cut. *)
Definition progress_stop (c : stop) (s : State World) : Prop :=
  match c with
  | StopExit code => unhandable code = true
  | StopCrash => frame s = nullptr
  | StopFuel => False
  end.

(** Without a frame: there is no frame object, nothing in the buffer, and
    the monitor is waiting. *)
Definition frameless (s : State World) : Prop :=
  frame s = nullptr /\ buffer s = [] /\
  tracks frameless_step Waiting tr0 Waiting s.

Definition frameless_stop (c : stop) (s : State World) : Prop :=
  match c with
  | StopExit code =>
      unhandable code = true /\ tracks frameless_step Waiting tr0 Reported s
  | StopCrash =>
      frame s = nullptr /\ buffer s = [] /\ tracks frameless_step Waiting tr0 Delivered s
  | StopFuel => frameless s
  end.

(** The buffer is what was appended since the trace was [tr0], in order. *)
Definition assembled (s : State World) : Prop :=
  exists d, trace s = tr0 ++ d /\ buffer s = concat (appended d).

(** Where the while loop is entered. *)
Definition at_loop_head (s : State World) : Prop :=
  0 <= error_result s /\ is_eof s = false.

(** The decoder has ended: every receive reports the end of the stream. *)
Definition decoder_ended : Prop :=
  forall w f r f' w', avcodec_receive_frame w f = (r, f', w') -> r = AVERROR_EOF.

(** swr_convert always reports a sample count. *)
Definition resampler_succeeds : Prop :=
  forall w p n f m r w', swr_convert w p n f m = (r, w') -> 0 <= r.

(** av_frame_alloc has no memory left: it returns a null pointer. *)
Definition frames_missing : Prop :=
  forall w ptr f w', av_frame_alloc w = (ptr, f, w') -> ptr = nullptr.

(** The work left: [work] bounds what the pump can still do.  A read that
    delivers a packet lowers it by more than [burst], sending the packet
    raises it by at most [burst] (the frames the packet holds), a receive
    that does not ask for more input lowers it, nothing else raises it. *)
Definition pump_progresses (work : World -> nat) (burst : nat) : Prop :=
  (forall w p w', av_packet_alloc w = (p, w') -> (work w' <= work w)%nat) /\
  (forall w ptr f w', av_frame_alloc w = (ptr, f, w') -> (work w' <= work w)%nat) /\
  (forall w p r p' w',
     av_read_frame w p = (r, p', w') ->
     (work w' <= work w)%nat /\
     (r = AVERROR_EOF \/ unhandable r = true \/ (work w' + burst < work w)%nat)) /\
  (forall w p r w', avcodec_send_packet w p = (r, w') -> (work w' <= work w + burst)%nat) /\
  (forall w f r f' w',
     avcodec_receive_frame w f = (r, f', w') ->
     (work w' <= work w)%nat /\ (r = AVERROR EAGAIN \/ (work w' < work w)%nat)) /\
  (forall w p ls ch nb fmt al r p' ls' w',
     av_samples_alloc w p ls ch nb fmt al = (r, p', ls', w') -> (work w' <= work w)%nat) /\
  (forall w p n f m r w', swr_convert w p n f m = (r, w') -> (work w' <= work w)%nat).

(** The container lists the same streams whenever it is asked. *)
Definition listing_is (strs : list AVStream) : Prop :=
  forall w ctx, streams w ctx = strs.

(** nb_streams fits the int that [video_stream_idx] is. *)
Definition listing_bounded : Prop :=
  forall w ctx, Z.of_nat (length (streams w ctx)) <= 2 ^ 31.

End MoreLogic.

(** ** More reference worlds: the reference world with some of its oracles
    replaced. *)
Module Probe.

Definition lib_with
    (frame_alloc : Demo.world -> Z * AVFrame * Demo.world)
    (rcv : Demo.world -> AVFrame -> Z * AVFrame * Demo.world)
    (strs : Demo.world -> Z -> list AVStream) : Libav Demo.world := {|
  av_packet_alloc := @av_packet_alloc _ Demo.lib;
  av_frame_alloc := frame_alloc;
  av_read_frame := @av_read_frame _ Demo.lib;
  avcodec_send_packet := @avcodec_send_packet _ Demo.lib;
  avcodec_receive_frame := rcv;
  av_samples_alloc := @av_samples_alloc _ Demo.lib;
  swr_convert := @swr_convert _ Demo.lib;
  load := @load _ Demo.lib;
  fopen := @fopen _ Demo.lib;
  av_malloc := @av_malloc _ Demo.lib;
  avio_alloc_context := @avio_alloc_context _ Demo.lib;
  avformat_alloc_context := @avformat_alloc_context _ Demo.lib;
  avformat_open_input := @avformat_open_input _ Demo.lib;
  avformat_find_stream_info := @avformat_find_stream_info _ Demo.lib;
  streams := strs;
  avcodec_find_decoder := @avcodec_find_decoder _ Demo.lib;
  avcodec_alloc_context3 := @avcodec_alloc_context3 _ Demo.lib;
  avcodec_parameters_to_context := @avcodec_parameters_to_context _ Demo.lib;
  avcodec_open2 := @avcodec_open2 _ Demo.lib;
  swr_alloc_set_opts := @swr_alloc_set_opts _ Demo.lib;
  swr_init := @swr_init _ Demo.lib;
  teardown := @teardown _ Demo.lib
|}.

(** A frame object at a fixed, non-null address. *)
Definition one_frame (w : Demo.world) : Z * AVFrame * Demo.world := (64, mkFrame 0 0, w).

(** The reference world with another allocator. *)
Definition with_allocator
    (alloc : Demo.world -> Z -> Z -> Z -> Z -> Z -> Z -> Z * Z * Z * Demo.world)
    : Libav Demo.world := {|
  av_packet_alloc := @av_packet_alloc _ Demo.lib;
  av_frame_alloc := @av_frame_alloc _ Demo.lib;
  av_read_frame := @av_read_frame _ Demo.lib;
  avcodec_send_packet := @avcodec_send_packet _ Demo.lib;
  avcodec_receive_frame := @avcodec_receive_frame _ Demo.lib;
  av_samples_alloc := alloc;
  swr_convert := @swr_convert _ Demo.lib;
  load := @load _ Demo.lib;
  fopen := @fopen _ Demo.lib;
  av_malloc := @av_malloc _ Demo.lib;
  avio_alloc_context := @avio_alloc_context _ Demo.lib;
  avformat_alloc_context := @avformat_alloc_context _ Demo.lib;
  avformat_open_input := @avformat_open_input _ Demo.lib;
  avformat_find_stream_info := @avformat_find_stream_info _ Demo.lib;
  streams := @streams _ Demo.lib;
  avcodec_find_decoder := @avcodec_find_decoder _ Demo.lib;
  avcodec_alloc_context3 := @avcodec_alloc_context3 _ Demo.lib;
  avcodec_parameters_to_context := @avcodec_parameters_to_context _ Demo.lib;
  avcodec_open2 := @avcodec_open2 _ Demo.lib;
  swr_alloc_set_opts := @swr_alloc_set_opts _ Demo.lib;
  swr_init := @swr_init _ Demo.lib;
  teardown := @teardown _ Demo.lib
|}.

(** av_samples_alloc as libavutil documents it, for a packed format of two
    bytes per sample and the alignments 0 and 1: with align = 0 the sample
    count is rounded up to a multiple of 32 before the line is sized; a
    count that is not positive, or a size that does not fit an int, is
    refused with AVERROR(EINVAL), the pointer and the line size left as
    they were. *)
Definition padded_count (nb align : Z) : Z :=
  if align =? 0 then 32 * ((nb + 31) / 32) else nb.

Definition padded_alloc (w : Demo.world) (ptr ls ch nb fmt align : Z)
    : Z * Z * Z * Demo.world :=
  let size := target_sample_width * ch * padded_count nb align in
  if (nb <=? 0) || (2 ^ 31 <=? size) then (AVERROR 22, ptr, ls, w)
  else let '(p, w') := Demo.fresh w in (size, p, size, w').

Definition padded : Libav Demo.world := with_allocator padded_alloc.

(** The line size of that allocator for one channel and align = 0. *)
Definition padded_size (nb : Z) : Z := 2 * (32 * ((nb + 31) / 32)).

(** A container of video streams only, in a world where the two context
    allocations of the setup cannot fail. *)
Definition mute_ready : Libav Demo.world := {|
  av_packet_alloc := @av_packet_alloc _ Demo.mute;
  av_frame_alloc := @av_frame_alloc _ Demo.mute;
  av_read_frame := @av_read_frame _ Demo.mute;
  avcodec_send_packet := @avcodec_send_packet _ Demo.mute;
  avcodec_receive_frame := @avcodec_receive_frame _ Demo.mute;
  av_samples_alloc := @av_samples_alloc _ Demo.mute;
  swr_convert := @swr_convert _ Demo.mute;
  load := @load _ Demo.mute;
  fopen := @fopen _ Demo.mute;
  av_malloc := @av_malloc _ Demo.mute;
  avio_alloc_context := fun w buf size file => (12288, w);
  avformat_alloc_context := fun w => (16384, w);
  avformat_open_input := @avformat_open_input _ Demo.mute;
  avformat_find_stream_info := @avformat_find_stream_info _ Demo.mute;
  streams := @streams _ Demo.mute;
  avcodec_find_decoder := @avcodec_find_decoder _ Demo.mute;
  avcodec_alloc_context3 := @avcodec_alloc_context3 _ Demo.mute;
  avcodec_parameters_to_context := @avcodec_parameters_to_context _ Demo.mute;
  avcodec_open2 := @avcodec_open2 _ Demo.mute;
  swr_alloc_set_opts := @swr_alloc_set_opts _ Demo.mute;
  swr_init := @swr_init _ Demo.mute;
  teardown := @teardown _ Demo.mute
|}.

(** No memory for a frame. *)
Definition no_frame (w : Demo.world) : Z * AVFrame * Demo.world := (nullptr, mkFrame 0 0, w).
Definition frameless_lib : Libav Demo.world := lib_with no_frame Demo.receive Demo.listed.

(** A decoder that has ended. *)
Definition ended_receive (w : Demo.world) (frm : AVFrame) : Z * AVFrame * Demo.world :=
  (AVERROR_EOF, mkFrame 0 0, w).

Definition ended : Libav Demo.world := lib_with one_frame ended_receive Demo.listed.

(** A container that always lists a video stream, then two audio streams
    of different rates. *)
Definition audio_44k : AVStream :=
  mkStream (Some (mkParams AVMEDIA_TYPE_AUDIO 86018 44100 3 8)).
Definition three_streams : list AVStream := [Demo.video; Demo.audio; audio_44k].
Definition fixed : Libav Demo.world :=
  lib_with (@av_frame_alloc _ Demo.lib) Demo.receive (fun _ _ => three_streams).

(** The work left in a reference world: a frame for each queued sample
    count, a packet and its frame for each packet to be read. *)
Definition work (w : Demo.world) : nat :=
  length (Demo.d_queue w) + 2 * length (Demo.d_packets w).

(** A client of the byte source adapter: it asks for [n] bytes at a time
    until the adapter reports the end, and keeps what it was given. *)
Fixpoint read_to_end (fuel : nat) (n : Z) (f : Stdio.file) : option (list byte) :=
  match fuel with
  | O => None
  | S fuel' =>
      let '(r, bytes, f') := ReadCallback Stdio.file Stdio.feof Stdio.fread f n in
      if r =? AVERROR_EOF then Some []
      else
        match read_to_end fuel' n f' with
        | Some rest => Some (bytes ++ rest)
        | None => None
        end
  end.

(** A machine with the reference libav, a sound card and a clock: the
    source plays for [playing] more queries, the clock advances by 400
    ticks per reading, one tick a millisecond. *)
Record stage : Type := mkStage {
  libav : Demo.world;
  clock : Z;
  playing : nat;
  has_device : bool;
  has_context : bool
}.

Definition lift {A} (f : Demo.world -> A * Demo.world) (s : stage) : A * stage :=
  let '(a, w) := f (libav s) in
  (a, mkStage w (clock s) (playing s) (has_device s) (has_context s)).

Definition on_stage_of (base : Libav Demo.world) : Libav stage := {|
  av_packet_alloc := lift (@av_packet_alloc _ base);
  av_frame_alloc := lift (@av_frame_alloc _ base);
  av_read_frame := fun s pkt => lift (fun w => @av_read_frame _ base w pkt) s;
  avcodec_send_packet := fun s pkt => lift (fun w => @avcodec_send_packet _ base w pkt) s;
  avcodec_receive_frame :=
    fun s frm => lift (fun w => @avcodec_receive_frame _ base w frm) s;
  av_samples_alloc :=
    fun s ptr ls ch nb fmt al =>
      lift (fun w => @av_samples_alloc _ base w ptr ls ch nb fmt al) s;
  swr_convert :=
    fun s out oc frm ic => lift (fun w => @swr_convert _ base w out oc frm ic) s;
  load := fun s addr => @load _ base (libav s) addr;
  fopen := fun s name => lift (fun w => @fopen _ base w name) s;
  av_malloc := fun s size => lift (fun w => @av_malloc _ base w size) s;
  avio_alloc_context :=
    fun s buf size file => lift (fun w => @avio_alloc_context _ base w buf size file) s;
  avformat_alloc_context := lift (@avformat_alloc_context _ base);
  avformat_open_input :=
    fun s ctx pb => lift (fun w => @avformat_open_input _ base w ctx pb) s;
  avformat_find_stream_info :=
    fun s ctx => lift (fun w => @avformat_find_stream_info _ base w ctx) s;
  streams := fun s ctx => @streams _ base (libav s) ctx;
  avcodec_find_decoder := fun s id => lift (fun w => @avcodec_find_decoder _ base w id) s;
  avcodec_alloc_context3 :=
    fun s codec => lift (fun w => @avcodec_alloc_context3 _ base w codec) s;
  avcodec_parameters_to_context :=
    fun s ctx par => lift (fun w => @avcodec_parameters_to_context _ base w ctx par) s;
  avcodec_open2 := fun s ctx codec => lift (fun w => @avcodec_open2 _ base w ctx codec) s;
  swr_alloc_set_opts :=
    fun s ol of_ or_ il if_ ir =>
      lift (fun w => @swr_alloc_set_opts _ base w ol of_ or_ il if_ ir) s;
  swr_init := fun s ctx => lift (fun w => @swr_init _ base w ctx) s;
  teardown := fun s c ptr => lift (fun w => @teardown _ base w c ptr) s
|}.

#[global] Instance on_stage : Libav stage := on_stage_of Demo.lib.

(** The same machine with a container that lists only video streams. *)
Definition mute_stage : Libav stage := on_stage_of Demo.mute.

#[global] Instance speaker : OpenAL stage := {|
  alcOpenDevice := fun s name => (if has_device s then 7 else nullptr, s);
  alcCreateContext := fun s device attrs => (if has_context s then 9 else nullptr, s);
  alcGetString := fun s device param => (Some "Probe"%string, s);
  alcMakeContextCurrent := fun s ctx => (1, s);
  alcGetCurrentContext := fun s => (9, s);
  alcDestroyContext := fun s ctx => s;
  alcCloseDevice := fun s device => (1, s);
  alGenBuffers := fun s n old => (1, s);
  alBufferData := fun s buffer format data size freq => s;
  alDeleteBuffers := fun s n name => s;
  alGenSources := fun s n old => (1, s);
  alSourcei := fun s source param value => s;
  alSourcePlay := fun s source => s;
  alGetSourcei := fun s source param old =>
    match playing s with
    | O => (4116, s)
    | S n => (AL_PLAYING, mkStage (libav s) (clock s) n (has_device s) (has_context s))
    end;
  alSourceStop := fun s source => s;
  alDeleteSources := fun s n name => s;
  system_clock_now := fun s =>
    (clock s, mkStage (libav s) (clock s + 400) (playing s) (has_device s) (has_context s));
  system_clock_ticks_per_ms := 1
|}.

(** The song, playing for two polls. *)
Definition concert : stage := mkStage Demo.song 0 2 true true.

(** A clock that advances by 400 ticks per reading, 1 tick a millisecond. *)
Definition tick (c : Z) : Z * Z := (c, c + 400).

End Probe.

(** * Proofs *)

(** ** Constants and conversions *)

Lemma AVERROR_EAGAIN_value : AVERROR EAGAIN = -11.
Proof. reflexivity. Qed.

Lemma AVERROR_EOF_value : AVERROR_EOF = -541478725.
Proof. reflexivity. Qed.

Lemma unhandable_spec ret :
  unhandable ret = true <-> ret < 0 /\ ret <> AVERROR EAGAIN /\ ret <> AVERROR_EOF.
Proof.
  unfold unhandable. rewrite !andb_true_iff, !negb_true_iff, Z.ltb_lt, !Z.eqb_neq. tauto.
Qed.

Lemma to_size_t_small x : 0 <= x < 2 ^ 64 -> Z.of_nat (Z.to_nat (to_size_t x)) = x.
Proof. intros H. unfold to_size_t. rewrite Z.mod_small by lia. apply Z2Nat.id; lia. Qed.

Lemma to_size_t_nonneg x : 0 <= to_size_t x.
Proof. unfold to_size_t. apply Z.mod_pos_bound. lia. Qed.

Lemma total_app l1 l2 : total (l1 ++ l2) = total l1 + total l2.
Proof. induction l1; simpl; lia. Qed.

Lemma frames_received_app d l :
  total (frames_received (d ++ l)) = total (frames_received d) + total (frames_received l).
Proof. unfold frames_received. now rewrite flat_map_app, total_app. Qed.

(** ** Monitors *)
Section MonitorFacts.

Context {Q : Type}.
Variable step : Q -> event -> option Q.

Lemma run_app (q : Q) (tr1 tr2 : list event) :
  run step q (tr1 ++ tr2) =
  match run step q tr1 with Some q' => run step q' tr2 | None => None end.
Proof.
  revert q; induction tr1 as [|e tr1 IH]; intros q; simpl; [reflexivity|].
  destruct (step q e); [apply IH | reflexivity].
Qed.

End MonitorFacts.

(** ** Rules *)
Section Rules.

Context {World : Type} {L : Libav World}.

Lemma post_bind {A B} (m : M World A) (k : A -> M World B) Q E s :
  post (fun a s' => post Q E (k a s')) E (m s) -> post Q E (bind m k s).
Proof. unfold bind. destruct (m s); simpl; auto. Qed.

Lemma post_mono {A} (Q Q' : A -> State World -> Prop) (E E' : stop -> State World -> Prop) r :
  post Q E r -> (forall a s, Q a s -> Q' a s) -> (forall c s, E c s -> E' c s) ->
  post Q' E' r.
Proof. destruct r; simpl; auto. Qed.

Lemma post_final {A} (I : State World -> Prop) (r : result World A) :
  post (fun _ => I) (fun _ => I) r -> I (final r).
Proof. destruct r; simpl; auto. Qed.

Lemma tracks_start {Q} (step : Q -> event -> option Q) q0 (s : State World) :
  tracks step q0 (trace s) q0 s.
Proof. exists []. rewrite app_nil_r. auto. Qed.

Lemma tracks_extend {Q} (step : Q -> event -> option Q) q0 tr0 q q' l (s s' : State World) :
  tracks step q0 tr0 q s -> trace s' = trace s ++ l -> run step q l = Some q' ->
  tracks step q0 tr0 q' s'.
Proof.
  intros [d [Hd Hr]] Ht Hl. exists (d ++ l). rewrite Ht, Hd, <- app_assoc.
  split; [reflexivity|]. rewrite run_app, Hr. exact Hl.
Qed.

Lemma emitted_app {A} (s : State World) (r : result World A) d :
  trace (final r) = trace s ++ d -> emitted s r = d.
Proof.
  intros H. unfold emitted. now rewrite H, skipn_app, skipn_all, Nat.sub_diag.
Qed.

Lemma tracks_emitted {Q A} (step : Q -> event -> option Q) q0 q (s : State World)
    (r : result World A) :
  tracks step q0 (trace s) q (final r) -> run step q0 (emitted s r) = Some q.
Proof. intros [d [Ht Hr]]. now rewrite (emitted_app _ _ _ Ht). Qed.

Lemma post_call c (f : World -> Z * World) Q E (s : State World) :
  (forall r w, f (world s) = (r, w) -> Q r (emit (EvSetup c r) (set_world w s))) ->
  post Q E (call c f s).
Proof. intros H. unfold call. destruct (f (world s)) as [r w] eqn:Hf. apply H. reflexivity. Qed.

Lemma post_teardown c ptr Q E (s : State World) :
  (forall ptr' w, teardown (world s) c ptr = (ptr', w) ->
                  Q ptr' (emit (EvSetup c 0) (set_world w s))) ->
  post Q E (call_teardown c ptr s).
Proof.
  intros H. unfold call_teardown.
  destruct (teardown (world s) c ptr) as [ptr' w] eqn:Hf. apply H. reflexivity.
Qed.

Lemma post_open_input ctx pb Q E (s : State World) :
  (forall r ctx' w,
     avformat_open_input (world s) ctx pb = (r, ctx', w) ->
     Q (r, ctx') (emit (EvSetup c_avformat_open_input r) (set_world w s))) ->
  post Q E (do_avformat_open_input ctx pb s).
Proof.
  intros H. unfold do_avformat_open_input.
  destruct (avformat_open_input (world s) ctx pb) as [[r ctx'] w] eqn:Hf. apply H. reflexivity.
Qed.

Lemma length_read_range (w : World) p n : length (read_range w p n) = n.
Proof. unfold read_range. now rewrite length_map, length_seq. Qed.

End Rules.

(** ** Symbolic execution *)

Ltac st_simpl :=
  cbn [world trace error_result pBufferData line_size last_nb_samples is_eof buffer
       packet frame frame_obj set_world emit set_error_result set_scratch
       set_last_nb_samples set_is_eof set_buffer set_packet set_frame init_locals
       fst snd final] in *.

Ltac wp_step :=
  lazymatch goal with
  | |- post _ _ (bind _ _ _) => apply post_bind
  | |- post _ _ (pure _ _) => cbn [pure post]
  | |- post _ _ (gets _ _) => cbn [gets post]
  | |- post _ _ (modify _ _) => cbn [modify post]
  | |- post _ _ (exit _ _) => cbn [exit post]
  | |- post _ _ (crash _) => cbn [crash post]
  | |- post _ _ (out_of_fuel _) => cbn [out_of_fuel post]
  | |- post _ _ ((if nullptr =? nullptr then _ else _) _) =>
      change (nullptr =? nullptr) with true; cbv iota
  | |- post _ _ ((if ?c then _ else _) _) => destruct c eqn:?
  | |- post _ _ (format_av_error _ _) => unfold format_av_error
  | |- post _ _ (format_av_error_ptr _ _ _) => unfold format_av_error_ptr
  | |- post _ _ (frame_nb_samples ?s) =>
      unfold frame_nb_samples; destruct (frame s =? nullptr) eqn:?; cbn [post]
  | |- post _ _ (do_av_read_frame _) =>
      unfold do_av_read_frame;
      destruct (av_read_frame _ _) as [[? ?] ?] eqn:?; cbn [post]
  | |- post _ _ (do_avcodec_send_packet _) =>
      unfold do_avcodec_send_packet;
      destruct (avcodec_send_packet _ _) as [? ?] eqn:?; cbn [post]
  | |- post _ _ (do_avcodec_receive_frame _) =>
      unfold do_avcodec_receive_frame;
      destruct (avcodec_receive_frame _ _) as [[? ?] ?] eqn:?; cbn [post]
  | |- post _ _ (do_av_samples_alloc _ _) =>
      unfold do_av_samples_alloc;
      destruct (av_samples_alloc _ _ _ _ _ _ _) as [[[? ?] ?] ?] eqn:?; cbn [post]
  | |- post _ _ (do_swr_convert _ _) =>
      unfold do_swr_convert;
      destruct (swr_convert _ _ _ _ _) as [? ?] eqn:?; cbn [post]
  | |- post _ _ (buffer_insert_cend _) => unfold buffer_insert_cend; cbn [post]
  | |- post _ _ (do_av_packet_alloc _) =>
      unfold do_av_packet_alloc; destruct (av_packet_alloc _) as [? ?] eqn:?; cbn [post]
  | |- post _ _ (do_av_frame_alloc _) =>
      unfold do_av_frame_alloc; destruct (av_frame_alloc _) as [[? ?] ?] eqn:?; cbn [post]
  | |- post _ _ (call _ _ _) => apply post_call; intros ? ? ?
  | |- post _ _ (call_teardown _ _ _) => apply post_teardown; intros ? ? ?
  | |- post _ _ (do_avformat_open_input _ _ _) => apply post_open_input; intros ? ? ? ?
  end; st_simpl.

Ltac wp := repeat wp_step.

(** Tests as propositions. *)
Ltac bools :=
  repeat match goal with
  | H : (_ =? _) = true |- _ => apply Z.eqb_eq in H
  | H : (_ =? _) = false |- _ => apply Z.eqb_neq in H
  | H : (_ <? _) = true |- _ => apply Z.ltb_lt in H
  | H : (_ <? _) = false |- _ => apply Z.ltb_ge in H
  | H : (_ <=? _) = true |- _ => apply Z.leb_le in H
  | H : (_ <=? _) = false |- _ => apply Z.leb_gt in H
  | H : (_ && _) = true |- _ => apply andb_true_iff in H; destruct H
  | H : (_ || _) = false |- _ => apply orb_false_iff in H; destruct H
  | H : (_ || _) = true |- _ => apply orb_true_iff in H; destruct H
  | H : (_ && _) = false |- _ => apply andb_false_iff in H; destruct H
  | H : negb _ = true |- _ => apply negb_true_iff in H
  | H : negb _ = false |- _ => apply negb_false_iff in H
  end.

(** Tests kept as booleans, to rewrite a monitor's run with. *)
Ltac norm_tests :=
  repeat match goal with
  | H : negb _ = true |- _ => apply negb_true_iff in H
  | H : negb _ = false |- _ => apply negb_false_iff in H
  | H : (_ && _) = true |- _ => apply andb_true_iff in H; destruct H
  | H : (_ || _) = false |- _ => apply orb_false_iff in H; destruct H
  end.

Ltac use_tests :=
  norm_tests;
  repeat match goal with
  | H : ?c = true |- context [?c] => rewrite H; cbn
  | H : ?c = false |- context [?c] => rewrite H; cbn
  end.

(** From a monitor at [H] to the monitor after what was emitted since. *)
Ltac extends H :=
  eapply tracks_extend;
  [ exact H
  | st_simpl; first [ exact (eq_sym (app_nil_r _)) | rewrite <- ?app_assoc; reflexivity ]
  | cbn; use_tests; rewrite ?Z.eqb_refl; try reflexivity ].

Ltac arith :=
  pose proof AVERROR_EAGAIN_value; pose proof AVERROR_EOF_value;
  unfold bytes_per_sample, target_sample_width, target_channels in *; lia.

(** ** Invariants that hold between any two steps of the pump *)
Section Stable.

Context {World : Type} {L : Libav World}.
Variable I : State World -> Prop.

Lemma preserved_bind {A B} (m : M World A) (k : A -> M World B) :
  preserved I m -> (forall a, preserved I (k a)) -> preserved I (bind m k).
Proof.
  intros Hm Hk s Hs. apply post_bind. eapply post_mono; [apply Hm, Hs| |auto].
  intros a s' Hs'. apply Hk, Hs'.
Qed.

Lemma preserved_pure {A} (a : A) : preserved I (pure a).
Proof. intros s Hs; exact Hs. Qed.

Lemma preserved_gets {A} (f : State World -> A) : preserved I (gets f).
Proof. intros s Hs; exact Hs. Qed.

Hypothesis I_stderr : forall d s, I s -> I (emit (EvStderr d) s).
Hypothesis I_set_is_eof : forall b s, I s -> I (set_is_eof b s).
Hypothesis I_set_last : forall n s, I s -> I (set_last_nb_samples n s).
Hypothesis I_set_error : forall n s, I s -> I (set_error_result n s).
Hypothesis I_read : preserved I do_av_read_frame.
Hypothesis I_send : preserved I do_avcodec_send_packet.
Hypothesis I_receive : preserved I do_avcodec_receive_frame.
Hypothesis I_alloc : forall nb, preserved I (do_av_samples_alloc nb).
Hypothesis I_convert : forall nb, preserved I (do_swr_convert nb).
Hypothesis I_insert : preserved I buffer_insert_cend.

Ltac pres_with tac :=
  repeat first
    [ tac
    | apply preserved_pure
    | apply preserved_gets
    | assumption
    | solve [auto]
    | apply preserved_bind; [|intros ?]
    | match goal with
      | |- preserved _ (if ?c then _ else _) => destruct c
      | |- preserved _ (modify _) => intros ? ?; simpl; auto
      | |- preserved _ (exit _) => intros ? ?; simpl; auto
      | |- preserved _ crash => intros ? ?; simpl; auto
      | |- preserved _ out_of_fuel => intros ? ?; simpl; auto
      end ].

Lemma preserved_format_av_error ret : preserved I (format_av_error ret).
Proof. unfold format_av_error. pres_with fail. Qed.

Lemma preserved_frame_nb_samples : preserved I frame_nb_samples.
Proof.
  intros s Hs. unfold frame_nb_samples. destruct (frame s =? nullptr); simpl; auto.
Qed.

Lemma preserved_retry_loop fuel : preserved I (retry_loop fuel).
Proof.
  induction fuel as [|fuel IH]; simpl; pres_with ltac:(apply preserved_format_av_error).
Qed.

Lemma preserved_resample_frame : preserved I resample_frame.
Proof.
  unfold resample_frame.
  pres_with ltac:(first [apply preserved_format_av_error | apply preserved_frame_nb_samples]).
Qed.

Lemma preserved_pump_loop fuel : preserved I (pump_loop fuel).
Proof.
  induction fuel as [|fuel IH]; [simpl; pres_with fail|].
  cbn [pump_loop].
  pres_with ltac:(first [apply preserved_retry_loop | apply preserved_resample_frame]).
Qed.

Variable I0 : State World -> Prop.
Hypothesis I_init : forall s, I0 s -> I (init_locals s).
Hypothesis I_packet_alloc : preserved I do_av_packet_alloc.
Hypothesis I_frame_alloc : preserved I do_av_frame_alloc.

Lemma preserved_FFMPEG_decode fuel s :
  I0 s -> post (fun _ => I) (fun _ => I) (FFMPEG_decode fuel s).
Proof.
  intros Hs. unfold FFMPEG_decode. apply post_bind. cbn [modify post].
  match goal with |- post _ _ (?m _) => assert (H : preserved I m) end.
  { pres_with ltac:(first [apply preserved_pump_loop | apply preserved_format_av_error]). }
  apply H, I_init, Hs.
Qed.

End Stable.

(** What the pump returns is its local vector. *)
Lemma FFMPEG_decode_returns_buffer {World} {L : Libav World} fuel (s : State World) b s' :
  FFMPEG_decode fuel s = Ok b s' -> b = buffer s'.
Proof.
  unfold FFMPEG_decode, bind, gets, modify.
  repeat match goal with
         | |- context [match ?m ?x with Ok _ _ => _ | _ => _ end] =>
             destruct (m x); try discriminate
         end.
  intros H; inversion H; reflexivity.
Qed.

(** ** The shape of the while loop, once for all properties *)
Section PumpRule.

Context {World : Type} {L : Libav World}.
Variables (H A Hfinal : State World -> Prop) (E : stop -> State World -> Prop).
Hypothesis rule_retry : forall fuel s,
  is_eof s = false -> H s -> post (fun _ => A) E (retry_loop fuel s).
Hypothesis rule_eof : forall s, is_eof s = true -> A s -> Hfinal s.
Hypothesis rule_resample : forall s,
  is_eof s = false -> A s ->
  post (fun brk s' => if brk : bool then Hfinal s' else H s') E (resample_frame s).
Hypothesis rule_done : forall s, H s -> Hfinal s.
Hypothesis rule_fuel : forall s, H s -> E StopFuel s.

Lemma pump_loop_rule fuel s : H s -> post (fun _ => Hfinal) E (pump_loop fuel s).
Proof.
  revert s. induction fuel as [|fuel IH]; intros s Hs; [apply rule_fuel, Hs|].
  cbn [pump_loop]. wp; [|apply rule_done, Hs].
  bools.
  eapply post_mono; [apply rule_retry; assumption | | auto].
  intros [] s1 Hs1. cbn beta. wp; [apply rule_eof; assumption|].
  eapply post_mono; [apply rule_resample; assumption | | auto].
  intros brk s2 Hs2. cbn beta. destruct brk; wp; auto.
Qed.

End PumpRule.

(** ** C10: appends are of the line size *)
Section LineSize.

Context {World : Type} {L : Libav World}.
Variable expected : Z -> Z -> Z.
Variable tr0 : list event.

Hypothesis expected_start : expected 0 0 = 0.
Hypothesis expected_alloc : forall w p ls nb r p' ls' w',
  av_samples_alloc w p ls target_channels nb TARGET_RESAMPLING_FORMAT 0 = (r, p', ls', w') ->
  expected ls' nb = ls'.

Lemma line_size_inv_emit e (s : State World) :
  (forall q, append_step expected q e = Some q) ->
  line_size_inv tr0 expected s -> line_size_inv tr0 expected (emit e s).
Proof.
  intros He [q [Ht Hq]]. exists q. split; [|exact Hq].
  eapply tracks_extend; [exact Ht | reflexivity | cbn; now rewrite He].
Qed.

Lemma line_size_inv_pump fuel s :
  tr0 = trace s -> line_size_inv tr0 expected (final (FFMPEG_decode fuel s)).
Proof.
  intros Htr. apply post_final.
  apply (preserved_FFMPEG_decode (line_size_inv tr0 expected)) with (I0 := fun s' => s' = s);
    trivial.
  - intros d s1. apply line_size_inv_emit. reflexivity.
  - intros s1 H. unfold do_av_read_frame.
    destruct (av_read_frame _ _) as [[r p] w]. apply line_size_inv_emit; [reflexivity|exact H].
  - intros s1 H. unfold do_avcodec_send_packet.
    destruct (avcodec_send_packet _ _) as [r w]. apply line_size_inv_emit; [reflexivity|exact H].
  - intros s1 H. unfold do_avcodec_receive_frame.
    destruct (avcodec_receive_frame _ _) as [[r f] w].
    apply line_size_inv_emit; [reflexivity|exact H].
  - intros nb s1 [q [Ht Hq]]. unfold do_av_samples_alloc.
    destruct (av_samples_alloc _ _ _ _ _ _ _) as [[[r p] ls] w] eqn:Ha.
    exists (ls, nb). split; [extends Ht | eapply expected_alloc, Ha].
  - intros nb s1 H. unfold do_swr_convert.
    destruct (swr_convert _ _ _ _ _) as [r w]. apply line_size_inv_emit; [reflexivity|exact H].
  - intros s1 [q [Ht Hq]]. unfold buffer_insert_cend.
    exists q. split; [|exact Hq]. extends Ht.
    now rewrite length_read_range, Hq, Nat.eqb_refl.
  - intros s1 ->. exists (0, 0). split; [|exact expected_start].
    subst tr0. apply (tracks_start _ _ s).
  - intros s1 H. unfold do_av_packet_alloc. destruct (av_packet_alloc _) as [p w]. exact H.
  - intros s1 H. unfold do_av_frame_alloc. destruct (av_frame_alloc _) as [[p f] w]. exact H.
Qed.

End LineSize.

(** C10, as amended: in every run of the pump, each append to the output
    buffer is of exactly [line_size] bytes (converted to size_t), the line
    size that av_samples_alloc wrote at the most recent allocation (0 before
    the first), whatever swr_convert returned: its count is not looked at.
    The pump computes no size from a sample count, and no property of libav
    is assumed.  The monitor ends on the line size the pump stopped with. *)
Theorem appended_bytes_are_line_size {World} {L : Libav World} fuel (s : State World) :
  exists q,
    run (append_step (fun ls _ => ls)) (0, 0) (emitted s (FFMPEG_decode fuel s)) = Some q /\
    fst q = line_size (final (FFMPEG_decode fuel s)).
Proof.
  destruct (line_size_inv_pump (fun ls _ => ls) (trace s) eq_refl
              ltac:(intros; reflexivity) fuel s eq_refl) as [q [Ht Hq]].
  exists q. split; [|exact Hq].
  exact (tracks_emitted _ _ _ _ _ Ht).
Qed.

(** ** C3: the scratch buffer is not released *)
Section Release.

Context {World : Type} {L : Libav World}.
Variable tr0 : list event.

Lemma released_app d l : released (d ++ l) = released d ++ released l.
Proof. unfold released. apply flat_map_app. Qed.

Lemma never_released_emit e (s : State World) :
  released [e] = [] -> never_released tr0 s -> never_released tr0 (emit e s).
Proof.
  intros He [d [Hd Hr]]. exists (d ++ [e]). cbn [trace emit].
  rewrite Hd, <- app_assoc, released_app, Hr, He. auto.
Qed.

Lemma never_released_pump fuel (s : State World) :
  tr0 = trace s -> never_released tr0 (final (FFMPEG_decode fuel s)).
Proof.
  intros Htr. apply post_final.
  apply (preserved_FFMPEG_decode (never_released tr0)) with (I0 := fun s' => s' = s); trivial.
  - intros d s1. apply never_released_emit. reflexivity.
  - intros s1 H. unfold do_av_read_frame.
    destruct (av_read_frame _ _) as [[r p] w]. apply never_released_emit; [reflexivity|exact H].
  - intros s1 H. unfold do_avcodec_send_packet.
    destruct (avcodec_send_packet _ _) as [r w]. apply never_released_emit; [reflexivity|exact H].
  - intros s1 H. unfold do_avcodec_receive_frame.
    destruct (avcodec_receive_frame _ _) as [[r f] w].
    apply never_released_emit; [reflexivity|exact H].
  - intros nb s1 H. unfold do_av_samples_alloc.
    destruct (av_samples_alloc _ _ _ _ _ _ _) as [[[r p] ls] w].
    apply never_released_emit; [reflexivity|exact H].
  - intros nb s1 H. unfold do_swr_convert.
    destruct (swr_convert _ _ _ _ _) as [r w]. apply never_released_emit; [reflexivity|exact H].
  - intros s1 H. unfold buffer_insert_cend. apply never_released_emit; [reflexivity|exact H].
  - intros s1 ->. exists []. subst tr0. cbn. now rewrite app_nil_r.
  - intros s1 H. unfold do_av_packet_alloc. destruct (av_packet_alloc _) as [p w]. exact H.
  - intros s1 H. unfold do_av_frame_alloc. destruct (av_frame_alloc _) as [[p f] w]. exact H.
Qed.

End Release.

(** C3, as amended: no scratch-buffer allocation made by the decode pump is
    ever released.  In every run, however it ends, the pump makes no release
    call at all: a reallocation overwrites the pointer to the previous
    allocation, and the last allocation is still there when the pump
    returns. *)
Theorem scratch_buffers_are_never_released {World} {L : Libav World} fuel (s : State World) :
  released (emitted s (FFMPEG_decode fuel s)) = [].
Proof.
  destruct (never_released_pump (trace s) fuel s eq_refl) as [d [Hd Hr]].
  now rewrite (emitted_app _ _ _ Hd).
Qed.

(** C3, as stated, fails: decoding the three-packet song allocates twice
    (for 3 samples, then for 2) and releases neither allocation. *)
Lemma scratch_buffers_released_once_fails :
  allocated (emitted (boot Demo.song) (FFMPEG_decode 10 (boot Demo.song))) = [8192; 12288] /\
  ~ released_exactly_once (emitted (boot Demo.song) (FFMPEG_decode 10 (boot Demo.song))).
Proof.
  split; [vm_compute; reflexivity|].
  intros H. specialize (H 8192). vm_compute in H. specialize (H (or_introl eq_refl)).
  discriminate.
Qed.

(** ** C5: whole samples, in order *)
Section Whole.

Context {World : Type} {L : Libav World}.
Variable tr0 : list event.
Hypothesis Halign : allocator_keeps_alignment L.

Lemma appended_app d l : appended (d ++ l) = appended d ++ appended l.
Proof. unfold appended. apply flat_map_app. Qed.

Lemma whole_samples_emit e (s s' : State World) :
  appended [e] = [] ->
  trace s' = trace s -> buffer s' = buffer s -> line_size s' = line_size s ->
  whole_samples tr0 s -> whole_samples tr0 (emit e s').
Proof.
  intros He Ht Hb Hl [Hls [Hlen [d [Hd Hc]]]]. unfold whole_samples. st_simpl.
  rewrite Hl, Hb. split; [exact Hls|]. split; [exact Hlen|].
  exists (d ++ [e]). rewrite Ht, Hd, <- app_assoc, appended_app, He, app_nil_r. auto.
Qed.

Lemma divide_to_size_t x : (bytes_per_sample | x) -> (bytes_per_sample | to_size_t x).
Proof.
  intros H. unfold to_size_t. rewrite Z.mod_eq by lia.
  apply Z.divide_sub_r; [exact H|]. apply Z.divide_mul_l. exists (2 ^ 63). reflexivity.
Qed.

Lemma whole_samples_pump fuel (s : State World) :
  tr0 = trace s -> whole_samples tr0 (final (FFMPEG_decode fuel s)).
Proof.
  intros Htr. apply post_final.
  apply (preserved_FFMPEG_decode (whole_samples tr0)) with (I0 := fun s' => s' = s); trivial.
  - intros d s1. apply whole_samples_emit; reflexivity.
  - intros s1 H. unfold do_av_read_frame.
    destruct (av_read_frame _ _) as [[r p] w]. revert H. apply whole_samples_emit; reflexivity.
  - intros s1 H. unfold do_avcodec_send_packet.
    destruct (avcodec_send_packet _ _) as [r w]. revert H. apply whole_samples_emit; reflexivity.
  - intros s1 H. unfold do_avcodec_receive_frame.
    destruct (avcodec_receive_frame _ _) as [[r f] w].
    revert H. apply whole_samples_emit; reflexivity.
  - intros nb s1 [Hls [Hlen [d [Hd Hc]]]]. unfold do_av_samples_alloc.
    destruct (av_samples_alloc _ _ _ _ _ _ _) as [[[r p] ls] w] eqn:Ha.
    cbn [post]. unfold whole_samples. st_simpl. split; [|split; [exact Hlen|]].
    + eapply Halign; eassumption.
    + exists (d ++ [EvSamplesAlloc target_channels nb r p ls]).
      rewrite Hd, <- app_assoc, appended_app, app_nil_r. auto.
  - intros nb s1 H. unfold do_swr_convert.
    destruct (swr_convert _ _ _ _ _) as [r w]. revert H. apply whole_samples_emit; reflexivity.
  - intros s1 [Hls [Hlen [d [Hd Hc]]]]. unfold buffer_insert_cend. cbn [post].
    unfold whole_samples. st_simpl.
    split; [exact Hls|]. split.
    + rewrite length_app, length_read_range, Nat2Z.inj_add.
      apply Z.divide_add_r; [exact Hlen|].
      rewrite Z2Nat.id by apply to_size_t_nonneg. apply divide_to_size_t, Hls.
    + eexists. rewrite Hd, <- app_assoc. split; [reflexivity|].
      rewrite appended_app, concat_app, <- Hc. cbn. now rewrite app_nil_r.
  - intros s1 ->. unfold whole_samples. st_simpl.
    split; [apply Z.divide_0_r|]. split; [apply Z.divide_0_r|].
    exists []. subst tr0. now rewrite app_nil_r.
  - intros s1 H. unfold do_av_packet_alloc. destruct (av_packet_alloc _) as [p w]. exact H.
  - intros s1 H. unfold do_av_frame_alloc. destruct (av_frame_alloc _) as [[p f] w]. exact H.
Qed.

End Whole.

(** C5: with an allocator that only reports line sizes of whole samples, the
    output buffer of every run of the pump has a length that is a multiple
    of targetSampleWidth * targetChannels (2 * 1), and it is the
    concatenation, in the order they were made, of the appends of the run:
    bytes only ever go to the end.  What the pump returns is that buffer. *)
Theorem output_is_whole_samples_in_order {World} {L : Libav World} fuel (s : State World)
  (Halign : allocator_keeps_alignment L) :
  let r := FFMPEG_decode fuel s in
  (target_sample_width * target_channels | Z.of_nat (length (buffer (final r)))) /\
  buffer (final r) = concat (appended (emitted s r)) /\
  (forall b s', r = Ok b s' -> b = buffer s').
Proof.
  intros r. destruct (whole_samples_pump (trace s) Halign fuel s eq_refl)
    as [_ [Hlen [d [Hd Hc]]]].
  fold r in Hlen, Hd, Hc. split; [exact Hlen|]. split.
  - now rewrite (emitted_app _ _ _ Hd).
  - intros b s' Hr. apply (FFMPEG_decode_returns_buffer fuel s). exact Hr.
Qed.

(** ** C1: sample accounting *)
Section Balance.

Context {World : Type} {L : Libav World}.
Variable tr0 : list event.
Variable size_of : Z -> Z.

Hypothesis Hrecv : decoder_yields_frames L.
Hypothesis Halloc : allocator_reports L size_of.
Hypothesis Hzero : size_of 0 = 0.
Hypothesis Hconv : resampler_reports_counts L.

Lemma lines_received_app d l :
  lines_received size_of (d ++ l) = lines_received size_of d + lines_received size_of l.
Proof. unfold lines_received, frames_received. now rewrite flat_map_app, map_app, total_app. Qed.

Ltac oracle_facts :=
  repeat match goal with
  | H : avcodec_receive_frame _ _ = _ |- _ => apply Hrecv in H
  | H : swr_convert _ _ _ _ _ = _ |- _ => apply Hconv in H
  | H : av_samples_alloc _ _ _ _ _ _ _ = _ |- _ =>
      let H' := fresh in
      pose proof (Halloc _ _ _ _ _ _ _ _ H) as H'; clear H;
      destruct H' as [[? [? ?]]|?]; [lia | | congruence]
  end.

Ltac recv_cases :=
  match goal with H : _ = AVERROR EAGAIN \/ _ |- _ => destruct H as [?|[? ?]] end.

(** Extend the witness trace of a [balanced] hypothesis by what was emitted. *)
Ltac rebalance H :=
  let d := fresh "d" in
  let Hd := fresh "Hd" in
  let Heq := fresh "Heq" in
  let Hls := fresh "Hls" in
  let Hr := fresh "Hr" in
  let Hl := fresh "Hl" in
  destruct H as [d [Hd [Heq [Hls [Hr Hl]]]]];
  unfold balanced; st_simpl; rewrite ?Hd; eexists;
  split; [rewrite <- ?app_assoc; reflexivity|];
  rewrite ?lines_received_app;
  cbn [lines_received frames_received flat_map app total fold_right map].

Ltac settle :=
  repeat match goal with
  | |- context [0 <=? ?r] => destruct (0 <=? r) eqn:?; bools
  end;
  cbn [app total fold_right map]; repeat split; try arith.

Lemma retry_loop_balanced fuel (s : State World) :
  is_eof s = false -> balanced tr0 size_of 0 s ->
  post (fun _ => balanced_after_retry tr0 size_of) (stop_balanced tr0 size_of)
       (retry_loop fuel s).
Proof.
  revert s. induction fuel as [|fuel IH]; intros s Heof Hs; [exact Hs|].
  cbn [retry_loop].
  wp; try exact I; bools; oracle_facts; unfold balanced_after_retry; st_simpl.
  - rebalance Hs. settle.
  - apply IH; st_simpl; auto. rebalance Hs. settle.
  - rewrite Heof. recv_cases; [contradiction|].
    split; [|lia]. rebalance Hs. settle.
  - apply IH; st_simpl; auto. rebalance Hs. settle.
  - rewrite Heof. recv_cases; [contradiction|].
    split; [|lia]. rebalance Hs. settle.
Qed.

Lemma resample_frame_balanced (s : State World) :
  balanced tr0 size_of (size_of (nb_samples (frame_obj s))) s ->
  0 <= nb_samples (frame_obj s) ->
  post (fun brk s' => brk = false /\ balanced tr0 size_of 0 s') (stop_balanced tr0 size_of)
       (resample_frame s).
Proof.
  intros Hs Hnb. unfold resample_frame.
  wp; try exact I; bools; oracle_facts.
  all: try (exfalso; tauto).
  all: split; [reflexivity|].
  all: rebalance Hs; rewrite ?length_app, ?length_read_range, ?Nat2Z.inj_add.
  all: rewrite to_size_t_small by lia.
  all: repeat split; try lia; try congruence.
  all: rewrite Hls;
    match goal with H : nb_samples _ = last_nb_samples _ |- _ => rewrite <- H end; lia.
Qed.

Lemma pump_loop_balanced fuel (s : State World) :
  balanced tr0 size_of 0 s ->
  post (fun _ => balanced tr0 size_of 0) (stop_balanced tr0 size_of) (pump_loop fuel s).
Proof.
  apply pump_loop_rule with (A := balanced_after_retry tr0 size_of); auto.
  - apply retry_loop_balanced.
  - intros s1 He. unfold balanced_after_retry. now rewrite He.
  - intros s1 He Hs1. unfold balanced_after_retry in Hs1. rewrite He in Hs1.
    destruct Hs1 as [Hb Hn].
    eapply post_mono; [apply resample_frame_balanced; assumption | | auto].
    intros brk s2 [-> Hs2]. exact Hs2.
Qed.

Lemma FFMPEG_decode_balanced fuel (s : State World) :
  tr0 = trace s ->
  post (fun b s' => b = buffer s' /\ balanced tr0 size_of 0 s') (stop_balanced tr0 size_of)
       (FFMPEG_decode fuel s).
Proof.
  intros Htr. unfold FFMPEG_decode. wp; try exact I.
  match goal with |- post _ _ (pump_loop _ ?s1) =>
    assert (Hs1 : balanced tr0 size_of 0 s1)
  end.
  { unfold balanced. st_simpl. eexists.
    split; [rewrite Htr, <- app_assoc; reflexivity|]. cbn. rewrite Hzero.
    repeat split; lia. }
  eapply post_mono; [apply pump_loop_balanced, Hs1 | | auto].
  intros [] s2 Hs2. cbn beta in *. wp. auto.
Qed.

End Balance.

(** C1, as amended: the pump appends one line per frame, and computes no
    size.  With a decoder that hands over frames or asks for more input, a
    resampler that does not report the decoder's signals, and an allocator
    that reports [size_of nb] as the line size of an allocation for [nb]
    samples (or fails for good), every run of the pump that is not cut short
    by a fatal exit has appended exactly [size_of nb_samples] bytes for each
    frame received from the decoder, no frame dropped and none twice:
    whether it returned, or was stopped between two turns of a loop.  The
    bytes are two per sample decoded exactly when [size_of nb] is
    [2 * nb]. *)
Theorem one_line_out_per_frame_decoded {World} {L : Libav World} (size_of : Z -> Z)
  fuel (s : State World)
  (Hrecv : decoder_yields_frames L)
  (Halloc : allocator_reports L size_of)
  (Hzero : size_of 0 = 0)
  (Hconv : resampler_reports_counts L) :
  let r := FFMPEG_decode fuel s in
  match r with
  | Ok b _ => Z.of_nat (length b) = lines_received size_of (emitted s r)
  | Fuel s' => Z.of_nat (length (buffer s')) = lines_received size_of (emitted s r)
  | Exit _ _ | Crash _ => True
  end.
Proof.
  intros r.
  pose proof (FFMPEG_decode_balanced (trace s) size_of Hrecv Halloc Hzero Hconv fuel s eq_refl)
    as H.
  fold r in H. unfold emitted.
  destruct r as [b s'|c s'|s'|s']; cbn [post stop_balanced final] in *; trivial.
  - destruct H as [-> [d [Hd [Heq _]]]]. rewrite Hd, skipn_app, skipn_all, Nat.sub_diag.
    cbn [skipn app]. lia.
  - destruct H as [d [Hd [Heq _]]]. rewrite Hd, skipn_app, skipn_all, Nat.sub_diag.
    cbn [skipn app]. lia.
Qed.

(** ** C2: reallocation *)
Section Realloc.

Context {World : Type} {L : Libav World}.
Variable tr0 : list event.

Lemma retry_loop_realloc fuel (s : State World) :
  is_eof s = false -> realloc_idle tr0 s ->
  post (fun _ => realloc_after_retry tr0) (realloc_stop tr0) (retry_loop fuel s).
Proof.
  revert s. induction fuel as [|fuel IH]; intros s Heof Hs; [exact Hs|].
  cbn [retry_loop]. wp; cbn [realloc_stop]; unfold realloc_after_retry; st_simpl;
    rewrite ?Heof.
  all: try (apply IH; [st_simpl; assumption|]).
  all: unfold realloc_idle, realloc_at in *; st_simpl; extends Hs.
Qed.

Lemma resample_frame_realloc (s : State World) :
  realloc_at tr0 (last_nb_samples s, Some (nb_samples (frame_obj s))) s ->
  post (fun _ => realloc_idle tr0) (realloc_stop tr0) (resample_frame s).
Proof.
  intros Hs. unfold resample_frame.
  wp; cbn [realloc_stop]; unfold realloc_idle, realloc_at in *; st_simpl.
  all: try (eexists; exact Hs).
  all: extends Hs.
Qed.

Lemma pump_loop_realloc fuel (s : State World) :
  realloc_idle tr0 s ->
  post (fun _ => realloc_idle tr0) (realloc_stop tr0) (pump_loop fuel s).
Proof.
  apply pump_loop_rule with (A := realloc_after_retry tr0); auto.
  - apply retry_loop_realloc.
  - intros s1 He. unfold realloc_after_retry. now rewrite He.
  - intros s1 He Hs1. unfold realloc_after_retry in Hs1. rewrite He in Hs1.
    eapply post_mono; [apply resample_frame_realloc, Hs1 | | auto].
    intros [] ? ?; auto.
Qed.

Lemma FFMPEG_decode_realloc fuel (s : State World) :
  tr0 = trace s ->
  post (fun _ => realloc_idle tr0) (realloc_stop tr0) (FFMPEG_decode fuel s).
Proof.
  intros Htr. unfold FFMPEG_decode.
  assert (Hs : tracks realloc_step (0, None) tr0 (0, None) s)
    by (subst tr0; apply tracks_start).
  wp; cbn [realloc_stop]; unfold realloc_idle, realloc_at; st_simpl.
  1-2: extends Hs.
  eapply post_mono; [apply pump_loop_realloc | | auto].
  - unfold realloc_idle, realloc_at; st_simpl. extends Hs.
  - intros [] s2 Hs2. cbn beta. wp. exact Hs2.
Qed.

End Realloc.

(** C2: in every run of the pump, whenever a frame of nb samples leaves the
    retry loop, the very next call is av_samples_alloc for nb samples if nb
    differs from the sample count seen last (0 before the first frame), and
    is not an allocation if nb equals it; no other allocation is made.  The
    monitor accepts the whole run and, unless the run crashed on a null
    frame, ends with no frame pending and the sample count seen last in
    last_nb_samples. *)
Theorem realloc_iff_sample_count_changes {World} {L : Libav World} fuel (s : State World) :
  let r := FFMPEG_decode fuel s in
  exists q, run realloc_step (0, None) (emitted s r) = Some q /\
            match r with
            | Crash _ => True
            | _ => q = (last_nb_samples (final r), None)
            end.
Proof.
  intros r. pose proof (FFMPEG_decode_realloc (trace s) fuel s eq_refl) as H.
  fold r in H. destruct r as [b s'|c s'|s'|s'] eqn:Er; cbn [post realloc_stop] in H.
  all: try (eexists; split; [apply tracks_emitted; cbn [final]; exact H | reflexivity]).
  destruct H as [q Hq]. exists q. split; [apply tracks_emitted; exact Hq | exact I].
Qed.

(** ** C8: what is sent to the decoder *)

Lemma packet_eqb_refl p : packet_eqb p p = true.
Proof. unfold packet_eqb. now rewrite !Z.eqb_refl. Qed.

Section Fed.

Context {World : Type} {L : Libav World}.
Variable tr0 : list event.

Ltac fed_extends H :=
  eapply tracks_extend;
  [ exact H
  | st_simpl; first [ exact (eq_sym (app_nil_r _)) | rewrite <- ?app_assoc; reflexivity ]
  | cbn; unfold must_send; use_tests;
    rewrite ?packet_eqb_refl, ?andb_false_r; cbn; try reflexivity ].

Ltac fed_settle H :=
  unfold fed_done, fed, settled in *; st_simpl;
  first [ fed_extends H
        | eexists; split;
          [ fed_extends H
          | cbn; unfold must_send; use_tests; rewrite ?andb_false_r; cbn; trivial ] ].

Lemma retry_loop_fed fuel (s : State World) :
  is_eof s = false -> fed tr0 s ->
  post (fun _ => fed_after_retry tr0) (fun _ => fed_done tr0) (retry_loop fuel s).
Proof.
  revert s. induction fuel as [|fuel IH]; intros s Heof Hs.
  { cbn. exists (false, None). split; [exact Hs | exact I]. }
  cbn [retry_loop]. wp; unfold fed_after_retry; st_simpl; rewrite ?Heof.
  all: try (apply IH; [st_simpl; assumption|]).
  all: fed_settle Hs.
Qed.

Lemma resample_frame_fed (s : State World) :
  fed tr0 s -> post (fun _ => fed tr0) (fun _ => fed_done tr0) (resample_frame s).
Proof.
  intros Hs. unfold resample_frame. wp; fed_settle Hs.
Qed.

Lemma pump_loop_fed fuel (s : State World) :
  fed tr0 s -> post (fun _ => fed_done tr0) (fun _ => fed_done tr0) (pump_loop fuel s).
Proof.
  assert (Hdone : forall s1 : State World, fed tr0 s1 -> fed_done tr0 s1).
  { intros s1 H1. exists (false, None). split; [exact H1 | exact I]. }
  apply pump_loop_rule with (H := fed tr0) (A := fed_after_retry tr0); auto.
  - apply retry_loop_fed.
  - intros s1 He. unfold fed_after_retry. now rewrite He.
  - intros s1 He Hs1. unfold fed_after_retry in Hs1. rewrite He in Hs1.
    eapply post_mono; [apply resample_frame_fed, Hs1 | | auto].
    intros [] ? ?; auto.
Qed.

Lemma FFMPEG_decode_fed fuel (s : State World) :
  tr0 = trace s ->
  post (fun _ => fed_done tr0) (fun _ => fed_done tr0) (FFMPEG_decode fuel s).
Proof.
  intros Htr. unfold FFMPEG_decode.
  assert (Hs : tracks send_step (true, None) tr0 (true, None) s)
    by (subst tr0; apply tracks_start).
  wp.
  1-2: fed_settle Hs.
  eapply post_mono; [apply pump_loop_fed | | auto].
  - unfold fed. st_simpl. fed_extends Hs.
  - intros [] s2 Hs2. cbn beta. wp. exact Hs2.
Qed.

End Fed.

(** C8, as amended: the pump never looks at a packet's stream.  In every
    run, each packet obtained from the container reader by a read that did
    not fail fatally and did not (past the first read) report the end of
    the stream is sent to the decoder in the very next call, whatever
    stream it belongs to, and the decoder is sent nothing else. *)
Theorem every_packet_read_is_sent {World} {L : Libav World} fuel (s : State World) :
  let r := FFMPEG_decode fuel s in
  exists q, run send_step (true, None) (emitted s r) = Some q /\ settled q.
Proof.
  intros r. pose proof (FFMPEG_decode_fed (trace s) fuel s eq_refl) as H.
  apply post_final in H. destruct H as [q [Hq Hs]].
  exists q. split; [apply tracks_emitted; exact Hq | exact Hs].
Qed.

(** C8, as stated, fails: for a container with a video stream 0 and an audio
    stream 1 the setup routine selects stream 1, and the pump then sends the
    packet of stream 0 to the decoder. *)
Lemma only_selected_stream_fails :
  let s := boot Demo.movie in
  find_audio_stream (streams Demo.movie 0) 0 (-1) s = Ok 1 s /\
  In (EvSendPacket (mkPacket 0 3) 0) (trace (final (read_audio_into_buffer 10 "test.ogg" s))) /\
  ~ only_selected_stream 1 (trace (final (read_audio_into_buffer 10 "test.ogg" s))).
Proof.
  cbv zeta. split; [reflexivity|]. split.
  - vm_compute. do 13 right. left. reflexivity.
  - intros H. unfold only_selected_stream in H. rewrite Forall_forall in H.
    specialize (H (EvSendPacket (mkPacket 0 3) 0)). cbn beta iota in H.
    cbn [stream_index] in H. enough (0 = 1) by discriminate. apply H.
    vm_compute. do 13 right. left. reflexivity.
Qed.

(** ** C6: aborting *)
Section Abort.

Context {World : Type} {L : Libav World}.
Variable tr0 : list event.

Ltac abort_settle H :=
  cbn [abort_stop]; unfold abort_running in *; st_simpl;
  first [ extends H
        | split; [extends H | first [assumption | reflexivity]] ].

Lemma retry_loop_abort fuel (s : State World) :
  abort_running tr0 s ->
  post (fun _ => abort_running tr0) (abort_stop tr0) (retry_loop fuel s).
Proof.
  revert s. induction fuel as [|fuel IH]; intros s Hs; [exact Hs|].
  cbn [retry_loop]. wp.
  all: try (apply IH).
  all: abort_settle Hs.
Qed.

Lemma resample_frame_abort (s : State World) :
  abort_running tr0 s ->
  post (fun _ => abort_running tr0) (abort_stop tr0) (resample_frame s).
Proof.
  intros Hs. unfold resample_frame. wp.
  all: abort_settle Hs.
Qed.

Lemma pump_loop_abort fuel (s : State World) :
  abort_running tr0 s ->
  post (fun _ => abort_running tr0) (abort_stop tr0) (pump_loop fuel s).
Proof.
  apply pump_loop_rule with (A := abort_running tr0); auto.
  - intros f s1 _. apply retry_loop_abort.
  - intros s1 _ Hs1.
    eapply post_mono; [apply resample_frame_abort, Hs1 | | auto].
    intros [] ? ?; auto.
Qed.

Lemma FFMPEG_decode_abort fuel (s : State World) :
  abort_running tr0 s ->
  post (fun _ => abort_running tr0) (abort_stop tr0) (FFMPEG_decode fuel s).
Proof.
  intros Hs. unfold FFMPEG_decode. wp.
  1-2: abort_settle Hs.
  eapply post_mono; [apply pump_loop_abort | | auto].
  - abort_settle Hs.
  - intros [] s2 Hs2. cbn beta. wp. exact Hs2.
Qed.

Lemma find_audio_stream_pure strs i v (s : State World) :
  post (fun _ s' => s' = s) (fun c s' => c = StopCrash /\ s' = s)
       (find_audio_stream strs i v s).
Proof.
  revert i. induction strs as [|st strs IH]; intros i; cbn [find_audio_stream].
  - reflexivity.
  - destruct (codecpar st) as [par|]; [|cbn; auto].
    destruct (codec_type par =? AVMEDIA_TYPE_AUDIO); [reflexivity | apply IH].
Qed.

Lemma read_audio_into_buffer_abort fuel filename (s : State World) :
  tr0 = trace s ->
  post (fun _ => abort_running tr0) (abort_stop tr0)
       (read_audio_into_buffer fuel filename s).
Proof.
  intros Htr.
  assert (Hs : abort_running tr0 s) by (subst tr0; apply tracks_start).
  unfold read_audio_into_buffer. wp.
  all: try abort_settle Hs.
  all: eapply post_mono; [apply find_audio_stream_pure | | intros c s1 [-> ->]; abort_settle Hs].
  all: intros idx s1 ->; cbn beta; wp; try abort_settle Hs.
  all: destruct (nth_error _ _) as [pStream|]; [|wp; abort_settle Hs].
  all: destruct (codecpar pStream) as [pCodecParams|]; wp; try abort_settle Hs.
  all: eapply post_mono; [apply FFMPEG_decode_abort; abort_settle Hs | | auto].
  all: intros decoded s2 Hs2; cbn beta; wp; abort_settle Hs2.
Qed.

End Abort.

(** X20: for every value handed to [format_av_error] right after the call
    that returned it (the results of avformat_open_input,
    avformat_find_stream_info, avcodec_open2, av_read_frame,
    avcodec_send_packet, av_samples_alloc and swr_convert) the pipeline
    aborts at once, printing the diagnostic and exiting with that value, if
    and only if the value is negative and neither AVERROR(EAGAIN) nor
    AVERROR_EOF; the pipeline makes no further call after a diagnostic, and
    every exit code is negative and neither of the two signals. *)
Theorem checked_errors_abort_at_once {World} {L : Libav World} fuel filename
    (s : State World) :
  let r := read_audio_into_buffer fuel filename s in
  aborts_at_once checked_result (emitted s r) (exit_code r) /\
  (forall c, exit_code r = Some c -> c < 0 /\ c <> AVERROR EAGAIN /\ c <> AVERROR_EOF).
Proof.
  intros r. pose proof (read_audio_into_buffer_abort (trace s) fuel filename s eq_refl) as H.
  fold r in H. unfold aborts_at_once.
  destruct r as [b s'|c s'|s'|s'] eqn:Er; cbn [post abort_stop exit_code] in *.
  - split; [apply (tracks_emitted _ _ _ s (Ok b s')), H | discriminate].
  - destruct H as [H Hc]. split; [apply (tracks_emitted _ _ _ s (Exit (A:=SoundData) c s')), H|].
    intros c' Hc'. inversion Hc'; subst c'. apply unhandable_spec, Hc.
  - split; [apply (tracks_emitted _ _ _ s (Crash (A:=SoundData) s')), H | discriminate].
  - split; [apply (tracks_emitted _ _ _ s (Fuel (A:=SoundData) s')), H | discriminate].
Qed.

(** C6 does not hold of the code.  The result of swr_init is dropped at
    line 228, where the results of avformat_open_input,
    avformat_find_stream_info and avcodec_open2 are each handed to
    [format_av_error]: with a resampler whose swr_init returns
    AVERROR(EINVAL) = -22, an error that is neither of the two signals, the
    pipeline does not abort; it goes on to decode the song and returns. *)
Lemma every_error_aborts_fails :
  let s := boot Demo.song_bad_init in
  let r := read_audio_into_buffer 10 "test.ogg" s in
  In (EvSetup c_swr_init (-22)) (emitted s r) /\
  step_result (EvSetup c_swr_init (-22)) = Some (-22) /\
  unhandable (-22) = true /\
  exit_code r = None /\
  ~ aborts_at_once step_result (emitted s r) (exit_code r).
Proof.
  cbv zeta. split; [vm_compute; do 11 right; left; reflexivity|].
  split; [reflexivity|]. split; [reflexivity|]. split; [reflexivity|].
  unfold aborts_at_once. vm_compute. discriminate.
Qed.

(** ** C7: a container without audio *)
Section Report.

Context {World : Type} {L : Libav World}.
Variable tr0 : list event.
Hypothesis Hno : no_audio_stream L.

Lemma find_audio_stream_none strs i (s : State World) :
  (forall st par, In st strs -> codecpar st = Some par ->
                  codec_type par <> AVMEDIA_TYPE_AUDIO) ->
  post (fun idx s' => idx = -1 /\ s' = s) (fun c s' => c = StopCrash /\ s' = s)
       (find_audio_stream strs i (-1) s).
Proof.
  revert i. induction strs as [|st strs IH]; intros i Hall; cbn [find_audio_stream].
  - cbn. auto.
  - destruct (codecpar st) as [par|] eqn:Hpar; [|cbn; auto].
    destruct (codec_type par =? AVMEDIA_TYPE_AUDIO) eqn:Ht.
    + apply Z.eqb_eq in Ht. exfalso. eapply Hall; [left; reflexivity | exact Hpar | exact Ht].
    + apply IH. intros st' par' Hin. apply Hall. right. exact Hin.
Qed.

Ltac report_settle H :=
  cbn [report_stop];
  first
    [ exact I
    | eexists; split;
      [ extends H
      | unfold reported_exit; cbn [fst snd]; eexists; split;
        [ reflexivity
        | intros ? Hinfo ?;
          first [ discriminate Hinfo
                | inversion Hinfo; subst; first [congruence | auto] ] ] ] ].

Lemma read_audio_into_buffer_report fuel filename (s : State World) :
  tr0 = trace s ->
  post (fun _ _ => False) (report_stop tr0) (read_audio_into_buffer fuel filename s).
Proof.
  intros Htr.
  assert (Hs : tracks report_step (None, None) tr0 (None, None) s)
    by (subst tr0; apply tracks_start).
  unfold read_audio_into_buffer. wp.
  all: try report_settle Hs.
  eapply post_mono;
    [apply find_audio_stream_none; intros st par; apply Hno | | intros c s1 [-> ->]; exact I].
  intros idx s1 [-> ->]. cbn beta. wp; [report_settle Hs|].
  match goal with H : (?x =? ?x) = false |- _ => rewrite Z.eqb_refl in H; discriminate H end.
Qed.

Lemma find_audio_stream_misses strs i (s : State World) :
  (forall st, In st strs -> codecpar st <> None) ->
  (forall st par, In st strs -> codecpar st = Some par ->
                  codec_type par <> AVMEDIA_TYPE_AUDIO) ->
  find_audio_stream strs i (-1) s = Ok (-1) s.
Proof.
  revert i. induction strs as [|st strs IH]; intros i Hpar Hall; cbn [find_audio_stream].
  - reflexivity.
  - destruct (codecpar st) as [par|] eqn:Hp.
    + destruct (codec_type par =? AVMEDIA_TYPE_AUDIO) eqn:Ht.
      * apply Z.eqb_eq in Ht. exfalso. eapply Hall; [left; reflexivity | exact Hp | exact Ht].
      * apply IH.
        -- intros st' Hin. apply Hpar. right. exact Hin.
        -- intros st' par' Hin. apply Hall. right. exact Hin.
    + exfalso. apply (Hpar st); [left; reflexivity | exact Hp].
Qed.

Hypothesis Hsetup : setup_reaches_search L.

Lemma read_audio_into_buffer_refused fuel filename (s : State World) :
  tr0 = trace s ->
  post (fun _ _ => False)
       (fun c s' => c = StopExit (-1) /\
                    exists pre, trace s' = tr0 ++ pre ++ [EvStderr (DiagMsg no_audio_message)])
       (read_audio_into_buffer fuel filename s).
Proof.
  intros Htr. destruct Hsetup as (Hio & Hctx & Hopen & Hinfo & Hpar).
  unfold read_audio_into_buffer. wp.
  all: bools.
  all: repeat match goal with
       | H : avio_alloc_context _ _ _ _ = _ |- _ => apply Hio in H
       | H : avformat_alloc_context _ = _ |- _ => apply Hctx in H
       | H : avformat_find_stream_info _ _ = _ |- _ => apply Hinfo in H
       | H : avformat_open_input _ _ _ = _, Hne : _ <> nullptr |- _ =>
           destruct (Hopen _ _ _ _ _ _ H Hne); clear H
       end.
  all: try contradiction.
  all: try match goal with
       | H1 : unhandable ?r = true, H2 : unhandable ?r = false |- _ =>
           rewrite H1 in H2; discriminate H2
       end.
  rewrite find_audio_stream_misses.
  - cbn beta. wp.
    split; [reflexivity|]. eexists. symmetry.
    etransitivity; [apply app_assoc|]. apply (f_equal (fun l => l ++ _)). symmetry.
    st_simpl. rewrite Htr, <- ?app_assoc. reflexivity.
  - intros st. apply Hpar.
  - intros st par. apply Hno.
Qed.

End Report.

(** C7: with a container none of whose streams is an audio stream,
    [read_audio_into_buffer] never returns (so never returns an empty
    SoundData) and never reaches the pump.  When it exits, the last thing it
    did was print a diagnostic; whenever avformat_find_stream_info was
    reached and did not fail, that diagnostic is "FFMPEG could not find any
    audio stream!" and the exit code is -1.  When the setup gets as far as
    the stream search (the contexts are allocated, the input opens, every
    stream has codec parameters), the run does exit: with -1, the message
    printed last.  A null dereference is possible only when the setup does
    not get that far. *)
Theorem missing_audio_stream_is_reported {World} {L : Libav World} fuel filename
    (s : State World) (Hno : no_audio_stream L) :
  let r := read_audio_into_buffer fuel filename s in
  match r with
  | Ok _ _ | Fuel _ => False
  | Crash _ => ~ setup_reaches_search L
  | Exit code _ =>
      (exists q, run report_step (None, None) (emitted s r) = Some q /\
                 reported_exit code q) /\
      (setup_reaches_search L ->
       code = -1 /\
       exists pre, emitted s r = pre ++ [EvStderr (DiagMsg no_audio_message)])
  end.
Proof.
  intros r.
  pose proof (read_audio_into_buffer_report (trace s) Hno fuel filename s eq_refl) as H.
  pose proof (fun Hsetup =>
                read_audio_into_buffer_refused (trace s) Hno Hsetup fuel filename s eq_refl)
    as H'.
  fold r in H, H'.
  destruct r as [b s'|c s'|s'|s'] eqn:Er; cbn [post report_stop] in H, H'; trivial.
  - split.
    + destruct H as [q [Hq Hr]]. exists q. split; [|exact Hr].
      apply (tracks_emitted _ _ _ s (Exit (A:=SoundData) c s')), Hq.
    + intros Hsetup. destruct (H' Hsetup) as [Hc [pre Hpre]].
      split; [congruence|]. exists pre.
      apply (emitted_app s (Exit (A:=SoundData) c s')). exact Hpre.
  - intros Hsetup. destruct (H' Hsetup) as [Hc _]. discriminate Hc.
Qed.

(** ** C9: the size query *)

(** C9, as amended: for every seek call with the size-query origin
    (AVSEEK_SIZE = 0x10000) the byte source adapter answers -1,
    "unsupported", and leaves the source as it is, read position included,
    whether or not the size of the source is known; fseek is not called. *)
Theorem size_query_is_always_unsupported (FILE : Type) (fseek : FILE -> Z -> Z -> Z * FILE)
    (file : FILE) (offset : Z) :
  SeekCallback FILE fseek file offset AVSEEK_SIZE = (-1, file).
Proof. reflexivity. Qed.

(** C9, as stated, fails: the size of the three-byte source is known, and
    the size query on it answers -1 instead of 3. *)
Lemma size_query_reports_size_fails :
  Stdio.size Stdio.abc = 3 /\
  SeekCallback Stdio.file Stdio.fseek Stdio.abc 0 AVSEEK_SIZE <> (Stdio.size Stdio.abc, Stdio.abc).
Proof. split; [reflexivity | discriminate]. Qed.

(** ** C4: the retry loop ends *)
Section Drain.

Context {World : Type} {L : Libav World}.
Variable remaining : World -> nat.
Hypothesis Hdrain : container_drains L remaining.

Ltac drain_facts :=
  destruct Hdrain as (Hpa & Hfa & Hrd & Hsd & Hrc);
  repeat match goal with
  | H : av_packet_alloc _ = _ |- _ => apply Hpa in H
  | H : av_frame_alloc _ = _ |- _ => apply Hfa in H
  | H : av_read_frame _ _ = _ |- _ => apply Hrd in H; destruct H as [? [?|[?|?]]]
  | H : avcodec_send_packet _ _ = _ |- _ => apply Hsd in H
  | H : avcodec_receive_frame _ _ = _ |- _ => apply Hrc in H
  end.

Lemma retry_loop_ends fuel (s : State World) :
  fuel_covers remaining fuel s ->
  post (fun _ _ => True) (fun c _ => c <> StopFuel) (retry_loop fuel s).
Proof.
  unfold fuel_covers. revert s. induction fuel as [|fuel IH]; intros s Hf.
  { destruct (error_result s =? AVERROR EAGAIN); lia. }
  cbn [retry_loop]. wp; try exact I; try discriminate.
  all: apply IH; st_simpl; use_tests.
  all: drain_facts; bools; try congruence; try lia.
Qed.

Lemma retry_loop_keeps_buffer b fuel :
  preserved (fun s : State World => buffer s = b) (retry_loop fuel).
Proof.
  apply preserved_retry_loop; auto.
  - intros s H. unfold do_av_read_frame. destruct (av_read_frame _ _) as [[r p] w]. exact H.
  - intros s H. unfold do_avcodec_send_packet.
    destruct (avcodec_send_packet _ _) as [r w]. exact H.
  - intros s H. unfold do_avcodec_receive_frame.
    destruct (avcodec_receive_frame _ _) as [[r f] w]. exact H.
Qed.

Lemma pump_loop_stops_at_end fuel (s s1 : State World) :
  0 <= error_result s -> is_eof s = false ->
  retry_loop (S fuel) s = Ok tt s1 -> is_eof s1 = true ->
  pump_loop (S fuel) s = Ok tt s1 /\ buffer s1 = buffer s.
Proof.
  intros He Heof Hr Heof1. split.
  - cbn [pump_loop]. unfold bind at 1. cbn [gets]. unfold bind at 1. cbn [gets].
    rewrite Heof. apply Z.leb_le in He. rewrite He. cbn [andb negb].
    unfold bind at 1. rewrite Hr. unfold bind at 1. cbn [gets]. rewrite Heof1. reflexivity.
  - pose proof (retry_loop_keeps_buffer (buffer s) (S fuel) s eq_refl) as H.
    rewrite Hr in H. exact H.
Qed.

Hypothesis Hstarved : decoder_starved L.

Ltac contra :=
  match goal with
  | H1 : ?x = ?y, H2 : ?x <> ?y |- _ => exact (False_ind _ (H2 H1))
  | H1 : ?c = true, H2 : ?c = false |- _ => rewrite H1 in H2; discriminate H2
  end.

Lemma retry_loop_starved fuel (s : State World) :
  fuel_covers remaining fuel s ->
  post (fun _ s' => is_eof s' = true /\ buffer s' = buffer s) fatal_stop (retry_loop fuel s).
Proof.
  unfold fuel_covers. revert s. induction fuel as [|fuel IH]; intros s Hf.
  { destruct (error_result s =? AVERROR EAGAIN); lia. }
  cbn [retry_loop]. wp.
  all: try (eexists; split; [reflexivity | assumption]).
  all: try (split; reflexivity).
  all: try (exfalso;
            match goal with H : avcodec_receive_frame _ _ = _ |- _ =>
              pose proof (Hstarved _ _ _ _ _ H) end; bools; contra).
  all: (eapply post_mono;
        [ apply IH
        | intros ? ? [? ?]; split; [assumption | st_simpl; assumption]
        | auto ]).
  all: st_simpl; use_tests.
  all: drain_facts; bools; try contra; try lia.
Qed.

Lemma pump_loop_starved fuel (s : State World) :
  error_result s = 0 -> is_eof s = false ->
  (remaining (world s) + 1 < fuel)%nat ->
  post (fun _ s' => buffer s' = buffer s) fatal_stop (pump_loop fuel s).
Proof.
  intros He Heof Hf. destruct fuel as [|fuel]; [lia|]. cbn [pump_loop]. wp.
  - eapply post_mono; [apply retry_loop_starved | | auto].
    + unfold fuel_covers. rewrite He. exact Hf.
    + intros [] s1 [Heof1 Hb]. cbn beta. wp; [exact Hb | discriminate Heof1].
  - reflexivity.
Qed.

Lemma FFMPEG_decode_starved fuel (s : State World) :
  (remaining (world s) + 1 < fuel)%nat ->
  post (fun b _ => b = []) fatal_stop (FFMPEG_decode fuel s).
Proof.
  intros Hf. unfold FFMPEG_decode. wp.
  1-2: eexists; split; [reflexivity | assumption].
  eapply post_mono; [apply pump_loop_starved | | auto].
  - reflexivity.
  - reflexivity.
  - st_simpl. drain_facts; lia.
  - intros [] s1 Hb. cbn beta. st_simpl. wp. exact Hb.
Qed.
End Drain.


(** ** The reference world keeps the contracts *)

Lemma demo_decoder_yields_frames : decoder_yields_frames Demo.lib.
Proof.
  intros w f r f' w' H. cbn in H. unfold Demo.receive in H.
  destruct (Demo.d_queue w) as [|n q]; inversion H; subst; [left; reflexivity|].
  right. cbn [nb_samples]. pose proof (Z.mod_pos_bound n 4096). lia.
Qed.

Lemma demo_allocator_keeps_alignment : allocator_keeps_alignment Demo.lib.
Proof.
  intros w p ls nb r p' ls' w' H _.
  cbv [av_samples_alloc Demo.lib Demo.lib_gen Demo.fresh] in H.
  repeat (apply pair_equal_spec in H; destruct H as [H ?]); subst.
  exists nb. unfold bytes_per_sample, target_sample_width, target_channels. lia.
Qed.

Lemma demo_resampler_reports_counts : resampler_reports_counts Demo.lib.
Proof.
  intros w p n f m r w' H.
  cbv [swr_convert Demo.lib Demo.lib_gen] in H.
  apply pair_equal_spec in H; destruct H as [H ?]; subst.
  pose proof AVERROR_EAGAIN_value. pose proof AVERROR_EOF_value.
  destruct (Demo.d_short _); lia.
Qed.

Lemma starved_container_drains :
  container_drains Demo.starved (fun w => length (Demo.d_packets w)).
Proof.
  split; [|split; [|split; [|split]]].
  - intros w p w' H. cbn in H. inversion H; subst. lia.
  - intros w ptr f w' H. cbn in H. inversion H; subst. cbn. lia.
  - intros w p r p' w' H. cbn in H.
    destruct (Demo.d_packets w) as [|q rest] eqn:E; inversion H; subst; cbn.
    + rewrite E. cbn. split; [lia | left; reflexivity].
    + split; [lia | right; right; lia].
  - intros w p r w' H. cbn in H. inversion H; subst. cbn. lia.
  - intros w f r f' w' H. cbn in H. inversion H; subst. lia.
Qed.

Lemma starved_decoder_starved : decoder_starved Demo.starved.
Proof. intros w f r f' w' H. cbn in H. inversion H. reflexivity. Qed.

Lemma mute_no_audio_stream : no_audio_stream Demo.mute.
Proof.
  intros w ctx st par Hin Hpar. cbn in Hin. unfold Demo.video_only in Hin.
  apply in_map_iff in Hin. destruct Hin as [x [Hx _]]. subst st.
  cbn in Hpar. inversion Hpar. subst par. cbn. discriminate.
Qed.

(** ** The theorems at work on the reference world *)

(** The song decodes to 3 + 3 + 2 samples of two bytes. *)
Example song_decodes :
  exists s', FFMPEG_decode 10 (boot Demo.song) = Ok (repeat x2a 16) s' /\
             frames_received (trace s') = [3; 3; 2].
Proof. eexists. split; vm_compute; reflexivity. Qed.

Lemma padded_decoder_yields_frames : decoder_yields_frames Probe.padded.
Proof.
  intros w f r f' w' H. cbn in H. unfold Demo.receive in H.
  destruct (Demo.d_queue w) as [|n q]; inversion H; subst; [left; reflexivity|].
  right. cbn [nb_samples]. pose proof (Z.mod_pos_bound n 4096). lia.
Qed.

Lemma padded_resampler_reports_counts : resampler_reports_counts Probe.padded.
Proof.
  intros w p n f m r w' H.
  cbv [swr_convert Probe.padded Probe.with_allocator Demo.lib Demo.lib_gen] in H.
  apply pair_equal_spec in H; destruct H as [H ?]; subst.
  pose proof AVERROR_EAGAIN_value. pose proof AVERROR_EOF_value.
  destruct (Demo.d_short _); lia.
Qed.

Lemma padded_allocator_reports : allocator_reports Probe.padded Probe.padded_size.
Proof.
  intros w p ls nb r p' ls' w' H Hnb.
  cbv [av_samples_alloc Probe.padded Probe.with_allocator Probe.padded_alloc
       Probe.padded_count Demo.fresh] in H.
  change (0 =? 0) with true in H. cbv iota in H.
  unfold target_sample_width, target_channels in H.
  destruct ((nb <=? 0) || (2 ^ 31 <=? 2 * 1 * (32 * ((nb + 31) / 32)))) eqn:E.
  - right. repeat (apply pair_equal_spec in H; destruct H as [H ?]); subst. reflexivity.
  - left. repeat (apply pair_equal_spec in H; destruct H as [H ?]); subst.
    apply orb_false_iff in E. destruct E as [E1 E2].
    apply Z.leb_gt in E1, E2. unfold Probe.padded_size.
    assert (0 <= (nb + 31) / 32) by (apply Z.div_pos; lia). lia.
Qed.

(** With the allocator as libavutil documents it for align = 0 the song's
    8 samples come out as three lines of 64 bytes. *)
Example padded_song_decodes :
  exists s', @FFMPEG_decode _ Probe.padded 10 (boot Demo.song) = Ok (repeat x2a 192) s' /\
             frames_received (trace s') = [3; 3; 2].
Proof. eexists. split; vm_compute; reflexivity. Qed.

(** C1, as stated, fails.  The input is well-formed (the decoder hands over
    frames, the resampler converts every sample it is given), the
    allocation is made as line 106 makes it, with align = 0, and the
    allocator pads the line as libavutil documents for that alignment: the
    pump returns 192 bytes, 96 samples of two bytes, for the 3 + 3 + 2 = 8
    samples of the frames it received. *)
Lemma samples_out_differ_from_samples_decoded :
  let s := boot Demo.song in
  let r := @FFMPEG_decode _ Probe.padded 10 s in
  decoder_yields_frames Probe.padded /\
  resampler_reports_counts Probe.padded /\
  total (frames_received (emitted s r)) = 8 /\
  exists b s', r = Ok b s' /\ Z.of_nat (length b) = 192 /\
               Z.of_nat (length b) <> bytes_per_sample * total (frames_received (emitted s r)).
Proof.
  cbv zeta. split; [exact padded_decoder_yields_frames|].
  split; [exact padded_resampler_reports_counts|].
  split; [vm_compute; reflexivity|].
  eexists. eexists. split; [vm_compute; reflexivity|].
  split; [vm_compute; reflexivity|]. vm_compute. discriminate.
Qed.

Lemma one_line_out_per_frame_decoded_witness :
  decoder_yields_frames Probe.padded /\
  allocator_reports Probe.padded Probe.padded_size /\
  Probe.padded_size 0 = 0 /\
  resampler_reports_counts Probe.padded /\
  let r := @FFMPEG_decode _ Probe.padded 10 (boot Demo.song) in
  match r with
  | Ok b _ => Z.of_nat (length b) = lines_received Probe.padded_size (emitted (boot Demo.song) r)
  | Fuel s' =>
      Z.of_nat (length (buffer s')) =
      lines_received Probe.padded_size (emitted (boot Demo.song) r)
  | Exit _ _ | Crash _ => True
  end.
Proof.
  assert (Hzero : Probe.padded_size 0 = 0) by reflexivity.
  split; [exact padded_decoder_yields_frames|].
  split; [exact padded_allocator_reports|].
  split; [exact Hzero|].
  split; [exact padded_resampler_reports_counts|].
  apply (one_line_out_per_frame_decoded (L := Probe.padded) Probe.padded_size 10
           (boot Demo.song) padded_decoder_yields_frames padded_allocator_reports Hzero
           padded_resampler_reports_counts).
Defined.

Lemma output_is_whole_samples_in_order_witness :
  allocator_keeps_alignment Demo.lib /\
  let r := FFMPEG_decode 10 (boot Demo.song) in
  (target_sample_width * target_channels | Z.of_nat (length (buffer (final r)))) /\
  buffer (final r) = concat (appended (emitted (boot Demo.song) r)) /\
  (forall b s', r = Ok b s' -> b = buffer s').
Proof.
  exact (conj demo_allocator_keeps_alignment
          (output_is_whole_samples_in_order 10 (boot Demo.song)
             demo_allocator_keeps_alignment)).
Defined.

(** With a resampler that reports no output at all the pump still appends
    the whole scratch line after each conversion. *)
Example short_conversions_are_appended_whole :
  let tr := emitted (boot Demo.song_short) (FFMPEG_decode 10 (boot Demo.song_short)) in
  nth_error tr 3 = Some (EvSamplesAlloc 1 3 6 8192 6) /\
  nth_error tr 4 = Some (EvConvert 3 3 0) /\
  nth_error tr 5 = Some (EvAppend (repeat x2a 6)).
Proof. split; [|split]; vm_compute; reflexivity. Qed.

(** C10, as stated, fails in its parenthesis.  With the allocation made as
    line 106 makes it (align = 0) and the allocator padding the line as
    libavutil documents for that alignment, the allocation for 3 samples
    reports a line of 64 bytes, and the append that follows the conversion
    is of those 64 bytes, not of 2 * 3: the monitor that expects two bytes
    per sample of the allocation refuses the run. *)
Lemma appended_bytes_are_not_twice_the_samples :
  let tr := emitted (boot Demo.song) (@FFMPEG_decode _ Probe.padded 10 (boot Demo.song)) in
  nth_error tr 3 = Some (EvSamplesAlloc 1 3 64 8192 64) /\
  nth_error tr 4 = Some (EvConvert 3 3 3) /\
  nth_error tr 5 = Some (EvAppend (repeat x2a 64)) /\
  Z.of_nat (length (repeat x2a 64)) <> target_sample_width * target_channels * 3 /\
  run (append_step (fun _ nb => target_sample_width * target_channels * nb)) (0, 0) tr = None.
Proof.
  cbv zeta. split; [vm_compute; reflexivity|]. split; [vm_compute; reflexivity|].
  split; [vm_compute; reflexivity|]. split; [vm_compute; discriminate|].
  vm_compute. reflexivity.
Qed.

(** The starved decoder drains the three packets and the pump returns
    nothing. *)
Example starved_song_is_empty :
  exists s', @FFMPEG_decode _ Demo.starved 5 (boot Demo.song) = Ok [] s' /\
             is_eof s' = true /\ Demo.d_packets (world s') = [].
Proof. eexists. split; [|split]; vm_compute; reflexivity. Qed.


(** The song in a container that lists only video streams. *)
Example mute_song_is_refused :
  exists s', @read_audio_into_buffer _ Demo.mute 10 "test.ogg" (boot Demo.song) = Exit (-1) s' /\
             last (trace s') (EvFree 0) = EvStderr (DiagMsg no_audio_message).
Proof. eexists. split; vm_compute; reflexivity. Qed.

Lemma mute_ready_no_audio_stream : no_audio_stream Probe.mute_ready.
Proof.
  intros w ctx st par Hin Hpar. cbn in Hin. unfold Demo.video_only in Hin.
  apply in_map_iff in Hin. destruct Hin as [x [Hx _]]. subst st.
  cbn in Hpar. inversion Hpar. subst par. cbn. discriminate.
Qed.

Lemma mute_ready_setup_reaches_search : setup_reaches_search Probe.mute_ready.
Proof.
  refine (conj _ (conj _ (conj _ (conj _ _)))).
  - intros w buf size file r w' H. cbn in H. inversion H. discriminate.
  - intros w r w' H. cbn in H. inversion H. discriminate.
  - intros w ctx pb r ctx' w' H Hne. cbn in H. inversion H. subst.
    split; [reflexivity | exact Hne].
  - intros w ctx r w' H. cbn in H. inversion H. reflexivity.
  - intros w ctx st Hin. cbn in Hin. unfold Demo.video_only in Hin.
    apply in_map_iff in Hin. destruct Hin as [x [Hx _]]. subst st. discriminate.
Qed.

Lemma missing_audio_stream_is_reported_witness :
  no_audio_stream Probe.mute_ready /\
  let r := @read_audio_into_buffer _ Probe.mute_ready 10 "test.ogg" (boot Demo.song) in
  match r with
  | Ok _ _ | Fuel _ => False
  | Crash _ => ~ setup_reaches_search Probe.mute_ready
  | Exit code _ =>
      (exists q, run report_step (None, None) (emitted (boot Demo.song) r) = Some q /\
                 reported_exit code q) /\
      (setup_reaches_search Probe.mute_ready ->
       code = -1 /\
       exists pre, emitted (boot Demo.song) r = pre ++ [EvStderr (DiagMsg no_audio_message)])
  end.
Proof.
  split; [exact mute_ready_no_audio_stream|].
  apply (missing_audio_stream_is_reported (L := Probe.mute_ready) 10 "test.ogg"
           (boot Demo.song) mute_ready_no_audio_stream).
Defined.

(** The same run, by the theorem: it exits with -1, the message last. *)
Example mute_ready_song_is_refused :
  exists s', @read_audio_into_buffer _ Probe.mute_ready 10 "test.ogg" (boot Demo.song)
             = Exit (-1) s' /\
             last (trace s') (EvFree 0) = EvStderr (DiagMsg no_audio_message).
Proof. eexists. split; vm_compute; reflexivity. Qed.

(** * The rest of the program *)

Lemma to_int_small x : - 2 ^ 31 <= x < 2 ^ 31 -> to_int x = x.
Proof. intros H. unfold to_int. rewrite Z.mod_small by lia. lia. Qed.

Lemma to_long_small x : - 2 ^ 63 <= x < 2 ^ 63 -> to_long x = x.
Proof. intros H. unfold to_long. rewrite Z.mod_small by lia. lia. Qed.

(** ** The stream search (lines 184-196) *)
Section Search.

Context {World : Type} {L : Libav World}.

Lemma find_audio_stream_first strs i v (s : State World) :
  0 <= i -> i + Z.of_nat (length strs) <= 2 ^ 31 ->
  post (fun idx s' =>
          s' = s /\
          ((Forall (fun st => is_audio st = false) strs /\ idx = v) \/
           (exists k st par,
              nth_error strs k = Some st /\ codecpar st = Some par /\
              codec_type par = AVMEDIA_TYPE_AUDIO /\
              Forall (fun st' => is_audio st' = false) (firstn k strs) /\
              idx = i + Z.of_nat k)))
       (fun c s' =>
          c = StopCrash /\ s' = s /\
          exists k st,
            nth_error strs k = Some st /\ codecpar st = None /\
            Forall (fun st' => is_audio st' = false) (firstn k strs))
       (find_audio_stream strs i v s).
Proof.
  revert i. induction strs as [|st strs IH]; intros i Hi Hlen; cbn [find_audio_stream].
  - cbn. split; [reflexivity|]. left. split; [constructor | reflexivity].
  - cbn [length] in Hlen. destruct (codecpar st) as [par|] eqn:Hpar.
    + destruct (codec_type par =? AVMEDIA_TYPE_AUDIO) eqn:Ht.
      * cbn. split; [reflexivity|]. right. exists 0%nat, st, par.
        apply Z.eqb_eq in Ht. rewrite to_int_small by lia.
        repeat (split; [first [reflexivity | assumption | constructor]|]). lia.
      * assert (Hst : is_audio st = false) by (unfold is_audio; now rewrite Hpar).
        eapply post_mono; [apply (IH (i + 1)); lia | |].
        -- intros idx s' [Hs [[Hall Hv]|[k [st' [par' (Hk & Hp & Hc & Hall & Hidx)]]]]].
           ++ split; [exact Hs|]. left. split; [constructor; assumption | exact Hv].
           ++ split; [exact Hs|]. right. exists (S k), st', par'.
              repeat (split; [first [assumption | constructor; assumption]|]). lia.
        -- intros c s' (Hc & Hs & k & st' & Hk & Hp & Hall).
           split; [exact Hc|]. split; [exact Hs|]. exists (S k), st'.
           repeat (split; [first [assumption | constructor; assumption]|]).
           constructor; assumption.
    + cbn. split; [reflexivity|]. split; [reflexivity|]. exists 0%nat, st.
      repeat (split; [first [reflexivity | assumption]|]). constructor.
Qed.

End Search.

Section SearchExact.

Context {World : Type}.

Lemma find_audio_stream_exact strs i v (s : State World) :
  0 <= i -> i + Z.of_nat (length strs) <= 2 ^ 31 ->
  post (fun idx s' =>
          s' = s /\
          ((Forall passed_over strs /\ idx = v) \/
           (exists k st par,
              nth_error strs k = Some st /\ codecpar st = Some par /\
              codec_type par = AVMEDIA_TYPE_AUDIO /\
              Forall passed_over (firstn k strs) /\
              idx = i + Z.of_nat k)))
       (fun c s' =>
          c = StopCrash /\ s' = s /\
          exists k st,
            nth_error strs k = Some st /\ codecpar st = None /\
            Forall passed_over (firstn k strs))
       (find_audio_stream strs i v s).
Proof.
  revert i. induction strs as [|st strs IH]; intros i Hi Hlen; cbn [find_audio_stream].
  - cbn. split; [reflexivity|]. left. split; [constructor | reflexivity].
  - cbn [length] in Hlen. destruct (codecpar st) as [par|] eqn:Hpar.
    + destruct (codec_type par =? AVMEDIA_TYPE_AUDIO) eqn:Ht.
      * cbn. split; [reflexivity|]. right. exists 0%nat, st, par.
        apply Z.eqb_eq in Ht. rewrite to_int_small by lia.
        repeat (split; [first [reflexivity | assumption | constructor]|]). lia.
      * assert (Hst : passed_over st)
          by (exists par; split; [exact Hpar | apply Z.eqb_neq; exact Ht]).
        eapply post_mono; [apply (IH (i + 1)); lia | |].
        -- intros idx s' [Hs [[Hall Hv]|[k [st' [par' (Hk & Hp & Hc & Hall & Hidx)]]]]].
           ++ split; [exact Hs|]. left. split; [constructor; assumption | exact Hv].
           ++ split; [exact Hs|]. right. exists (S k), st', par'.
              repeat (split; [first [assumption | constructor; assumption]|]). lia.
        -- intros c s' (Hc & Hs & k & st' & Hk & Hp & Hall).
           split; [exact Hc|]. split; [exact Hs|]. exists (S k), st'.
           repeat (split; [first [assumption | constructor; assumption]|]).
           constructor; assumption.
    + cbn. split; [reflexivity|]. split; [reflexivity|]. exists 0%nat, st.
      repeat (split; [first [reflexivity | assumption]|]). constructor.
Qed.

Lemma passed_over_before (strs : list AVStream) k j st :
  Forall passed_over (firstn k strs) -> (j < k)%nat -> nth_error strs j = Some st ->
  passed_over st.
Proof.
  intros Hall Hjk Hj. rewrite Forall_forall in Hall. apply Hall.
  apply nth_error_In with (n := j). rewrite nth_error_firstn.
  destruct (Nat.ltb_spec j k); [exact Hj | lia].
Qed.

Lemma passed_over_all (strs : list AVStream) j st :
  Forall passed_over strs -> nth_error strs j = Some st -> passed_over st.
Proof.
  intros Hall Hj. rewrite Forall_forall in Hall. apply Hall.
  apply nth_error_In with (n := j). exact Hj.
Qed.

End SearchExact.

(** X1: the search for the audio stream is a search for the first one.  Run
    over a list of fewer than 2^31 streams from index [i], it leaves the
    state alone and never exits.  It yields [i + k] for the first position
    [k] that holds an audio stream, every stream before it having codec
    parameters of another kind, and the index it was started with ([-1] in
    the source) when every stream has codec parameters of another kind.  It
    crashes exactly when a stream without codec parameters comes before
    every audio stream: the source dereferences [codecpar] unchecked, so
    wherever such a stream is reached, the search crashes. *)
Theorem search_selects_first_audio_stream {World} strs i v (s : State World) :
  0 <= i -> i + Z.of_nat (length strs) <= 2 ^ 31 ->
  match find_audio_stream strs i v s with
  | Ok idx s' =>
      s' = s /\
      ((Forall passed_over strs /\ idx = v) \/
       (exists k st par,
          nth_error strs k = Some st /\ codecpar st = Some par /\
          codec_type par = AVMEDIA_TYPE_AUDIO /\
          Forall passed_over (firstn k strs) /\
          idx = i + Z.of_nat k))
  | Crash s' =>
      s' = s /\
      exists k st,
        nth_error strs k = Some st /\ codecpar st = None /\
        Forall passed_over (firstn k strs)
  | Exit _ _ | Fuel _ => False
  end /\
  (forall k st,
     nth_error strs k = Some st -> codecpar st = None ->
     Forall passed_over (firstn k strs) ->
     find_audio_stream strs i v s = Crash s).
Proof.
  intros Hi Hlen. pose proof (find_audio_stream_exact strs i v s Hi Hlen) as H.
  split.
  - destruct (find_audio_stream strs i v s); cbn [post] in H.
    + exact H.
    + destruct H as [H _]. discriminate H.
    + destruct H as [_ H]. exact H.
    + destruct H as [H _]. discriminate H.
  - intros k st Hk Hnone Hall.
    destruct (find_audio_stream strs i v s) as [idx s'|c s'|s'|s']; cbn [post] in H.
    + exfalso. destruct H as [_ [[Hall' _]|[k' [st' [par' (Hk' & Hp' & Hc' & Hall' & _)]]]]].
      * destruct (passed_over_all strs k st Hall' Hk) as [par [Hp _]]. congruence.
      * destruct (Nat.lt_trichotomy k k') as [Hlt|[Heq|Hgt]].
        -- destruct (passed_over_before strs k' k st Hall' Hlt Hk) as [par [Hp _]]. congruence.
        -- subst k'. congruence.
        -- destruct (passed_over_before strs k k' st' Hall Hgt Hk') as [par [Hp Hc]].
           congruence.
    + destruct H as [H _]. discriminate H.
    + destruct H as [_ [-> _]]. reflexivity.
    + destruct H as [H _]. discriminate H.
Qed.

(** A stream without codec parameters in front of the audio stream. *)
Example search_crashes_on_missing_parameters :
  find_audio_stream [mkStream None; Demo.audio] 0 (-1) (boot Demo.movie)
  = Crash (boot Demo.movie).
Proof. reflexivity. Qed.

Lemma search_selects_first_audio_stream_witness :
  0 <= 0 /\ 0 + Z.of_nat (length Probe.three_streams) <= 2 ^ 31 /\
  match find_audio_stream Probe.three_streams 0 (-1) (boot Demo.movie) with
  | Ok idx s' =>
      s' = boot Demo.movie /\
      ((Forall passed_over Probe.three_streams /\ idx = -1) \/
       (exists k st par,
          nth_error Probe.three_streams k = Some st /\ codecpar st = Some par /\
          codec_type par = AVMEDIA_TYPE_AUDIO /\
          Forall passed_over (firstn k Probe.three_streams) /\
          idx = 0 + Z.of_nat k))
  | Crash s' =>
      s' = boot Demo.movie /\
      exists k st,
        nth_error Probe.three_streams k = Some st /\ codecpar st = None /\
        Forall passed_over (firstn k Probe.three_streams)
  | Exit _ _ | Fuel _ => False
  end /\
  (forall k st,
     nth_error Probe.three_streams k = Some st -> codecpar st = None ->
     Forall passed_over (firstn k Probe.three_streams) ->
     find_audio_stream Probe.three_streams 0 (-1) (boot Demo.movie) = Crash (boot Demo.movie)).
Proof.
  split; [lia|]. split; [cbn; lia|].
  apply (search_selects_first_audio_stream Probe.three_streams 0 (-1) (boot Demo.movie));
    cbn; lia.
Defined.

(** ** What read_audio_into_buffer releases, and when *)

Lemma teardown_calls_app d l : teardown_calls (d ++ l) = teardown_calls d ++ teardown_calls l.
Proof. unfold teardown_calls. apply flat_map_app. Qed.

Section Held.

Context {World : Type} {L : Libav World}.
Variable tr0 : list event.

Lemma held_emit e (s : State World) :
  teardown_calls [e] = [] -> held tr0 s -> held tr0 (emit e s).
Proof.
  intros He [d [Hd Ht]]. exists (d ++ [e]). cbn [trace emit].
  rewrite Hd, <- app_assoc, teardown_calls_app, Ht, He. auto.
Qed.

Lemma FFMPEG_decode_held fuel (s : State World) :
  held tr0 s -> post (fun _ => held tr0) (fun _ => held tr0) (FFMPEG_decode fuel s).
Proof.
  intros Hs.
  apply (preserved_FFMPEG_decode (held tr0)) with (I0 := held tr0); trivial.
  - intros d s1. apply held_emit. reflexivity.
  - intros s1 H. unfold do_av_read_frame.
    destruct (av_read_frame _ _) as [[r p] w]. apply held_emit; [reflexivity|exact H].
  - intros s1 H. unfold do_avcodec_send_packet.
    destruct (avcodec_send_packet _ _) as [r w]. apply held_emit; [reflexivity|exact H].
  - intros s1 H. unfold do_avcodec_receive_frame.
    destruct (avcodec_receive_frame _ _) as [[r f] w]. apply held_emit; [reflexivity|exact H].
  - intros nb s1 H. unfold do_av_samples_alloc.
    destruct (av_samples_alloc _ _ _ _ _ _ _) as [[[r p] ls] w].
    apply held_emit; [reflexivity|exact H].
  - intros nb s1 H. unfold do_swr_convert.
    destruct (swr_convert _ _ _ _ _) as [r w]. apply held_emit; [reflexivity|exact H].
  - intros s1 H. unfold buffer_insert_cend. apply held_emit; [reflexivity|exact H].
  - intros s1 H. unfold do_av_packet_alloc. destruct (av_packet_alloc _) as [p w]. exact H.
  - intros s1 H. unfold do_av_frame_alloc. destruct (av_frame_alloc _) as [[p f] w]. exact H.
Qed.

Ltac held_settle H :=
  let d := fresh "d" in
  let Hd := fresh "Hd" in
  let Ht := fresh "Ht" in
  destruct H as [d [Hd Ht]]; st_simpl;
  eexists; split;
  [ rewrite Hd, <- ?app_assoc; reflexivity
  | rewrite ?teardown_calls_app, ?Ht; reflexivity ].

Lemma read_audio_into_buffer_held fuel filename (s : State World) :
  tr0 = trace s ->
  post (fun _ s' => exists d, trace s' = tr0 ++ d /\ teardown_calls d = teardown_order)
       (fun _ => held tr0)
       (read_audio_into_buffer fuel filename s).
Proof.
  intros Htr.
  assert (Hs : held tr0 s) by (exists []; rewrite app_nil_r; auto).
  unfold read_audio_into_buffer. wp.
  all: try (unfold held; held_settle Hs).
  all: eapply post_mono;
    [apply find_audio_stream_pure | | intros c s1 [-> ->]; unfold held; held_settle Hs].
  all: intros idx s1 ->; cbn beta; wp; try (unfold held; held_settle Hs).
  all: destruct (nth_error _ _) as [pStream|]; [|wp; unfold held; held_settle Hs].
  all: destruct (codecpar pStream) as [pCodecParams|]; wp; try (unfold held; held_settle Hs).
  all: eapply post_mono; [apply FFMPEG_decode_held; unfold held; held_settle Hs | | auto].
  all: intros decoded s2 Hs2; cbn beta; wp; held_settle Hs2.
Qed.

End Held.

(** X2: read_audio_into_buffer releases what it acquired only at its very
    end.  A run that returns has made the six release calls of lines
    243-250, each once and in the order of the source (avio_context_free,
    fclose, swr_close, avformat_close_input, avcodec_free_context,
    avformat_free_context); a run that stops short, through any of the exit
    calls of format_av_error or a null dereference, has made none of them:
    the file, the I/O context, the format and codec contexts and the
    resampler it had by then are all left open. *)
Theorem releases_only_on_return {World} {L : Libav World} fuel filename (s : State World) :
  let r := read_audio_into_buffer fuel filename s in
  teardown_calls (emitted s r) =
  match r with Ok _ _ => teardown_order | _ => [] end.
Proof.
  intros r. pose proof (read_audio_into_buffer_held (trace s) fuel filename s eq_refl) as H.
  fold r in H.
  destruct r as [b s'|c s'|s'|s'] eqn:Er; cbn [post] in H; destruct H as [d [Hd Ht]].
  - now rewrite (emitted_app s (Ok b s') d Hd).
  - now rewrite (emitted_app s (Exit (A:=SoundData) c s') d Hd).
  - now rewrite (emitted_app s (Crash (A:=SoundData) s') d Hd).
  - now rewrite (emitted_app s (Fuel (A:=SoundData) s') d Hd).
Qed.

(** ** What read_audio_into_buffer returns *)
Section Sound.

Context {World : Type} {L : Libav World}.
Variable strs : list AVStream.
Hypothesis Hlist : listing_is L strs.
Hypothesis Hlen : Z.of_nat (length strs) <= 2 ^ 31.

Lemma FFMPEG_decode_buffer fuel (s : State World) :
  post (fun b s' => b = buffer s') (fun _ _ => True) (FFMPEG_decode fuel s).
Proof.
  destruct (FFMPEG_decode fuel s) as [b s'| | |] eqn:E; cbn [post]; trivial.
  eapply FFMPEG_decode_returns_buffer, E.
Qed.

Lemma read_audio_into_buffer_sound fuel filename (s : State World) :
  post (fun sd s' =>
          sd_channels sd = 1 /\ sd_buffer sd = buffer s' /\
          exists k st par,
            nth_error strs k = Some st /\ codecpar st = Some par /\
            codec_type par = AVMEDIA_TYPE_AUDIO /\
            Forall (fun st' => is_audio st' = false) (firstn k strs) /\
            sd_sample_rate sd = sample_rate par)
       (fun _ _ => True)
       (read_audio_into_buffer fuel filename s).
Proof.
  unfold read_audio_into_buffer. wp; try exact I.
  all: rewrite Hlist.
  all: eapply post_mono;
    [apply (find_audio_stream_first strs 0 (-1)); [lia | lia] | | intros; exact I].
  all: intros idx s1 [-> Hidx]; cbn beta; wp; try exact I.
  all: destruct Hidx as [[_ ->]|[k [st [par (Hk & Hp & Hc & Hall & ->)]]]];
    [match goal with H : (?x =? ?x) = false |- _ => rewrite Z.eqb_refl in H; discriminate H end|].
  all: rewrite Z.add_0_l, Nat2Z.id, ?Hlist, Hk, Hp; wp; try exact I.
  all: eapply post_mono; [apply FFMPEG_decode_buffer | | intros; exact I].
  all: intros decoded s2 ->; cbn beta; wp.
  all: split; [reflexivity|]; split; [reflexivity|].
  all: exists k, st, par; auto.
Qed.

End Sound.

(** X3: what a run of read_audio_into_buffer that returns hands to main.
    With a container that lists the streams [strs] (fewer than 2^31 of
    them), the sound it returns has one channel, whatever the channel count
    of the stream, its sample rate is the sample rate of the first audio
    stream of the list, every stream before that one being of another kind,
    and its buffer is the buffer the pump ended with. *)
Theorem returned_sound_is_of_first_audio_stream {World} {L : Libav World}
    (strs : list AVStream) fuel filename (s : State World) :
  listing_is L strs -> Z.of_nat (length strs) <= 2 ^ 31 ->
  match read_audio_into_buffer fuel filename s with
  | Ok sd s' =>
      sd_channels sd = 1 /\ sd_buffer sd = buffer s' /\
      exists k st par,
        nth_error strs k = Some st /\ codecpar st = Some par /\
        codec_type par = AVMEDIA_TYPE_AUDIO /\
        Forall (fun st' => is_audio st' = false) (firstn k strs) /\
        sd_sample_rate sd = sample_rate par
  | _ => True
  end.
Proof.
  intros Hlist Hlen.
  pose proof (read_audio_into_buffer_sound strs Hlist Hlen fuel filename s) as H.
  destruct (read_audio_into_buffer fuel filename s); cbn [post] in H; auto.
Qed.

(** A film with a video stream and two audio streams: the sound is that of
    stream 1, at 48000 Hz. *)
Example movie_sound :
  exists s', @read_audio_into_buffer _ Probe.fixed 10 "test.ogg" (boot Demo.movie) =
             Ok (mkSound (repeat x2a 10) 48000 1) s'.
Proof. eexists. vm_compute. reflexivity. Qed.

Lemma returned_sound_is_of_first_audio_stream_witness :
  listing_is Probe.fixed Probe.three_streams /\
  Z.of_nat (length Probe.three_streams) <= 2 ^ 31 /\
  match @read_audio_into_buffer _ Probe.fixed 10 "test.ogg" (boot Demo.movie) with
  | Ok sd s' =>
      sd_channels sd = 1 /\ sd_buffer sd = buffer s' /\
      exists k st par,
        nth_error Probe.three_streams k = Some st /\ codecpar st = Some par /\
        codec_type par = AVMEDIA_TYPE_AUDIO /\
        Forall (fun st' => is_audio st' = false) (firstn k Probe.three_streams) /\
        sd_sample_rate sd = sample_rate par
  | _ => True
  end.
Proof.
  assert (Hlist : listing_is Probe.fixed Probe.three_streams) by (intros w ctx; reflexivity).
  assert (Hlen : Z.of_nat (length Probe.three_streams) <= 2 ^ 31) by (cbn; lia).
  split; [exact Hlist|]. split; [exact Hlen|].
  apply (returned_sound_is_of_first_audio_stream (L := Probe.fixed) Probe.three_streams
           10 "test.ogg" (boot Demo.movie) Hlist Hlen).
Defined.

(** ** How the pump leaves its loop *)
Section Break.

Context {World : Type} {L : Libav World}.

Lemma not_unhandable_nonneg r :
  unhandable r = false -> r <> AVERROR EAGAIN -> r <> AVERROR_EOF -> 0 <= r.
Proof.
  intros Hu H1 H2. destruct (Z.ltb_spec r 0) as [Hlt|Hge]; [|exact Hge].
  assert (unhandable r = true) by (apply unhandable_spec; auto).
  congruence.
Qed.

Lemma retry_loop_break fuel (s : State World) :
  is_eof s = false ->
  post (fun _ s' =>
          if is_eof s'
          then exists pre p, trace s' = pre ++ [EvReadFrame AVERROR_EOF p]
          else True)
       (fun _ _ => True) (retry_loop fuel s).
Proof.
  revert s. induction fuel as [|fuel IH]; intros s Heof; [exact I|].
  cbn [retry_loop]. wp; try exact I.
  all: try (apply IH; exact Heof).
  all: try (rewrite Heof; exact I).
  bools. subst. eexists. eexists. reflexivity.
Qed.

Lemma resample_frame_break (s : State World) :
  is_eof s = false ->
  post (fun brk s' =>
          is_eof s' = false /\
          if brk : bool
          then exists pre n r, trace s' = pre ++ [EvConvert n n r] /\
                               (r = AVERROR EAGAIN \/ r = AVERROR_EOF)
          else 0 <= error_result s')
       (fun _ _ => True) (resample_frame s).
Proof.
  intros Heof. unfold resample_frame. wp; try exact I.
  all: split; [exact Heof|].
  all: bools.
  all: try (eexists; eexists; eexists; split; [reflexivity | auto]).
  all: try (apply not_unhandable_nonneg; assumption).
  all: try lia.
Qed.

Lemma pump_loop_break fuel (s : State World) :
  at_loop_head s -> post (fun _ => left_by_break) (fun _ _ => True) (pump_loop fuel s).
Proof.
  revert s. induction fuel as [|fuel IH]; intros s [He Heof]; [exact I|].
  cbn [pump_loop]. wp.
  - eapply post_mono; [apply retry_loop_break, Heof | | auto].
    intros [] s1 Hs1. cbn beta. wp.
    + left. split; assumption.
    + eapply post_mono; [apply resample_frame_break; assumption | | auto].
      intros brk s2 [Heof2 Hs2]. cbn beta. destruct brk; wp.
      * right. exact Hs2.
      * apply IH. split; assumption.
  - exfalso. rewrite Heof in *. apply Z.leb_le in He.
    match goal with H : _ && _ = false |- _ => rewrite He in H; discriminate H end.
Qed.

Lemma FFMPEG_decode_break fuel (s : State World) :
  post (fun _ => left_by_break) (fun _ _ => True) (FFMPEG_decode fuel s).
Proof.
  unfold FFMPEG_decode. wp; try exact I.
  eapply post_mono; [apply pump_loop_break | | auto].
  - split; [cbn; lia | reflexivity].
  - intros [] s1 Hs1. cbn beta. wp. exact Hs1.
Qed.

(** The test that guards the check of line 111. *)
Lemma resample_frame_masks_receive e (s : State World) :
  frame s <> nullptr -> nb_samples (frame_obj s) <> last_nb_samples s ->
  resample_frame (set_error_result e s) = resample_frame s.
Proof.
  intros Hf Hnb. apply Z.eqb_neq in Hf, Hnb.
  unfold resample_frame, bind, frame_nb_samples, gets.
  cbn [frame frame_obj last_nb_samples set_error_result]. rewrite Hf.
  cbn [frame frame_obj last_nb_samples set_error_result]. rewrite Hnb. cbn [negb].
  unfold do_av_samples_alloc.
  cbn [world pBufferData line_size set_error_result].
  destruct (av_samples_alloc _ _ _ _ _ _ _) as [[[r p] ls] w]. reflexivity.
Qed.

Lemma resample_frame_checks_receive (s : State World) :
  frame s <> nullptr -> nb_samples (frame_obj s) = last_nb_samples s ->
  unhandable (error_result s) = true ->
  resample_frame s = Exit (error_result s) (emit (EvStderr (DiagCode (error_result s))) s).
Proof.
  intros Hf Hnb Hu. apply Z.eqb_neq in Hf. apply Z.eqb_eq in Hnb.
  unfold resample_frame, bind, frame_nb_samples, gets, pure.
  rewrite Hf, Hnb. cbn [negb]. unfold format_av_error. rewrite Hu. reflexivity.
Qed.

End Break.

(** X4: the pump returns only through one of its two [break]s; the loop
    condition [error_result >= 0 && !is_eof] never ends the loop.  In every
    run of the pump that returns, either the last thing the pump did is a
    read in the retry loop that reported AVERROR_EOF (and [is_eof] is set),
    or it is a call of swr_convert that returned AVERROR(EAGAIN) or
    AVERROR_EOF. *)
Theorem pump_returns_only_through_break {World} {L : Libav World} fuel (s : State World) :
  match FFMPEG_decode fuel s with
  | Ok _ s' => left_by_break s'
  | _ => True
  end.
Proof.
  pose proof (FFMPEG_decode_break fuel s) as H.
  destruct (FFMPEG_decode fuel s); cbn [post] in H; auto.
Qed.

(** X5: the result of avcodec_receive_frame is looked at only when the
    frame it delivered has the sample count of the frame before.  With a
    frame of another sample count, av_samples_alloc overwrites
    [error_result] before the check of line 111: what one turn of the loop
    does from there on does not depend on what the decoder returned.  With
    a frame of the same sample count the check of line 111 sees the
    decoder's result, and an error other than the two signals exits with
    it, before swr_convert is called. *)
Theorem receive_result_checked_only_without_realloc {World} {L : Libav World}
    (s : State World) :
  frame s <> nullptr ->
  (nb_samples (frame_obj s) <> last_nb_samples s ->
   forall e, resample_frame (set_error_result e s) = resample_frame s) /\
  (nb_samples (frame_obj s) = last_nb_samples s ->
   unhandable (error_result s) = true ->
   resample_frame s = Exit (error_result s) (emit (EvStderr (DiagCode (error_result s))) s)).
Proof.
  intros Hf. split.
  - intros Hnb e. apply resample_frame_masks_receive; assumption.
  - intros Hnb Hu. apply resample_frame_checks_receive; assumption.
Qed.

Lemma receive_result_checked_only_without_realloc_witness :
  let s := mkState Demo.song [] (-22) nullptr 0 0 false [] (mkPacket 0 0) 64 (mkFrame 3 1) in
  frame s <> nullptr /\
  (nb_samples (frame_obj s) <> last_nb_samples s ->
   forall e, resample_frame (set_error_result e s) = resample_frame s) /\
  (nb_samples (frame_obj s) = last_nb_samples s ->
   unhandable (error_result s) = true ->
   resample_frame s = Exit (error_result s) (emit (EvStderr (DiagCode (error_result s))) s)).
Proof.
  intros s.
  assert (Hf : frame s <> nullptr) by (cbn; discriminate).
  split; [exact Hf|].
  apply (receive_result_checked_only_without_realloc (L := Demo.lib) s Hf).
Defined.

(** ** A decoder that has ended *)
Section Ended.

Context {World : Type} {L : Libav World}.
Hypothesis Hend : decoder_ended L.
Hypothesis Hconv : resampler_succeeds L.

Lemma EOF_not_EAGAIN : AVERROR_EOF <> AVERROR EAGAIN.
Proof. rewrite AVERROR_EOF_value, AVERROR_EAGAIN_value. discriminate. Qed.

Lemma retry_loop_ended fuel (s : State World) :
  0 <= error_result s -> is_eof s = false ->
  post (fun _ s' => is_eof s' = false /\ frame s' = frame s) ended_stop (retry_loop fuel s).
Proof.
  intros He Heof. destruct fuel as [|fuel]; [exact I|].
  cbn [retry_loop]. wp.
  all: bools.
  all: try (exfalso; pose proof AVERROR_EAGAIN_value; lia).
  - exfalso.
    match goal with H : avcodec_receive_frame _ _ = _ |- _ => apply Hend in H end.
    subst. now apply EOF_not_EAGAIN.
  - split; [exact Heof | reflexivity].
Qed.

Lemma resample_frame_ended (s : State World) :
  is_eof s = false ->
  post (fun brk s' => brk = false /\ at_loop_head s') ended_stop (resample_frame s).
Proof.
  intros Heof. unfold resample_frame. wp.
  all: try assumption.
  all: try (bools; assumption).
  all: try match goal with H : swr_convert _ _ _ _ _ = _ |- _ => apply Hconv in H end.
  all: bools.
  all: try (exfalso; pose proof AVERROR_EAGAIN_value; pose proof AVERROR_EOF_value; lia).
  all: try (split; [reflexivity | split; assumption]).
Qed.

Lemma pump_loop_ended fuel (s : State World) :
  at_loop_head s -> post (fun _ _ => False) ended_stop (pump_loop fuel s).
Proof.
  revert s. induction fuel as [|fuel IH]; intros s [He Heof]; [exact I|].
  cbn [pump_loop]. wp.
  - eapply post_mono; [apply retry_loop_ended; assumption | | auto].
    intros [] s1 [Heof1 _]. cbn beta. wp.
    + rewrite Heof1 in *. discriminate.
    + eapply post_mono; [apply resample_frame_ended; assumption | | auto].
      intros brk s2 [-> Hs2]. cbn beta. wp. apply IH, Hs2.
  - rewrite Heof in *. apply Z.leb_le in He.
    match goal with H : _ && _ = false |- _ => rewrite He in H; discriminate H end.
Qed.

Lemma FFMPEG_decode_ended fuel (s : State World) :
  post (fun _ _ => False) ended_stop (FFMPEG_decode fuel s).
Proof.
  unfold FFMPEG_decode. wp; try assumption.
  eapply post_mono; [apply pump_loop_ended | | auto].
  - split; [cbn; lia | reflexivity].
  - intros [] s1 [].
Qed.

End Ended.

(** X6: a decoder that has ended does not end the pump.  With a decoder
    whose every avcodec_receive_frame reports AVERROR_EOF and a resampler
    that reports sample counts, no amount of fuel lets the pump return: the
    check of line 111 lets AVERROR_EOF pass, swr_convert overwrites it with
    a count, and the loop condition holds again, without a read that could
    see the end of the container.  The pump can only exit on a fatal code
    (of its first read or send, or of an av_samples_alloc), dereference a
    null frame, or run on. *)
Theorem ended_decoder_keeps_pump_running {World} {L : Libav World} fuel (s : State World) :
  decoder_ended L -> resampler_succeeds L ->
  match FFMPEG_decode fuel s with
  | Ok _ _ => False
  | Exit code _ => unhandable code = true
  | Crash s' => frame s' = nullptr
  | Fuel _ => True
  end.
Proof.
  intros Hend Hconv. pose proof (FFMPEG_decode_ended Hend Hconv fuel s) as H.
  destruct (FFMPEG_decode fuel s); cbn [post ended_stop] in H; auto.
Qed.

Lemma probe_decoder_ended : decoder_ended Probe.ended.
Proof.
  intros w f r f' w' H.
  cbv [avcodec_receive_frame Probe.ended Probe.lib_with Probe.ended_receive] in H.
  congruence.
Qed.

Lemma probe_resampler_succeeds : resampler_succeeds Probe.ended.
Proof.
  intros w p n f m r w' H.
  cbv [swr_convert Probe.ended Probe.lib_with Demo.lib Demo.lib_gen] in H.
  apply pair_equal_spec in H. destruct H as [H _]. subst r.
  destruct (Demo.d_short w); lia.
Qed.

(** The song, played to an ended decoder: the pump is still running when
    it is cut, however late. *)
Example ended_song_runs_on :
  exists s', @FFMPEG_decode _ Probe.ended 50 (boot Demo.song) = Fuel s'.
Proof. eexists. vm_compute. reflexivity. Qed.

Lemma ended_decoder_keeps_pump_running_witness :
  decoder_ended Probe.ended /\ resampler_succeeds Probe.ended /\
  match @FFMPEG_decode _ Probe.ended 50 (boot Demo.song) with
  | Ok _ _ => False
  | Exit code _ => unhandable code = true
  | Crash s' => frame s' = nullptr
  | Fuel _ => True
  end.
Proof.
  split; [exact probe_decoder_ended|]. split; [exact probe_resampler_succeeds|].
  apply (ended_decoder_keeps_pump_running (L := Probe.ended) 50 (boot Demo.song)
           probe_decoder_ended probe_resampler_succeeds).
Defined.

(** ** The pump ends when there is only so much to do *)
Section Progress.

Context {World : Type} {L : Libav World}.
Variable work : World -> nat.
Variable burst : nat.
Hypothesis Hprog : pump_progresses L work burst.

Ltac progress_facts :=
  destruct Hprog as (Hpa & Hfa & Hrd & Hsd & Hrc & Hal & Hcv);
  repeat match goal with
  | H : av_packet_alloc _ = _ |- _ => apply Hpa in H
  | H : av_frame_alloc _ = _ |- _ => apply Hfa in H
  | H : av_read_frame _ _ = _ |- _ => apply Hrd in H; destruct H as [? [?|[?|?]]]
  | H : avcodec_send_packet _ _ = _ |- _ => apply Hsd in H
  | H : avcodec_receive_frame _ _ = _ |- _ => apply Hrc in H; destruct H as [? [?|?]]
  | H : av_samples_alloc _ _ _ _ _ _ _ = _ |- _ => apply Hal in H
  | H : swr_convert _ _ _ _ _ = _ |- _ => apply Hcv in H
  end.

Ltac clash :=
  match goal with
  | H1 : ?x = ?y, H2 : ?x <> ?y |- _ => exact (False_ind _ (H2 H1))
  | H1 : ?c = true, H2 : ?c = false |- _ => rewrite H1 in H2; discriminate H2
  end.

Lemma retry_loop_progress fuel (s : State World) :
  fuel_covers work fuel s -> is_eof s = false ->
  post (fun _ s' => is_eof s' = true \/
                    (is_eof s' = false /\ (work (world s') < work (world s))%nat))
       progress_stop (retry_loop fuel s).
Proof.
  unfold fuel_covers. revert s. induction fuel as [|fuel IH]; intros s Hf Heof.
  { destruct (error_result s =? AVERROR EAGAIN); lia. }
  cbn [retry_loop]. wp.
  all: try assumption.
  all: try (left; reflexivity).
  all: try (eapply post_mono;
            [ apply IH; [st_simpl; use_tests|exact Heof]
            | intros ? ? [?|[? ?]]; [left; assumption | right; split; [assumption|st_simpl] ]
            | auto ]).
  all: try (right; split; [exact Heof|]).
  all: progress_facts; bools; try clash; try lia.
Qed.

Lemma resample_frame_progress (s : State World) :
  is_eof s = false ->
  post (fun brk s' => (work (world s') <= work (world s))%nat /\
                      (brk = false -> at_loop_head s'))
       progress_stop (resample_frame s).
Proof.
  intros Heof. unfold resample_frame. wp.
  all: try assumption.
  all: try (bools; assumption).
  all: try (split; [progress_facts; lia|]).
  all: try discriminate.
  all: intros _; bools; split; [|exact Heof].
  all: try (apply not_unhandable_nonneg; assumption).
  all: try lia.
Qed.

Lemma pump_loop_progress fuel (s : State World) :
  at_loop_head s -> (work (world s) + 1 < fuel)%nat ->
  post (fun _ _ => True) progress_stop (pump_loop fuel s).
Proof.
  revert s. induction fuel as [|fuel IH]; intros s [He Heof] Hf; [lia|].
  cbn [pump_loop]. wp; [|exact I].
  eapply post_mono; [apply retry_loop_progress; [|exact Heof] | | auto].
  - unfold fuel_covers. destruct (error_result s =? AVERROR EAGAIN) eqn:E; [|exact Hf].
    bools. pose proof AVERROR_EAGAIN_value. lia.
  - intros [] s1 Hs1. cbn beta. wp; [exact I|].
    destruct Hs1 as [Hs1|[_ Hs1]]; [discriminate Hs1|].
    eapply post_mono; [apply resample_frame_progress; assumption | | auto].
    intros brk s2 [Hw Hhead]. cbn beta. destruct brk; wp; [exact I|].
    apply IH; [apply Hhead; reflexivity | lia].
Qed.

Lemma FFMPEG_decode_progress fuel (s : State World) :
  (work (world s) + burst + 1 < fuel)%nat ->
  post (fun _ _ => True) progress_stop (FFMPEG_decode fuel s).
Proof.
  intros Hf. unfold FFMPEG_decode. wp; try assumption.
  eapply post_mono; [apply pump_loop_progress | | auto].
  - split; [cbn; lia | reflexivity].
  - st_simpl. progress_facts; lia.
  - intros [] s1 _. cbn beta. wp. exact I.
Qed.

End Progress.

(** X7: the pump ends when the work is bounded.  Let [work] measure what
    the libraries can still do: a read that delivers a packet lowers it by
    more than [burst], sending a packet raises it by at most [burst], a
    receive that does not ask for more input lowers it, and no call raises
    it otherwise.  Then the pump, given more fuel than the work at its start
    plus [burst + 1], is never cut, in the while loop or in the retry loop:
    it returns, exits on a fatal code, or dereferences a null frame. *)
Theorem pump_ends_when_work_is_bounded {World} {L : Libav World}
    (work : World -> nat) (burst : nat) fuel (s : State World) :
  pump_progresses L work burst ->
  (work (world s) + burst + 1 < fuel)%nat ->
  match FFMPEG_decode fuel s with
  | Ok _ _ => True
  | Exit code _ => unhandable code = true
  | Crash s' => frame s' = nullptr
  | Fuel _ => False
  end.
Proof.
  intros Hprog Hf. pose proof (FFMPEG_decode_progress work burst Hprog fuel s Hf) as H.
  destruct (FFMPEG_decode fuel s); cbn [post progress_stop] in H; auto.
Qed.

Lemma demo_pump_progresses : pump_progresses Demo.lib Probe.work 1.
Proof.
  unfold pump_progresses, Probe.work.
  cbv [av_packet_alloc av_frame_alloc av_read_frame avcodec_send_packet avcodec_receive_frame
       av_samples_alloc swr_convert Demo.lib Demo.lib_gen Demo.receive Demo.fresh].
  refine (conj _ (conj _ (conj _ (conj _ (conj _ (conj _ _)))))).
  all: intros w; intros.
  all: try destruct (Demo.d_packets w) as [|pk rest] eqn:Hp.
  all: try destruct (Demo.d_queue w) as [|n q] eqn:Hq.
  all: repeat match goal with
       | H : (_, _) = (_, _) |- _ => apply pair_equal_spec in H; destruct H
       end; subst.
  all: cbn [Demo.d_queue Demo.d_packets Demo.with_queue Demo.with_packets length].
  all: rewrite ?Hp, ?Hq, ?length_app; cbn [length]; try lia.
  all: split; try lia.
  all: try (left; reflexivity).
  all: right; try right; lia.
Qed.

Lemma pump_ends_when_work_is_bounded_witness :
  pump_progresses Demo.lib Probe.work 1 /\
  (Probe.work (world (boot Demo.song)) + 1 + 1 < 9)%nat /\
  match FFMPEG_decode 9 (boot Demo.song) with
  | Ok _ _ => True
  | Exit code _ => unhandable code = true
  | Crash s' => frame s' = nullptr
  | Fuel _ => False
  end.
Proof.
  assert (Hf : (Probe.work (world (boot Demo.song)) + 1 + 1 < 9)%nat) by (cbn; lia).
  split; [exact demo_pump_progresses|]. split; [exact Hf|].
  apply (pump_ends_when_work_is_bounded (L := Demo.lib) Probe.work 1 9 (boot Demo.song)
           demo_pump_progresses Hf).
Defined.

(** ** The byte source adapter *)
Section Adapter.

Variable FILE : Type.
Variable feof : FILE -> Z.
Variable fread : FILE -> Z -> Z * list byte * FILE.
Variable fseek : FILE -> Z -> Z -> Z * FILE.

Lemma ReadCallback_at_end file data_size :
  feof file <> 0 -> ReadCallback FILE feof fread file data_size = (AVERROR_EOF, [], file).
Proof. intros H. unfold ReadCallback. apply Z.eqb_neq in H. now rewrite H. Qed.

Lemma ReadCallback_before_end file data_size :
  feof file = 0 -> 0 <= fst (fst (fread file data_size)) < 2 ^ 31 ->
  ReadCallback FILE feof fread file data_size = fread file data_size.
Proof.
  intros H Hn. unfold ReadCallback. rewrite H. cbn [Z.eqb negb].
  destruct (fread file data_size) as [[n bytes] file']. cbn [fst] in Hn.
  now rewrite to_int_small by lia.
Qed.

End Adapter.

(** X8: the read callback reports the end of the file one call late.  It
    returns AVERROR_EOF exactly when the end-of-file indicator was already
    set before the call, and then without reading; otherwise it returns
    what fread returns (a count that fits an int): the read that hits the
    end of the file returns its short count, which may be 0, and only the
    call after it reports AVERROR_EOF. *)
Theorem read_callback_reports_end_one_call_late (FILE : Type) (feof : FILE -> Z)
    (fread : FILE -> Z -> Z * list byte * FILE) (file : FILE) (data_size : Z) :
  0 <= fst (fst (fread file data_size)) < 2 ^ 31 ->
  (fst (fst (ReadCallback FILE feof fread file data_size)) = AVERROR_EOF <-> feof file <> 0) /\
  (feof file <> 0 -> ReadCallback FILE feof fread file data_size = (AVERROR_EOF, [], file)) /\
  (feof file = 0 -> ReadCallback FILE feof fread file data_size = fread file data_size).
Proof.
  intros Hn. split; [|split].
  - split.
    + intros H Hz. rewrite (ReadCallback_before_end FILE feof fread file data_size Hz Hn) in H.
      rewrite AVERROR_EOF_value in H. lia.
    + intros H. now rewrite ReadCallback_at_end.
  - apply ReadCallback_at_end.
  - intros Hz. apply ReadCallback_before_end; assumption.
Qed.

Lemma read_callback_reports_end_one_call_late_witness :
  0 <= fst (fst (Stdio.fread Stdio.abc 8)) < 2 ^ 31 /\
  (fst (fst (ReadCallback Stdio.file Stdio.feof Stdio.fread Stdio.abc 8)) = AVERROR_EOF <->
   Stdio.feof Stdio.abc <> 0) /\
  (Stdio.feof Stdio.abc <> 0 ->
   ReadCallback Stdio.file Stdio.feof Stdio.fread Stdio.abc 8 = (AVERROR_EOF, [], Stdio.abc)) /\
  (Stdio.feof Stdio.abc = 0 ->
   ReadCallback Stdio.file Stdio.feof Stdio.fread Stdio.abc 8 = Stdio.fread Stdio.abc 8).
Proof.
  assert (Hn : 0 <= fst (fst (Stdio.fread Stdio.abc 8)) < 2 ^ 31) by (cbn; lia).
  split; [exact Hn|].
  apply (read_callback_reports_end_one_call_late Stdio.file Stdio.feof Stdio.fread
           Stdio.abc 8 Hn).
Defined.

(** ** The adapter over the reference byte source *)

Lemma skipn_firstn_rest {A} (l : list A) (p k : nat) :
  firstn k (skipn p l) ++ skipn (p + k) l = skipn p l.
Proof.
  rewrite Nat.add_comm, <- skipn_skipn. apply firstn_skipn.
Qed.

Lemma read_to_end_rest fuel n (f : Stdio.file) :
  0 < n < 2 ^ 31 -> Stdio.at_eof f = false ->
  0 <= Stdio.position f <= Stdio.size f ->
  Stdio.size f - Stdio.position f < n * (Z.of_nat fuel - 1) ->
  Probe.read_to_end fuel n f =
  Some (skipn (Z.to_nat (Stdio.position f)) (Stdio.contents f)).
Proof.
  intros Hn. revert f. induction fuel as [|fuel IH]; intros f Heof Hpos Hfuel; [nia|].
  cbn [Probe.read_to_end]. unfold ReadCallback at 1, Stdio.feof at 1.
  rewrite Heof. cbn [Z.eqb negb]. unfold Stdio.fread at 1.
  set (k := Z.min (Z.max 0 n) (Z.max 0 (Stdio.size f - Stdio.position f))).
  assert (Hk : k = Z.min n (Stdio.size f - Stdio.position f)) by (unfold k; lia).
  rewrite to_int_small by lia.
  assert (Hne : (k =? AVERROR_EOF) = false)
    by (apply Z.eqb_neq; rewrite AVERROR_EOF_value; lia).
  rewrite Hne.
  destruct (Z.ltb_spec k n) as [Hshort|Hfull].
  - (* the read that hits the end *)
    destruct fuel as [|fuel]; [nia|].
    cbn [Probe.read_to_end]. unfold ReadCallback at 1, Stdio.feof at 1.
    cbn [Stdio.at_eof Z.eqb negb]. rewrite Z.eqb_refl. rewrite app_nil_r.
    apply f_equal. apply firstn_all2. rewrite length_skipn.
    unfold Stdio.size in *. lia.
  - rewrite IH.
    + cbn [Stdio.position Stdio.contents]. apply f_equal.
      rewrite Z2Nat.inj_add by lia. apply skipn_firstn_rest.
    + reflexivity.
    + cbn [Stdio.position]. unfold Stdio.size in *. cbn [Stdio.contents]. lia.
    + cbn [Stdio.position]. unfold Stdio.size in *. cbn [Stdio.contents]. nia.
Qed.

(** X9: reading through the adapter delivers the file.  Over the reference
    byte source, a client that calls the read callback for [n] bytes at a
    time (0 < n < 2^31) until it reports AVERROR_EOF is given exactly the
    bytes from the read position to the end of the file, in order, nothing
    twice and nothing left out. *)
Theorem adapter_reads_the_rest_of_the_file fuel n (f : Stdio.file) :
  0 < n < 2 ^ 31 -> Stdio.at_eof f = false ->
  0 <= Stdio.position f <= Stdio.size f ->
  Stdio.size f - Stdio.position f < n * (Z.of_nat fuel - 1) ->
  Probe.read_to_end fuel n f =
  Some (skipn (Z.to_nat (Stdio.position f)) (Stdio.contents f)).
Proof. apply read_to_end_rest. Qed.

Lemma adapter_reads_the_rest_of_the_file_witness :
  0 < 2 < 2 ^ 31 /\ Stdio.at_eof Stdio.abc = false /\
  0 <= Stdio.position Stdio.abc <= Stdio.size Stdio.abc /\
  Stdio.size Stdio.abc - Stdio.position Stdio.abc < 2 * (Z.of_nat 3 - 1) /\
  Probe.read_to_end 3 2 Stdio.abc =
  Some (skipn (Z.to_nat (Stdio.position Stdio.abc)) (Stdio.contents Stdio.abc)).
Proof.
  assert (H1 : 0 < 2 < 2 ^ 31) by lia.
  assert (H2 : Stdio.at_eof Stdio.abc = false) by reflexivity.
  assert (H3 : 0 <= Stdio.position Stdio.abc <= Stdio.size Stdio.abc) by (cbn; lia).
  assert (H4 : Stdio.size Stdio.abc - Stdio.position Stdio.abc < 2 * (Z.of_nat 3 - 1))
    by (cbn; lia).
  split; [exact H1|]. split; [exact H2|]. split; [exact H3|]. split; [exact H4|].
  apply (adapter_reads_the_rest_of_the_file 3 2 Stdio.abc H1 H2 H3 H4).
Defined.

Lemma SeekCallback_status (f : Stdio.file) offset origin :
  fst (SeekCallback Stdio.file Stdio.fseek f offset origin) = 0 \/
  fst (SeekCallback Stdio.file Stdio.fseek f offset origin) = -1.
Proof.
  unfold SeekCallback, Stdio.fseek.
  destruct (origin =? 65536); [right; reflexivity|].
  destruct (origin =? 0); [|destruct (origin =? 1); [|destruct (origin =? 2)]].
  all: try (right; reflexivity).
  all: match goal with |- context [if ?c then _ else _] => destruct c end; auto.
Qed.

(** X10: the seek callback answers with fseek's status, not with a
    position.  Over the reference byte source it returns 0 or -1 for every
    request.  A seek from the start of the file (SEEK_SET) to an offset
    inside the file returns 0, whatever the offset, also after the end of
    the file was reported; and it does move the read position: reading to
    the end afterwards delivers the file from that offset on. *)
Theorem seek_callback_returns_status fuel n (f : Stdio.file) k :
  0 < n < 2 ^ 31 -> 0 <= k <= Stdio.size f -> k < 2 ^ 63 ->
  Stdio.size f - k < n * (Z.of_nat fuel - 1) ->
  (forall offset origin,
     fst (SeekCallback Stdio.file Stdio.fseek f offset origin) = 0 \/
     fst (SeekCallback Stdio.file Stdio.fseek f offset origin) = -1) /\
  exists f',
    SeekCallback Stdio.file Stdio.fseek f k 0 = (0, f') /\
    Probe.read_to_end fuel n f' = Some (skipn (Z.to_nat k) (Stdio.contents f)).
Proof.
  intros Hn Hk Hk63 Hfuel. split; [apply SeekCallback_status|].
  exists (Stdio.mk (Stdio.contents f) k false). split.
  - unfold SeekCallback, Stdio.fseek. cbn [Z.eqb]. rewrite to_long_small by lia.
    cbn [Z.add]. destruct (Z.ltb_spec k 0); [lia | reflexivity].
  - rewrite read_to_end_rest; trivial.
Qed.

Lemma seek_callback_returns_status_witness :
  0 < 2 < 2 ^ 31 /\ 0 <= 2 <= Stdio.size Stdio.abc /\ 2 < 2 ^ 63 /\
  Stdio.size Stdio.abc - 2 < 2 * (Z.of_nat 3 - 1) /\
  (forall offset origin,
     fst (SeekCallback Stdio.file Stdio.fseek Stdio.abc offset origin) = 0 \/
     fst (SeekCallback Stdio.file Stdio.fseek Stdio.abc offset origin) = -1) /\
  exists f',
    SeekCallback Stdio.file Stdio.fseek Stdio.abc 2 0 = (0, f') /\
    Probe.read_to_end 3 2 f' = Some (skipn (Z.to_nat 2) (Stdio.contents Stdio.abc)).
Proof.
  assert (H1 : 0 < 2 < 2 ^ 31) by lia.
  assert (H2 : 0 <= 2 <= Stdio.size Stdio.abc) by (cbn; lia).
  assert (H3 : 2 < 2 ^ 63) by lia.
  assert (H4 : Stdio.size Stdio.abc - 2 < 2 * (Z.of_nat 3 - 1)) by (cbn; lia).
  split; [exact H1|]. split; [exact H2|]. split; [exact H3|]. split; [exact H4|].
  apply (seek_callback_returns_status 3 2 Stdio.abc 2 H1 H2 H3 H4).
Defined.

(** ** Null pointers *)
Section Null.

Context {World : Type} {L : Libav World}.
Variable tr0 : list event.
Variable strict : bool.

Ltac null_settle H :=
  cbn [null_stop]; unfold null_free in *; st_simpl; extends H.

Lemma retry_loop_null fuel (s : State World) :
  null_free tr0 strict s ->
  post (fun _ => null_free tr0 strict) (null_stop tr0 strict) (retry_loop fuel s).
Proof.
  revert s. induction fuel as [|fuel IH]; intros s Hs; [exact Hs|].
  cbn [retry_loop]. wp.
  all: try (apply IH).
  all: null_settle Hs.
Qed.

Lemma resample_frame_null (s : State World) :
  null_free tr0 strict s ->
  post (fun _ => null_free tr0 strict) (null_stop tr0 strict) (resample_frame s).
Proof.
  intros Hs. unfold resample_frame. wp.
  all: null_settle Hs.
Qed.

Lemma pump_loop_null fuel (s : State World) :
  null_free tr0 strict s ->
  post (fun _ => null_free tr0 strict) (null_stop tr0 strict) (pump_loop fuel s).
Proof.
  apply pump_loop_rule with (A := null_free tr0 strict); auto.
  - intros f s1 _. apply retry_loop_null.
  - intros s1 _ Hs1.
    eapply post_mono; [apply resample_frame_null, Hs1 | | auto].
    intros [] ? ?; auto.
Qed.

Lemma FFMPEG_decode_null fuel (s : State World) :
  null_free tr0 strict s ->
  post (fun _ => null_free tr0 strict) (null_stop tr0 strict) (FFMPEG_decode fuel s).
Proof.
  intros Hs. unfold FFMPEG_decode. wp.
  1-2: null_settle Hs.
  eapply post_mono; [apply pump_loop_null | | auto].
  - null_settle Hs.
  - intros [] s2 Hs2. cbn beta. wp. exact Hs2.
Qed.

Hypothesis Hstrict : strict = true -> listing_bounded L.

Lemma find_audio_stream_found strs (s : State World) :
  post (fun idx s' =>
          s' = s /\
          (Z.of_nat (length strs) <= 2 ^ 31 ->
           idx = -1 \/
           exists st par, nth_error strs (Z.to_nat idx) = Some st /\ codecpar st = Some par))
       (fun c s' => c = StopCrash /\ s' = s)
       (find_audio_stream strs 0 (-1) s).
Proof.
  destruct (Z_le_gt_dec (Z.of_nat (length strs)) (2 ^ 31)) as [Hlen|Hlen].
  - eapply post_mono; [apply (find_audio_stream_first strs 0 (-1)); lia | |].
    + intros idx s' [Hs' [[_ Hidx]|[k [st [par (Hk & Hp & _ & _ & Hidx)]]]]].
      * split; [exact Hs'|]. intros _. left. exact Hidx.
      * split; [exact Hs'|]. intros _. right. exists st, par.
        rewrite Hidx, Z.add_0_l, Nat2Z.id. split; assumption.
    + intros c s' (Hc & Hs' & _). split; assumption.
  - eapply post_mono; [apply find_audio_stream_pure | | auto].
    intros idx s' Hs'. split; [exact Hs'|]. intros Hle. exfalso. lia.
Qed.

Lemma read_audio_into_buffer_null fuel filename (s : State World) :
  tr0 = trace s ->
  post (fun _ => null_free tr0 strict) (null_stop tr0 strict)
       (read_audio_into_buffer fuel filename s).
Proof.
  intros Htr.
  assert (Hs : null_free tr0 strict s) by (subst tr0; apply tracks_start).
  unfold read_audio_into_buffer. wp.
  all: try null_settle Hs.
  all: eapply post_mono;
    [apply find_audio_stream_found | | intros c s1 [-> ->]; null_settle Hs].
  all: intros idx s1 [-> Hidx]; cbn beta; wp; try null_settle Hs.
  all: destruct (nth_error _ _) as [pStream|] eqn:Hnth; [|wp; null_settle Hs].
  all: destruct (codecpar pStream) as [pCodecParams|] eqn:Hpar; wp; try null_settle Hs.
  all: try (eapply post_mono; [apply FFMPEG_decode_null; null_settle Hs | | auto];
            intros decoded s2 Hs2; cbn beta; wp; null_settle Hs2).
  destruct strict; [exfalso|reflexivity].
  destruct Hidx as [Hidx|[st [par [Hst Hp]]]]; [apply (Hstrict eq_refl) | |].
  - subst idx. match goal with H : (?x =? ?x) = false |- _ =>
                 rewrite Z.eqb_refl in H; discriminate H end.
  - injection Hst as Hsame. rewrite <- Hsame, Hpar in Hp. discriminate Hp.
Qed.

End Null.

(** X11: what a null pointer does.  In every run of read_audio_into_buffer,
    a null pointer from avio_alloc_context, avcodec_find_decoder or
    avcodec_alloc_context3 is followed at once by that call's message and
    the exit; a null pointer from swr_alloc_set_opts is first handed to
    swr_init, and reported only then; each of the four messages is printed
    only after its call returned a null pointer.  A run ends in a diagnostic
    exactly when it calls exit. *)
Theorem null_pointers_are_reported_at_once {World} {L : Libav World} fuel filename
    (s : State World) :
  let r := read_audio_into_buffer fuel filename s in
  run (null_step false) NullFree (emitted s r) =
  Some (match exit_code r with Some _ => NullEnd | None => NullFree end).
Proof.
  intros r.
  pose proof (read_audio_into_buffer_null (trace s) false ltac:(discriminate)
                fuel filename s eq_refl) as H.
  fold r in H.
  destruct r as [b s'|c s'|s'|s'] eqn:Er; cbn [post null_stop exit_code] in *.
  - apply (tracks_emitted _ _ _ s (Ok b s')), H.
  - apply (tracks_emitted _ _ _ s (Exit (A:=SoundData) c s')), H.
  - apply (tracks_emitted _ _ _ s (Crash (A:=SoundData) s')), H.
  - apply (tracks_emitted _ _ _ s (Fuel (A:=SoundData) s')), H.
Qed.

Lemma null_message_differs c msg : null_message c = Some msg -> msg <> dead_message.
Proof. destruct c; cbn; intros H; inversion H; discriminate. Qed.

Lemma strict_run_is_quiet q tr q' :
  match q with NullReport msg => msg <> dead_message | _ => True end ->
  run (null_step true) q tr = Some q' ->
  ~ In (EvStderr (DiagMsg dead_message)) tr.
Proof.
  revert q. induction tr as [|e tr IH]; intros q Hq Hrun; [intros []|].
  cbn [run] in Hrun. destruct (null_step true q e) as [q1|] eqn:Hstep; [|discriminate].
  intros [He|Hin].
  - subst e. destruct q as [| |msg|]; cbn [null_step] in Hstep; try discriminate.
    destruct (String.eqb dead_message msg) eqn:Hm; [|discriminate].
    apply String.eqb_eq in Hm. apply Hq. symmetry. exact Hm.
  - refine (IH q1 _ Hrun Hin).
    destruct q1 as [| |msg|]; trivial.
    destruct q as [| |msg0|]; cbn in Hstep; [| | |discriminate].
    all: destruct e as [| | | | | | |c r|d]; try discriminate.
    all: try destruct c; try destruct d; cbn in Hstep; try discriminate.
    all: repeat match type of Hstep with
                | (if ?b then _ else _) = _ => destruct b
                end; try discriminate.
    all: injection Hstep as <-; discriminate.
Qed.

(** X12: the check of line 204 never fires.  With a container whose stream
    count fits an int, no run of read_audio_into_buffer prints "FFMPEG could
    not find audio stream!": the stream the search selected is one whose
    codec parameters the search has read, and without a selection line 199
    has exited before. *)
Theorem missing_parameters_are_never_reported {World} {L : Libav World} fuel filename
    (s : State World) :
  listing_bounded L ->
  ~ In (EvStderr (DiagMsg dead_message)) (emitted s (read_audio_into_buffer fuel filename s)).
Proof.
  intros Hb.
  pose proof (read_audio_into_buffer_null (trace s) true (fun _ => Hb)
                fuel filename s eq_refl) as H.
  destruct (read_audio_into_buffer fuel filename s) as [b s'|c s'|s'|s'] eqn:Er;
    cbn [post null_stop] in H.
  - apply (strict_run_is_quiet NullFree) with (q' := NullFree); [exact I|].
    apply (tracks_emitted _ _ _ s (Ok b s')), H.
  - apply (strict_run_is_quiet NullFree) with (q' := NullEnd); [exact I|].
    apply (tracks_emitted _ _ _ s (Exit (A:=SoundData) c s')), H.
  - apply (strict_run_is_quiet NullFree) with (q' := NullFree); [exact I|].
    apply (tracks_emitted _ _ _ s (Crash (A:=SoundData) s')), H.
  - apply (strict_run_is_quiet NullFree) with (q' := NullFree); [exact I|].
    apply (tracks_emitted _ _ _ s (Fuel (A:=SoundData) s')), H.
Qed.

Lemma demo_listing_bounded : listing_bounded Probe.fixed.
Proof. intros w ctx. cbn. lia. Qed.

Lemma missing_parameters_are_never_reported_witness :
  listing_bounded Probe.fixed /\
  ~ In (EvStderr (DiagMsg dead_message))
       (emitted (boot Demo.movie)
          (@read_audio_into_buffer _ Probe.fixed 10 "test.ogg" (boot Demo.movie))).
Proof.
  split; [exact demo_listing_bounded|].
  apply (missing_parameters_are_never_reported (L := Probe.fixed) 10 "test.ogg"
           (boot Demo.movie) demo_listing_bounded).
Defined.


(** ** sleep *)
Section Sleeping.

Variable Clock : Type.
Variable now : Clock -> Z * Clock.
Variable ticks_per_ms : Z.
Hypothesis Hticks : 0 < ticks_per_ms.

Lemma elapsed_ms_over msecs start_time current_time :
  0 <= msecs ->
  (msecs <? elapsed_ms ticks_per_ms start_time current_time) = true <->
  (msecs + 1) * ticks_per_ms <= current_time - start_time.
Proof.
  intros Hm. unfold elapsed_ms. rewrite Z.ltb_lt.
  split; intros H; Z.quot_rem_to_equations; nia.
Qed.

Lemma sleep_loop_late fuel msecs start_time c readings c' :
  0 <= msecs ->
  sleep_loop Clock now ticks_per_ms fuel msecs start_time c = Some (readings, c') ->
  exists earlier t,
    readings = earlier ++ [t] /\
    (msecs + 1) * ticks_per_ms <= t - start_time /\
    Forall (fun t' => t' - start_time < (msecs + 1) * ticks_per_ms) earlier.
Proof.
  intros Hm. revert c readings.
  induction fuel as [|fuel IH]; intros c readings Hr; [discriminate|].
  cbn [sleep_loop] in Hr. destruct (now c) as [t c1].
  destruct (msecs <? elapsed_ms ticks_per_ms start_time t) eqn:Ht.
  - inversion Hr; subst. exists [], t. split; [reflexivity|].
    split; [apply elapsed_ms_over; assumption | constructor].
  - destruct (sleep_loop Clock now ticks_per_ms fuel msecs start_time c1)
      as [[rest c2]|] eqn:Hrest; [|discriminate].
    inversion Hr; subst.
    destruct (IH c1 rest Hrest) as [earlier [t' (-> & Hlate & Hall)]].
    exists (t :: earlier), t'. split; [reflexivity|]. split; [exact Hlate|].
    constructor; [|exact Hall].
    destruct (Z.lt_ge_cases (t - start_time) ((msecs + 1) * ticks_per_ms)) as [Hlt|Hge];
      [exact Hlt|].
    apply elapsed_ms_over in Hge; [|exact Hm]. rewrite Hge in Ht. discriminate Ht.
Qed.

Variable step : Z.
Hypothesis Hstep : 0 < step.
Hypothesis Hadvance : forall c t c' t2 c2,
  now c = (t, c') -> now c' = (t2, c2) -> t + step <= t2.

Lemma sleep_loop_returns fuel msecs start_time c lo :
  0 <= msecs ->
  (forall t c', now c = (t, c') -> lo <= t) ->
  (msecs + 1) * ticks_per_ms + start_time - lo <= step * Z.of_nat fuel ->
  sleep_loop Clock now ticks_per_ms (S fuel) msecs start_time c <> None.
Proof.
  intros Hm. revert c lo. induction fuel as [|fuel IH]; intros c lo Hlo Hf.
  - cbn [sleep_loop]. destruct (now c) as [t c1] eqn:Hnow.
    pose proof (Hlo t c1 eq_refl) as Ht.
    assert (Hover : (msecs <? elapsed_ms ticks_per_ms start_time t) = true)
      by (apply elapsed_ms_over; [exact Hm | lia]).
    rewrite Hover. discriminate.
  - remember (S fuel) as f eqn:Hf'. cbn [sleep_loop].
    destruct (now c) as [t c1] eqn:Hnow. pose proof (Hlo t c1 eq_refl) as Ht.
    destruct (msecs <? elapsed_ms ticks_per_ms start_time t) eqn:Hover; [discriminate|].
    subst f.
    specialize (IH c1 (t + step)).
    destruct (sleep_loop Clock now ticks_per_ms (S fuel) msecs start_time c1)
      as [[rest c2]|]; [discriminate|].
    exfalso. apply IH; [| |reflexivity].
    + intros t2 c2 Hn. eapply Hadvance; eassumption.
    + lia.
Qed.

End Sleeping.

(** X13: sleep waits longer than it is asked to.  Whenever sleep(msecs)
    returns (msecs not negative, a clock of [ticks_per_ms] ticks to the
    millisecond), the last reading of the clock is at least [msecs + 1]
    whole milliseconds after the first one, and every reading before the
    last one is less: it returns at the first reading past the deadline. *)
Theorem sleep_returns_after_the_deadline (Clock : Type) (now : Clock -> Z * Clock)
    (ticks_per_ms : Z) fuel msecs c start_time readings c' :
  0 < ticks_per_ms -> 0 <= msecs ->
  sleep Clock now ticks_per_ms fuel msecs c = Some (start_time, readings, c') ->
  fst (now c) = start_time /\
  exists earlier t,
    readings = earlier ++ [t] /\
    (msecs + 1) * ticks_per_ms <= t - start_time /\
    Forall (fun t' => t' - start_time < (msecs + 1) * ticks_per_ms) earlier.
Proof.
  intros Hticks Hm Hr. unfold sleep in Hr. destruct (now c) as [t0 c1].
  destruct (sleep_loop Clock now ticks_per_ms fuel msecs t0 c1) as [[rs c2]|] eqn:Hl;
    [|discriminate].
  inversion Hr; subst. split; [reflexivity|].
  eapply sleep_loop_late; eassumption.
Qed.

Lemma sleep_returns_after_the_deadline_witness :
  0 < 1 /\ 0 <= 1000 /\
  sleep Z Probe.tick 1 5 1000 0 = Some (0, [400; 800; 1200], 1600) /\
  fst (Probe.tick 0) = 0 /\
  exists earlier t,
    [400; 800; 1200] = earlier ++ [t] /\
    (1000 + 1) * 1 <= t - 0 /\
    Forall (fun t' => t' - 0 < (1000 + 1) * 1) earlier.
Proof.
  assert (H1 : 0 < 1) by lia.
  assert (H2 : 0 <= 1000) by lia.
  assert (H3 : sleep Z Probe.tick 1 5 1000 0 = Some (0, [400; 800; 1200], 1600))
    by (vm_compute; reflexivity).
  split; [exact H1|]. split; [exact H2|]. split; [exact H3|].
  apply (sleep_returns_after_the_deadline Z Probe.tick 1 5 1000 0 0 [400; 800; 1200] 1600
           H1 H2 H3).
Defined.

(** X14: sleep returns when the clock advances.  If every reading of the
    clock is at least [step] ticks after the one before, sleep(msecs)
    returns after at most ceil((msecs + 1) * ticks_per_ms / step) readings
    in its loop. *)
Theorem sleep_returns_when_the_clock_advances (Clock : Type) (now : Clock -> Z * Clock)
    (ticks_per_ms step : Z) fuel msecs c :
  0 < ticks_per_ms -> 0 <= msecs -> 0 < step ->
  (forall c t c' t2 c2, now c = (t, c') -> now c' = (t2, c2) -> t + step <= t2) ->
  (msecs + 1) * ticks_per_ms <= step * Z.of_nat fuel ->
  sleep Clock now ticks_per_ms fuel msecs c <> None.
Proof.
  intros Hticks Hm Hstep Hadv Hf. unfold sleep.
  destruct (now c) as [t0 c1] eqn:Hnow.
  destruct fuel as [|fuel]; [cbn in Hf; nia|].
  pose proof (sleep_loop_returns Clock now ticks_per_ms Hticks step Hadv fuel msecs t0 c1
                (t0 + step) Hm) as H.
  destruct (sleep_loop Clock now ticks_per_ms (S fuel) msecs t0 c1) as [[rs c2]|];
    [discriminate|].
  exfalso. apply H; [| |reflexivity].
  - intros t c' Hn. eapply Hadv; eassumption.
  - lia.
Qed.

Lemma sleep_returns_when_the_clock_advances_witness :
  0 < 1 /\ 0 <= 1000 /\ 0 < 400 /\
  (forall c t c' t2 c2, Probe.tick c = (t, c') -> Probe.tick c' = (t2, c2) -> t + 400 <= t2) /\
  (1000 + 1) * 1 <= 400 * Z.of_nat 3 /\
  sleep Z Probe.tick 1 3 1000 0 <> None.
Proof.
  assert (H1 : 0 < 1) by lia.
  assert (H2 : 0 <= 1000) by lia.
  assert (H3 : 0 < 400) by lia.
  assert (H4 : forall c t c' t2 c2 : Z,
             Probe.tick c = (t, c') -> Probe.tick c' = (t2, c2) -> t + 400 <= t2).
  { unfold Probe.tick. intros c t c' t2 c2 Ha Hb.
    apply pair_equal_spec in Ha. apply pair_equal_spec in Hb. lia. }
  assert (H5 : (1000 + 1) * 1 <= 400 * Z.of_nat 3) by (cbn; lia).
  split; [exact H1|]. split; [exact H2|]. split; [exact H3|]. split; [exact H4|].
  split; [exact H5|].
  apply (sleep_returns_when_the_clock_advances Z Probe.tick 1 400 3 1000 0 H1 H2 H3 H4 H5).
Defined.

(** ** main *)

(** The song is decoded, handed over, played for three polls of three clock
    readings each, and everything is given back. *)
Example concert_plays :
  exists h',
    main 10 (mkHost Probe.concert []) = Went 0 h' /\
    decodes (h_trace h') <> [] /\
    al_releases (h_trace h') =
    [a_alDeleteSources; a_alDeleteBuffers; a_alcDestroyContext; a_alcCloseDevice].
Proof. eexists. split; [vm_compute; reflexivity|]. split; [discriminate | reflexivity]. Qed.

Section MainRules.

Context {World : Type} {L : Libav World} {AL : OpenAL World}.

Lemma went_bind {A B} (m : Prog World A) (k : A -> Prog World B) Q E h :
  went (fun a h' => went Q E (k a h')) E (m h) -> went Q E (p_bind m k h).
Proof. unfold p_bind. destruct (m h); simpl; auto. Qed.

Lemma went_mono {A} (Q Q' : A -> Host World -> Prop) (E E' : stop -> Host World -> Prop) r :
  went Q E r -> (forall a h, Q a h -> Q' a h) -> (forall c h, E c h -> E' c h) ->
  went Q' E' r.
Proof. destruct r; simpl; auto. Qed.

Lemma went_al_do c args (f : World -> Z * World) Q E (h : Host World) :
  (forall r w, f (h_world h) = (r, w) -> Q r (al_emit (AlCall c args r) w h)) ->
  went Q E (al_do c args f h).
Proof. intros H. unfold al_do. destruct (f (h_world h)) as [r w] eqn:Hf. apply H. reflexivity. Qed.

Lemma heard_app {A} (h : Host World) (r : outcome World A) d :
  h_trace (host_of r) = h_trace h ++ d -> heard h r = d.
Proof.
  intros H. unfold heard. now rewrite H, skipn_app, skipn_all, Nat.sub_diag.
Qed.

End MainRules.

Ltac host_simpl := cbn [h_world h_trace al_emit host_of] in *.

Ltac pwp_step :=
  lazymatch goal with
  | |- went _ _ (p_bind _ _ _) => apply went_bind
  | |- went _ _ (p_pure _ _) => cbn [p_pure went]
  | |- went _ _ (p_stop _ _) => cbn [p_stop went]
  | |- went _ _ (al_do _ _ _ _) => apply went_al_do; intros ? ? ?
  | |- went _ _ (al_void _ _ _ _) => cbn [al_void went]
  | |- went _ _ (cout _ _) => cbn [cout went]
  | |- went _ _ (do_alBufferData _ _ _ _ _ _) => cbn [do_alBufferData went]
  | |- went _ _ (do_alcGetString _ _ _) =>
      unfold do_alcGetString;
      destruct (alcGetString _ _ _) as [[?|] ?] eqn:?; cbn [went]
  | |- went _ _ (do_sleep _ _ _) =>
      unfold do_sleep;
      destruct (sleep _ _ _ _ _ _) as [[[? ?] ?]|] eqn:?; cbn [went]
  | |- went _ _ ((if ?c then _ else _) _) => destruct c eqn:?
  end; host_simpl.

Ltac pwp := repeat pwp_step.

(** ** The polling loop *)

Lemma al_run_app q tr1 tr2 :
  al_run q (tr1 ++ tr2) =
  match al_run q tr1 with Some q' => al_run q' tr2 | None => None end.
Proof.
  revert q; induction tr1 as [|e tr1 IH]; intros q; simpl; [reflexivity|].
  destruct (poll_step q e); [apply IH | reflexivity].
Qed.

Lemma al_run_quiet q tr q' :
  al_run q tr = Some q' ->
  al_releases tr = [] /\ decodes tr = [] /\
  Forall (fun e => match e with AlBufferData _ _ _ _ _ => False | _ => True end) tr.
Proof.
  revert q. induction tr as [|e tr IH]; intros q H; [repeat split; constructor|].
  cbn [al_run] in H. destruct (poll_step q e) as [q1|] eqn:Hstep; [|discriminate].
  destruct (IH q1 H) as (Hr & Hd & Hb).
  destruct q, e as [c args v| | |ms st rs|]; try discriminate Hstep.
  - split; [exact Hr|]. split; [exact Hd|]. constructor; [exact I|exact Hb].
  - destruct c; try discriminate Hstep.
    split; [exact Hr|]. split; [exact Hd|]. constructor; [exact I|exact Hb].
Qed.

Section Polling.

Context {World : Type} {L : Libav World} {AL : OpenAL World}.

Lemma do_sleep_late fuel msecs (h : Host World) :
  0 <= msecs ->
  went (fun _ h' =>
          exists start_time readings,
            h_trace h' = h_trace h ++ [AlSleep msecs start_time readings] /\
            slept_enough (Z.pos system_clock_ticks_per_ms)
              (AlSleep msecs start_time readings))
       (fun c h' => c = StopFuel /\ h' = h)
       (do_sleep fuel msecs h).
Proof.
  intros Hm. unfold do_sleep, sleep.
  destruct (system_clock_now (h_world h)) as [t0 c1].
  destruct (sleep_loop _ _ _ fuel msecs t0 c1) as [[rs c2]|] eqn:Hl; cbn [went];
    [|split; reflexivity].
  exists t0, rs. split; [reflexivity|]. cbn [slept_enough].
  destruct (sleep_loop_late World system_clock_now (Z.pos system_clock_ticks_per_ms)
              ltac:(lia) fuel msecs t0 c1 rs c2 Hm Hl) as [earlier [t (Hrs & Hlate & _)]].
  exists earlier, t. split; assumption.
Qed.

Lemma poll_loop_polls fuel al_source state (h : Host World) :
  went (fun st h' =>
          st <> AL_PLAYING /\
          exists d, h_trace h' = h_trace h ++ d /\ al_run PollSleep d = Some PollOver /\
                    Forall (slept_enough (Z.pos system_clock_ticks_per_ms)) d)
       (fun c h' =>
          c = StopFuel /\
          exists d, h_trace h' = h_trace h ++ d /\ al_run PollSleep d = Some PollSleep /\
                    Forall (slept_enough (Z.pos system_clock_ticks_per_ms)) d)
       (poll_loop fuel al_source state h).
Proof.
  revert state h. induction fuel as [|fuel IH]; intros state h.
  { cbn. split; [reflexivity|]. exists []. rewrite app_nil_r. repeat split. constructor. }
  cbn [poll_loop]. apply went_bind.
  eapply went_mono; [apply (do_sleep_late (S fuel) 1000 h); lia | |].
  - intros [] h1 [t0 [rs (Htr & Hlate)]]. cbn beta.
    set (e := AlSleep 1000 t0 rs) in *.
    assert (Hstep : poll_step PollSleep e = Some PollAsk) by reflexivity.
    pwp.
    + eapply went_mono; [apply IH | |].
      * intros st h2 [Hst [d (Hd & Hrun & Hall)]]. split; [exact Hst|].
        exists (e :: AlCall a_alGetSourcei [al_source; AL_SOURCE_STATE] r :: d).
        host_simpl. rewrite Hd, Htr, <- !app_assoc. split; [reflexivity|]. split.
        -- cbn [al_run]. rewrite Hstep. cbn [poll_step].
           match goal with H : (r =? AL_PLAYING) = true |- _ => rewrite H end. exact Hrun.
        -- constructor; [exact Hlate|]. constructor; [exact I|exact Hall].
      * intros c h2 [Hc [d (Hd & Hrun & Hall)]]. split; [exact Hc|].
        exists (e :: AlCall a_alGetSourcei [al_source; AL_SOURCE_STATE] r :: d).
        host_simpl. rewrite Hd, Htr, <- !app_assoc. split; [reflexivity|]. split.
        -- cbn [al_run]. rewrite Hstep. cbn [poll_step].
           match goal with H : (r =? AL_PLAYING) = true |- _ => rewrite H end. exact Hrun.
        -- constructor; [exact Hlate|]. constructor; [exact I|exact Hall].
    + split; [apply Z.eqb_neq; assumption|].
      exists [e; AlCall a_alGetSourcei [al_source; AL_SOURCE_STATE] r].
      rewrite Htr, <- app_assoc. split; [reflexivity|]. split.
      * cbn [al_run]. rewrite Hstep. cbn [poll_step].
        match goal with H : (r =? AL_PLAYING) = false |- _ => rewrite H end. reflexivity.
      * constructor; [exact Hlate|]. constructor; [exact I|constructor].
  - intros c h1 [-> ->]. split; [reflexivity|]. exists []. rewrite app_nil_r.
    repeat split. constructor.
Qed.

End Polling.

(** X15: main polls the source after every sleep, and stops at the first
    answer that is not AL_PLAYING.  In every run of the do-while of lines
    320-324 the events are a sleep of 1000 ms, a query of the source state,
    and so on in turn, beginning with a sleep; each sleep lasted more than
    1000 whole milliseconds; every query but the last was answered
    AL_PLAYING, and the loop ends after the first query answered otherwise,
    yielding that answer.  A run that is cut is about to sleep. *)
Theorem source_is_polled_after_each_sleep {World} {L : Libav World} {AL : OpenAL World}
    fuel al_source state (h : Host World) :
  let r := poll_loop fuel al_source state h in
  Forall (slept_enough (Z.pos system_clock_ticks_per_ms)) (heard h r) /\
  match r with
  | Went st _ => st <> AL_PLAYING /\ al_run PollSleep (heard h r) = Some PollOver
  | Stopped c _ => c = StopFuel /\ al_run PollSleep (heard h r) = Some PollSleep
  end.
Proof.
  intros r. pose proof (poll_loop_polls fuel al_source state h) as H. fold r in H.
  destruct r as [st h'|c h'] eqn:Er; cbn [went] in H.
  - destruct H as [Hst [d (Hd & Hrun & Hall)]].
    rewrite (heard_app h (Went st h') d Hd). auto.
  - destruct H as [Hc [d (Hd & Hrun & Hall)]].
    rewrite (heard_app h (Stopped (A:=Z) c h') d Hd). auto.
Qed.

(** ** What main hands to OpenAL *)
Section Assembled.

Context {World : Type} {L : Libav World}.
Variable tr0 : list event.

Lemma assembled_emit e (s : State World) :
  appended [e] = [] -> assembled tr0 s -> assembled tr0 (emit e s).
Proof.
  intros He [d [Hd Hb]]. exists (d ++ [e]). cbn [trace buffer emit].
  rewrite Hd, <- app_assoc, appended_app, He, app_nil_r. auto.
Qed.

Lemma FFMPEG_decode_assembled fuel (s : State World) :
  (exists d, trace s = tr0 ++ d /\ appended d = []) ->
  post (fun b s' => exists d, trace s' = tr0 ++ d /\ b = concat (appended d))
       (fun _ _ => True) (FFMPEG_decode fuel s).
Proof.
  intros Hs.
  assert (H : post (fun _ => assembled tr0) (fun _ => assembled tr0) (FFMPEG_decode fuel s)).
  { apply (preserved_FFMPEG_decode (assembled tr0))
      with (I0 := fun s => exists d, trace s = tr0 ++ d /\ appended d = []); trivial.
    - intros d s1. apply assembled_emit. reflexivity.
    - intros s1 H. unfold do_av_read_frame.
      destruct (av_read_frame _ _) as [[r p] w]. apply assembled_emit; [reflexivity|exact H].
    - intros s1 H. unfold do_avcodec_send_packet.
      destruct (avcodec_send_packet _ _) as [r w]. apply assembled_emit; [reflexivity|exact H].
    - intros s1 H. unfold do_avcodec_receive_frame.
      destruct (avcodec_receive_frame _ _) as [[r f] w].
      apply assembled_emit; [reflexivity|exact H].
    - intros nb s1 H. unfold do_av_samples_alloc.
      destruct (av_samples_alloc _ _ _ _ _ _ _) as [[[r p] ls] w].
      apply assembled_emit; [reflexivity|exact H].
    - intros nb s1 H. unfold do_swr_convert.
      destruct (swr_convert _ _ _ _ _) as [r w]. apply assembled_emit; [reflexivity|exact H].
    - intros s1 [d [Hd Hb]]. unfold buffer_insert_cend. cbn [post].
      eexists. cbn [trace buffer emit set_buffer]. rewrite Hd, <- app_assoc.
      split; [reflexivity|]. rewrite appended_app, concat_app, <- Hb. cbn.
      now rewrite app_nil_r.
    - intros s1 [d [Hd Ha]]. exists d. cbn. split; [exact Hd|]. now rewrite Ha.
    - intros s1 H. unfold do_av_packet_alloc. destruct (av_packet_alloc _) as [p w]. exact H.
    - intros s1 H. unfold do_av_frame_alloc. destruct (av_frame_alloc _) as [[p f] w]. exact H. }
  destruct (FFMPEG_decode fuel s) as [b s'| | |] eqn:E; cbn [post] in *; trivial.
  rewrite (FFMPEG_decode_returns_buffer _ _ _ _ E). exact H.
Qed.

Ltac plain_settle H :=
  let d := fresh "d" in
  let Hd := fresh "Hd" in
  let Ha := fresh "Ha" in
  destruct H as [d [Hd Ha]]; st_simpl;
  eexists; split;
  [ rewrite Hd, <- ?app_assoc; reflexivity
  | rewrite ?appended_app, ?Ha; reflexivity ].

Lemma read_audio_into_buffer_assembled fuel filename (s : State World) :
  tr0 = trace s ->
  post (fun sd s' =>
          sd_channels sd = 1 /\
          exists d, trace s' = tr0 ++ d /\ sd_buffer sd = concat (appended d))
       (fun _ _ => True)
       (read_audio_into_buffer fuel filename s).
Proof.
  intros Htr.
  assert (Hs : exists d, trace s = tr0 ++ d /\ appended d = [])
    by (exists []; rewrite app_nil_r; auto).
  unfold read_audio_into_buffer. wp; try exact I.
  all: eapply post_mono; [apply find_audio_stream_pure | | intros; exact I].
  all: intros idx s1 ->; cbn beta; wp; try exact I.
  all: destruct (nth_error _ _) as [pStream|]; [|wp; exact I].
  all: destruct (codecpar pStream) as [pCodecParams|]; wp; try exact I.
  all: eapply post_mono; [apply FFMPEG_decode_assembled; plain_settle Hs | | intros; exact I].
  all: intros decoded s2 [d [Hd Hb]]; cbn beta; wp.
  all: split; [reflexivity|].
  all: eexists; split; [rewrite Hd, <- ?app_assoc; reflexivity|].
  all: rewrite ?appended_app; cbn; rewrite ?app_nil_r; exact Hb.
Qed.

End Assembled.

Lemma al_releases_app d l : al_releases (d ++ l) = al_releases d ++ al_releases l.
Proof. unfold al_releases. apply flat_map_app. Qed.

Lemma decodes_app d l : decodes (d ++ l) = decodes d ++ decodes l.
Proof. unfold decodes. apply flat_map_app. Qed.

Section MainSpec.

Context {World : Type} {L : Libav World} {AL : OpenAL World}.

Lemma do_read_audio_into_buffer_spec fuel filename (h : Host World) :
  went (fun sd h' =>
          sd_channels sd = 1 /\
          exists d, h_trace h' = h_trace h ++ [AlDecode d] /\
                    sd_buffer sd = concat (appended d))
       (fun c h' => exists d, h_trace h' = h_trace h ++ [AlDecode d])
       (do_read_audio_into_buffer fuel filename h).
Proof.
  unfold do_read_audio_into_buffer.
  pose proof (read_audio_into_buffer_assembled [] fuel filename (boot (h_world h)) eq_refl)
    as H.
  destruct (read_audio_into_buffer fuel filename (boot (h_world h))) as [sd s|c s|s|s];
    cbn [went post final] in *; host_simpl.
  - destruct H as [Hc [d [Hd Hb]]]. cbn [app] in Hd. subst d.
    split; [exact Hc|]. eexists. split; [reflexivity|exact Hb].
  - eexists. reflexivity.
  - eexists. reflexivity.
  - eexists. reflexivity.
Qed.

Lemma poll_events_are_plain ds d q q' :
  al_run q d = Some q' -> Forall (mono16_of ds) d.
Proof.
  intros H. destruct (al_run_quiet q d q' H) as (_ & _ & Hb).
  eapply Forall_impl; [|exact Hb]. intros [ | | | | ]; cbn; tauto.
Qed.

Ltac facts_of_polls :=
  match goal with
  | H : al_run _ ?d = Some _ |- _ =>
      let Hr := fresh "Hrel" in
      let Hd := fresh "Hdec" in
      destruct (al_run_quiet _ _ _ H) as (Hr & Hd & _)
  end.

Lemma play_spec fuel pDevice (h : Host World) :
  went (fun status h' =>
          status = 0 /\
          exists d, h_trace h' = h_trace h ++ d /\
                    Forall (mono16_of (decodes d)) d /\ length (decodes d) = 1%nat /\
                    al_releases d =
                    [a_alDeleteSources; a_alDeleteBuffers; a_alcDestroyContext;
                     a_alcCloseDevice])
       (fun c h' =>
          exists d, h_trace h' = h_trace h ++ d /\
                    Forall (mono16_of (decodes d)) d /\ length (decodes d) = 1%nat /\
                    al_releases d = [])
       (play fuel pDevice h).
Proof.
  unfold play. apply went_bind.
  eapply went_mono; [apply do_read_audio_into_buffer_spec | |].
  - intros sd h1 [Hch [tr [Htr Hbuf]]]. cbn beta. pwp.
    eapply went_mono; [apply poll_loop_polls | |].
    + intros st h2 [_ [d (Hd & Hrun & _)]]. cbn beta. pwp.
      split; [reflexivity|]. facts_of_polls.
      eexists. rewrite Hd. host_simpl. rewrite Htr, <- !app_assoc.
      split; [reflexivity|].
      rewrite !decodes_app, !al_releases_app, Hdec, Hrel.
      split; [|split; reflexivity].
      cbn [decodes flat_map app].
      repeat first [apply Forall_nil | apply Forall_cons | (apply Forall_app; split)];
        try exact I.
      * cbn [mono16_of]. rewrite Hch. split; [reflexivity|]. split; [reflexivity|].
        exists tr. split; [reflexivity|exact Hbuf].
      * eapply poll_events_are_plain, Hrun.
    + intros c h2 [_ [d (Hd & Hrun & _)]]. facts_of_polls.
      eexists. rewrite Hd. host_simpl. rewrite Htr, <- !app_assoc.
      split; [reflexivity|].
      rewrite !decodes_app, !al_releases_app, Hdec, Hrel.
      split; [|split; reflexivity].
      cbn [decodes flat_map app].
      repeat first [apply Forall_nil | apply Forall_cons | (apply Forall_app; split)];
        try exact I.
      * cbn [mono16_of]. rewrite Hch. split; [reflexivity|]. split; [reflexivity|].
        exists tr. split; [reflexivity|exact Hbuf].
      * eapply poll_events_are_plain, Hrun.
  - intros c h1 [tr Htr]. exists [AlDecode tr]. split; [exact Htr|].
    split; [repeat constructor|]. split; reflexivity.
Qed.

End MainSpec.

Section MainRuns.

Context {World : Type} {L : Libav World} {AL : OpenAL World}.

Lemma main_spec fuel (h : Host World) :
  went (fun status h' =>
          exists d, h_trace h' = h_trace h ++ d /\
                    Forall (mono16_of (decodes d)) d /\
                    ((status = 0 /\ length (decodes d) = 1%nat /\
                      al_releases d =
                      [a_alDeleteSources; a_alDeleteBuffers; a_alcDestroyContext;
                       a_alcCloseDevice]) \/
                     (status = 1 /\ decodes d = [] /\
                      al_releases d =
                      if fst (alcOpenDevice (h_world h) nullptr) =? nullptr
                      then [] else [a_alcCloseDevice])))
       (fun c h' =>
          exists d, h_trace h' = h_trace h ++ d /\
                    Forall (mono16_of (decodes d)) d /\
                    (length (decodes d) <= 1)%nat /\ al_releases d = [])
       (main fuel h).
Proof.
  unfold main. pwp.
  - (* a device and a context *)
    eapply went_mono; [apply play_spec | |].
    + intros status h1 [-> [d (Hd & Hall & Hlen & Hrel)]].
      eexists. rewrite Hd. host_simpl. rewrite <- !app_assoc.
      split; [reflexivity|].
      rewrite !decodes_app, !al_releases_app, Hrel. cbn [decodes al_releases flat_map app].
      split; [|left; auto].
      repeat first [apply Forall_nil | apply Forall_cons | exact Hall]; exact I.
    + intros c h1 [d (Hd & Hall & Hlen & Hrel)].
      eexists. rewrite Hd. host_simpl. rewrite <- !app_assoc.
      split; [reflexivity|].
      rewrite !decodes_app, !al_releases_app, Hrel. cbn [decodes al_releases flat_map app].
      split; [|split; [rewrite Hlen; auto | reflexivity]].
      repeat first [apply Forall_nil | apply Forall_cons | exact Hall]; exact I.
  - (* alcGetString returned a null pointer *)
    eexists. rewrite <- !app_assoc. split; [reflexivity|].
    split; [repeat constructor|]. split; [cbn; lia | reflexivity].
  - (* no context *)
    eexists. rewrite <- !app_assoc. split; [reflexivity|].
    split; [repeat constructor|]. right. split; [reflexivity|]. split; [reflexivity|].
    match goal with H : alcOpenDevice _ _ = _ |- _ => rewrite H end. cbn [fst].
    match goal with H : negb (_ =? nullptr) = true |- _ =>
      apply negb_true_iff in H; rewrite H end.
    reflexivity.
  - (* no device *)
    eexists. rewrite <- !app_assoc. split; [reflexivity|].
    split; [repeat constructor|]. right. split; [reflexivity|]. split; [reflexivity|].
    match goal with H : alcOpenDevice _ _ = _ |- _ => rewrite H end. cbn [fst].
    match goal with H : negb (_ =? nullptr) = false |- _ =>
      apply negb_false_iff in H; rewrite H end.
    reflexivity.
Qed.

End MainRuns.

(** X16: main gives back to OpenAL what it took only when it returns.  A
    run of main that returns 0 has decoded once and then deleted the source
    and the buffer, destroyed the context and closed the device, in this
    order.  A run that returns 1 has not started the decoder, and has closed
    the device if and only if alcOpenDevice had opened one (the context
    could not be created).  A run that stops short, in particular through
    an exit call of read_audio_into_buffer, has released nothing: the device
    and the context are left open. *)
Theorem main_releases_openal_only_on_return {World} {L : Libav World} {AL : OpenAL World}
    fuel (h : Host World) :
  let r := main fuel h in
  match r with
  | Went status _ =>
      (status = 0 /\ length (decodes (heard h r)) = 1%nat /\
       al_releases (heard h r) =
       [a_alDeleteSources; a_alDeleteBuffers; a_alcDestroyContext; a_alcCloseDevice]) \/
      (status = 1 /\ decodes (heard h r) = [] /\
       al_releases (heard h r) =
       if fst (alcOpenDevice (h_world h) nullptr) =? nullptr then [] else [a_alcCloseDevice])
  | Stopped _ _ =>
      (length (decodes (heard h r)) <= 1)%nat /\ al_releases (heard h r) = []
  end.
Proof.
  intros r. pose proof (main_spec fuel h) as H. fold r in H.
  destruct r as [status h'|c h'] eqn:Er; cbn [went] in H; destruct H as [d (Hd & _ & H)].
  - rewrite (heard_app h (Went status h') d Hd). exact H.
  - rewrite (heard_app h (Stopped (A:=Z) c h') d Hd). exact H.
Qed.

(** X17: what main hands to OpenAL.  In every run of main, every call of
    alBufferData is given the format AL_FORMAT_MONO16, never
    AL_FORMAT_STEREO16 and never the initial 0; the bytes it is given are
    the chunks the pump appended during the one run of
    read_audio_into_buffer, in order; and the size it is given is their
    count converted to ALsizei. *)
Theorem main_hands_mono16_to_openal {World} {L : Libav World} {AL : OpenAL World}
    fuel (h : Host World) :
  let tr := heard h (main fuel h) in
  Forall (mono16_of (decodes tr)) tr.
Proof.
  intros tr. pose proof (main_spec fuel h) as H. unfold tr.
  destruct (main fuel h) as [status h'|c h'] eqn:Er; cbn [went] in H;
    destruct H as [d (Hd & H & _)].
  - rewrite (heard_app h (Went status h') d Hd). exact H.
  - rewrite (heard_app h (Stopped (A:=Z) c h') d Hd). exact H.
Qed.

(** ** A frame that could not be allocated *)
Section Frameless.

Context {World : Type} {L : Libav World}.
Variable tr0 : list event.

Ltac frameless_settle H :=
  let Hf := fresh "Hf" in
  let Hb := fresh "Hb" in
  let Ht := fresh "Ht" in
  destruct H as (Hf & Hb & Ht);
  cbn [frameless_stop]; unfold frameless; st_simpl;
  repeat (split; [first [assumption | reflexivity]|]);
  first [ assumption | reflexivity | extends Ht ].

Lemma retry_loop_frameless fuel (s : State World) :
  is_eof s = false -> frameless tr0 s ->
  post (fun _ s' =>
          if is_eof s' then frameless tr0 s'
          else frame s' = nullptr /\ buffer s' = [] /\
               tracks frameless_step Waiting tr0 Delivered s')
       (frameless_stop tr0) (retry_loop fuel s).
Proof.
  revert s. induction fuel as [|fuel IH]; intros s Heof Hs; [exact Hs|].
  cbn [retry_loop]. wp.
  all: try (apply IH; [exact Heof|]).
  all: try solve [frameless_settle Hs].
  all: rewrite Heof; frameless_settle Hs.
Qed.

Lemma pump_loop_frameless fuel (s : State World) :
  at_loop_head s -> frameless tr0 s ->
  post (fun _ s' => frameless tr0 s' /\ is_eof s' = true) (frameless_stop tr0)
       (pump_loop fuel s).
Proof.
  intros [He Heof] Hs. destruct fuel as [|fuel]; [exact Hs|].
  cbn [pump_loop]. wp.
  - eapply post_mono; [apply retry_loop_frameless; assumption | | auto].
    intros [] s1 Hs1. cbn beta. wp.
    + split; assumption.
    + unfold resample_frame. apply post_bind. unfold frame_nb_samples.
      destruct Hs1 as (Hf & Hb & Ht). rewrite Hf.
      change (nullptr =? nullptr) with true. cbv iota. cbn [post frameless_stop]. auto.
  - exfalso. rewrite Heof in *. apply Z.leb_le in He.
    match goal with H : _ && _ = false |- _ => rewrite He in H; discriminate H end.
Qed.

Hypothesis Hnone : frames_missing L.

Lemma FFMPEG_decode_frameless fuel (s : State World) :
  tr0 = trace s ->
  post (fun b s' => b = [] /\ is_eof s' = true /\
                    tracks frameless_step Waiting tr0 Waiting s')
       (frameless_stop tr0) (FFMPEG_decode fuel s).
Proof.
  intros Htr.
  assert (Hs : tracks frameless_step Waiting tr0 Waiting s)
    by (rewrite Htr; apply tracks_start).
  clear Htr. unfold FFMPEG_decode. wp.
  1-2: split; [assumption | extends Hs].
  match goal with H : av_frame_alloc _ = _ |- _ => apply Hnone in H; subst end.
  eapply post_mono; [apply pump_loop_frameless | | auto].
  - split; [cbn; lia | reflexivity].
  - unfold frameless. st_simpl. split; [reflexivity|]. split; [reflexivity|]. extends Hs.
  - intros [] s1 [(_ & Hb & Ht) Heof]. cbn beta. wp. auto.
Qed.

End Frameless.


Lemma probe_frames_missing : frames_missing Probe.frameless_lib.
Proof.
  intros w ptr f w' H. cbv [av_frame_alloc Probe.frameless_lib Probe.lib_with Probe.no_frame] in H.
  congruence.
Qed.

(** The song without a frame to decode into: the first frame is fatal. *)
Example frameless_song_crashes :
  exists s', @FFMPEG_decode _ Probe.frameless_lib 10 (boot Demo.song) = Crash s' /\
             last (trace s') (EvFree 0) = EvReceiveFrame 0 (mkFrame 3 1).
Proof. eexists. split; vm_compute; reflexivity. Qed.


(** ** main without an audio stream *)
Section MuteMain.

Context {World : Type} {L : Libav World} {AL : OpenAL World}.
Hypothesis Hno : no_audio_stream L.

Lemma do_read_audio_into_buffer_mute fuel filename (h : Host World) :
  went (fun _ _ => False)
       (fun c h' => c <> StopFuel /\ exists d, h_trace h' = h_trace h ++ [AlDecode d])
       (do_read_audio_into_buffer fuel filename h).
Proof.
  unfold do_read_audio_into_buffer.
  pose proof (read_audio_into_buffer_report [] Hno fuel filename (boot (h_world h)) eq_refl)
    as H.
  destruct (read_audio_into_buffer fuel filename (boot (h_world h))) as [sd s|c s|s|s];
    cbn [went post report_stop final] in *; host_simpl.
  - exact H.
  - split; [discriminate | eexists; reflexivity].
  - split; [discriminate | eexists; reflexivity].
  - destruct H.
Qed.

Lemma main_mute fuel (h : Host World) :
  went (fun status h' =>
          status = 1 /\
          exists d, h_trace h' = h_trace h ++ d /\
                    Forall (fun e => match e with AlBufferData _ _ _ _ _ => False
                                                | _ => True end) d)
       (fun c h' =>
          c <> StopFuel /\
          exists d, h_trace h' = h_trace h ++ d /\
                    Forall (fun e => match e with AlBufferData _ _ _ _ _ => False
                                                | _ => True end) d)
       (main fuel h).
Proof.
  unfold main, play. pwp.
  - eapply went_mono; [apply do_read_audio_into_buffer_mute | |].
    + intros sd h1 [].
    + intros c h1 [Hc [d Hd]]. split; [exact Hc|].
      eexists. rewrite Hd. host_simpl. rewrite <- !app_assoc. split; [reflexivity|].
      repeat constructor.
  - split; [discriminate|]. eexists. rewrite <- !app_assoc. split; [reflexivity|].
    repeat constructor.
  - split; [reflexivity|]. eexists. rewrite <- !app_assoc. split; [reflexivity|].
    repeat constructor.
  - split; [reflexivity|]. eexists. rewrite <- !app_assoc. split; [reflexivity|].
    repeat constructor.
Qed.

End MuteMain.

(** X19: without an audio stream nothing is played.  With a container none
    of whose streams is an audio stream, main never returns 0: it returns 1
    when OpenAL gives it no device or no context, and stops short otherwise,
    through the exit of read_audio_into_buffer (or a null dereference),
    never cut by a loop; alBufferData is not called in any such run. *)
Theorem nothing_is_played_without_audio {World} {L : Libav World} {AL : OpenAL World}
    fuel (h : Host World) :
  no_audio_stream L ->
  let r := main fuel h in
  Forall (fun e => match e with AlBufferData _ _ _ _ _ => False | _ => True end)
         (heard h r) /\
  match r with
  | Went status _ => status = 1
  | Stopped c _ => c <> StopFuel
  end.
Proof.
  intros Hno r. pose proof (main_mute Hno fuel h) as H. fold r in H.
  destruct r as [status h'|c h'] eqn:Er; cbn [went] in H; destruct H as [H1 [d (Hd & Hall)]].
  - rewrite (heard_app h (Went status h') d Hd). auto.
  - rewrite (heard_app h (Stopped (A:=Z) c h') d Hd). auto.
Qed.

Lemma mute_stage_no_audio_stream : no_audio_stream Probe.mute_stage.
Proof.
  intros w ctx st par Hin Hpar. cbn in Hin. unfold Demo.video_only in Hin.
  apply in_map_iff in Hin. destruct Hin as [x [Hx _]]. subst st.
  cbn in Hpar. inversion Hpar. subst par. cbn. discriminate.
Qed.

(** The concert with a film that has no sound: exit(-1), the device and the
    context still open. *)
Example mute_concert_is_refused :
  exists h', @main _ Probe.mute_stage Probe.speaker 10 (mkHost Probe.concert []) =
             Stopped (StopExit (-1)) h' /\
             al_releases (h_trace h') = [].
Proof. eexists. split; vm_compute; reflexivity. Qed.

Lemma nothing_is_played_without_audio_witness :
  no_audio_stream Probe.mute_stage /\
  let r := @main _ Probe.mute_stage Probe.speaker 10 (mkHost Probe.concert []) in
  Forall (fun e => match e with AlBufferData _ _ _ _ _ => False | _ => True end)
         (heard (mkHost Probe.concert []) r) /\
  match r with
  | Went status _ => status = 1
  | Stopped c _ => c <> StopFuel
  end.
Proof.
  split; [exact mute_stage_no_audio_stream|].
  apply (nothing_is_played_without_audio (L := Probe.mute_stage) (AL := Probe.speaker) 10
           (mkHost Probe.concert []) mute_stage_no_audio_stream).
Defined.
